(** * demisto-integrator: [demisto_integrator/cli.py]

    A shallow embedding of [IgnorePattern], [IgnoredFiles], [list_files],
    [determine_version], [confirm] and the decisions of [sync], together
    with the fragment of the Python 3.6 standard library they call
    ([str] methods, [os.path], [re], [fnmatch]); [setup.py] declares
    Python 3.6 as the interpreter of the package.

    Strings are [string]: sequences of characters with code points below 256.
    Python exceptions are the [Raise] results of the [result] monad. *)

From Stdlib Require Import String Ascii List Bool Arith ZArith Lia DecimalString DecimalNat
  Permutation.
Import ListNotations.
Local Open Scope string_scope.
Local Open Scope list_scope.

Set Implicit Arguments.

(** ** Exceptions and the error monad *)

Module Py.

(** The exceptions the modelled code can raise. [NotModelled] is not a Python
    exception: [re_compile] returns it on regular-expression syntax outside
    the fragment that the model parses. *)
Inductive exn : Type :=
| re_error (msg : string) (pos : nat)
| AssertionError
| ValueError
| NotModelled (what : string).

Inductive result (A : Type) : Type :=
| Ok (a : A)
| Raise (e : exn).

Arguments Ok {A} a.
Arguments Raise {A} e.

Definition bind {A B : Type} (m : result A) (k : A -> result B) : result B :=
  match m with
  | Ok a => k a
  | Raise e => Raise e
  end.

Definition is_ok {A : Type} (m : result A) : bool :=
  match m with Ok _ => true | Raise _ => false end.

End Py.
Import Py.

Notation "x <- m ;; k" := (bind m (fun x => k))
  (at level 61, m at next level, right associativity).
Notation "' pat <- m ;; k" := (bind m (fun x => match x with pat => k end))
  (at level 61, pat pattern, m at next level, right associativity).

(** ** Python [str] operations used by the source *)

Module Str.

Definition chr (n : nat) : ascii := ascii_of_nat n.
Definition ord (c : ascii) : nat := nat_of_ascii c.

(** [s.startswith(p)] *)
Definition startswith (s p : string) : bool := String.prefix p s.

(** [s.endswith(p)]: some suffix of [s] is [p]. *)
Fixpoint endswith (s p : string) : bool :=
  String.eqb s p ||
  match s with
  | EmptyString => false
  | String _ s' => endswith s' p
  end.

(** [p in s] *)
Fixpoint contains (p s : string) : bool :=
  String.prefix p s ||
  match s with
  | EmptyString => false
  | String _ s' => contains p s'
  end.

(** [s[n:]] *)
Fixpoint drop (n : nat) (s : string) : string :=
  match n, s with
  | O, _ => s
  | S n', String _ s' => drop n' s'
  | S _, EmptyString => EmptyString
  end.

(** [s[:n]] for [n >= 0] *)
Fixpoint take (n : nat) (s : string) : string :=
  match n, s with
  | S n', String c s' => String c (take n' s')
  | _, _ => EmptyString
  end.

(** [s[:-n]] for [n > 0] *)
Definition drop_last (n : nat) (s : string) : string :=
  take (String.length s - n) s.

(** [s.partition(sep)] for a non-empty [sep], without the middle component
    (which the source discards). *)
Fixpoint partition (sep s : string) : string * string :=
  if String.prefix sep s then (EmptyString, drop (String.length sep) s)
  else match s with
       | EmptyString => (EmptyString, EmptyString)
       | String c s' => let (a, b) := partition sep s' in (String c a, b)
       end.

(** [c.isspace()] on code points below 256. *)
Definition isspace (c : ascii) : bool :=
  let n := ord c in
  (((9 <=? n) && (n <=? 13)) || ((28 <=? n) && (n <=? 32))
   || (n =? 133) || (n =? 160))%nat.

(** [s.lstrip()] *)
Fixpoint lstrip (s : string) : string :=
  match s with
  | EmptyString => EmptyString
  | String c s' => if isspace c then lstrip s' else s
  end.

(** [s.rstrip()] *)
Fixpoint rstrip (s : string) : string :=
  match s with
  | EmptyString => EmptyString
  | String c s' =>
      match rstrip s' with
      | EmptyString => if isspace c then EmptyString else String c EmptyString
      | r => String c r
      end
  end.

(** [s.strip()] *)
Definition strip (s : string) : string := rstrip (lstrip s).

(** [s.replace(old, new)] for a non-empty [old]: every occurrence, scanning
    from the left, occurrences not overlapping. [skip] counts the characters
    of an occurrence that are still to be passed over. *)
Fixpoint replace_from (skip : nat) (old new s : string) : string :=
  match s with
  | EmptyString => EmptyString
  | String c s' =>
      match skip with
      | S k => replace_from k old new s'
      | O =>
          if String.prefix old s
          then new ++ replace_from (String.length old - 1) old new s'
          else String c (replace_from 0 old new s')
      end
  end.

Definition replace (old new s : string) : string := replace_from 0 old new s.

(** [str(n)] for a non-negative integer. *)
Definition str_of_nat (n : nat) : string := NilZero.string_of_uint (Nat.to_uint n).

(** ['%2s' % s]: right-justified in a field of width 2. *)
Definition pad2 (s : string) : string :=
  match String.length s with
  | 0 => "  " ++ s
  | 1 => " " ++ s
  | _ => s
  end.

End Str.
Import Str.

(** ** The fragment of Python 3.6's [re] and [fnmatch] that the source uses *)

Module Re.

Inductive set_item : Type :=
| SLit (c : ascii)
| SRange (lo hi : ascii).

(** Parsed regular expressions. [RFail] (no match) is produced by
    derivatives only; [RGroup] is sre's SUBPATTERN; [RAtEndString] is [\Z]. *)
Inductive regex : Type :=
| RFail
| REps
| RLit (c : ascii)
| RAny (dotall : bool)
| RIn (negate : bool) (items : list set_item)
| RAtEndString
| RCat (r1 r2 : regex)
| RAlt (r1 r2 : regex)
| RStar (r : regex)
| ROpt (r : regex)
| RGroup (r : regex).

Definition is_digit (c : ascii) : bool := ((48 <=? ord c) && (ord c <=? 57))%nat.
Definition is_octdigit (c : ascii) : bool := ((48 <=? ord c) && (ord c <=? 55))%nat.
Definition is_ascii_letter (c : ascii) : bool :=
  (((65 <=? ord c) && (ord c <=? 90)) || ((97 <=? ord c) && (ord c <=? 122)))%nat.

(** [re.escape] of Python 3.6: everything but ASCII letters, digits and [_]
    is escaped. *)
Definition escape_char (c : ascii) : string :=
  if is_ascii_letter c || is_digit c || Ascii.eqb c "_" then String c EmptyString
  else if Ascii.eqb c (chr 0) then "\000"
  else String "\" (String c EmptyString).

Fixpoint re_escape (pattern : string) : string :=
  match pattern with
  | EmptyString => EmptyString
  | String c s => escape_char c ++ re_escape s
  end.

(** sre_parse's ESCAPES table. *)
Definition simple_escape (c : ascii) : option ascii :=
  if Ascii.eqb c "a" then Some (chr 7)
  else if Ascii.eqb c "b" then Some (chr 8)
  else if Ascii.eqb c "f" then Some (chr 12)
  else if Ascii.eqb c "n" then Some (chr 10)
  else if Ascii.eqb c "r" then Some (chr 13)
  else if Ascii.eqb c "t" then Some (chr 9)
  else if Ascii.eqb c "v" then Some (chr 11)
  else if Ascii.eqb c "\" then Some "\"%char
  else None.

Definition octval (c : ascii) : nat := ord c - 48.

(** [\0] followed by at most two more octal digits: the value, what is left
    of the input, and the number of digits read after the [0]. *)
Definition octal_escape (s : string) : ascii * string * nat :=
  match s with
  | String d1 s1 =>
      if is_octdigit d1 then
        match s1 with
        | String d2 s2 =>
            if is_octdigit d2 then (chr (octval d1 * 8 + octval d2), s2, 2)
            else (chr (octval d1), s1, 1)
        | EmptyString => (chr (octval d1), s1, 1)
        end
      else (chr 0, s, 0)
  | EmptyString => (chr 0, s, 0)
  end.

Definition bad_escape (c : ascii) (pos : nat) : exn :=
  re_error ("bad escape \" ++ String c EmptyString) pos.

(** sre_parse._escape, on the character [c] after a backslash at [pos]. *)
Definition escape (c : ascii) (s : string) (pos : nat) : result (regex * string * nat) :=
  if Ascii.eqb c "Z" then Ok (RAtEndString, s, 2 + pos)
  else if existsb (Ascii.eqb c) ["A"; "b"; "B"; "d"; "D"; "s"; "S"; "w"; "W"]%char
  then Raise (NotModelled "category escape")
  else match simple_escape c with
  | Some l => Ok (RLit l, s, 2 + pos)
  | None =>
      if existsb (Ascii.eqb c) ["x"; "u"; "U"]%char then Raise (NotModelled "hex escape")
      else if Ascii.eqb c "0" then
        let '(l, s', n) := octal_escape s in Ok (RLit l, s', n + (2 + pos))
      else if is_digit c then Raise (NotModelled "group reference")
      else if is_ascii_letter c then Raise (bad_escape c pos)
      else Ok (RLit c, s, 2 + pos)
  end.

(** One member of a character set: its code, its source text, the rest of
    the input and the position after it (sre_parse._class_escape for an
    escaped one). *)
Definition class_code (c : ascii) (s : string) (pos : nat)
  : result (ascii * string * string * nat) :=
  if Ascii.eqb c "\" then
    match s with
    | EmptyString => Raise (re_error "bad escape (end of pattern)" pos)
    | String e s' =>
        let text := String "\" (String e EmptyString) in
        match simple_escape e with
        | Some l => Ok (l, text, s', 2 + pos)
        | None =>
            if is_ascii_letter e || is_digit e
            then Raise (NotModelled "escape in character set")
            else Ok (e, text, s', 2 + pos)
        end
    end
  else Ok (c, String c EmptyString, s, 1 + pos).

Definition bad_range (this that : string) (pos : nat) : exn :=
  re_error ("bad character range " ++ this ++ "-" ++ that) pos.

(** The loop of sre_parse._parse over the members of a set opened at [here];
    [started] says that a member has been read ([set != start]). *)
Fixpoint parse_set (fuel : nat) (here : nat) (started : bool) (items : list set_item)
    (s : string) (pos : nat) : result (list set_item * string * nat) :=
  match fuel with
  | O => Raise (NotModelled "fuel")
  | S f =>
      match s with
      | EmptyString => Raise (re_error "unterminated character set" here)
      | String c rest =>
          if Ascii.eqb c "]" && started then Ok (rev items, rest, 1 + pos)
          else
            '(code1, this, s1, p1) <- class_code c rest pos ;;
            match s1 with
            | String "-" EmptyString => Raise (re_error "unterminated character set" here)
            | String "-" (String "]" s3) =>
                Ok (rev (SLit "-" :: SLit code1 :: items), s3, 2 + p1)
            | String "-" (String d s3) =>
                '(code2, that, s4, p4) <- class_code d s3 (1 + p1) ;;
                if (ord code2 <? ord code1)%nat then Raise (bad_range this that pos)
                else parse_set f here true (SRange code1 code2 :: items) s4 p4
            | _ => parse_set f here true (SLit code1 :: items) s1 p1
            end
      end
  end.

(** The items of a sequence, last first, as one expression. *)
Fixpoint seq_of (acc : list regex) : regex :=
  match acc with
  | [] => REps
  | [r] => r
  | r :: acc' => RCat (seq_of acc') r
  end.

(** [*] or [?] applied to the last item of the sequence read so far. *)
Definition repeat_last (q : regex -> regex) (acc : list regex) (pos : nat)
  : result (list regex) :=
  match acc with
  | [] => Raise (re_error "nothing to repeat" pos)
  | RAtEndString :: _ => Raise (re_error "nothing to repeat" pos)
  | RStar _ :: _ | ROpt _ :: _ => Raise (re_error "multiple repeat" pos)
  | r :: acc' => Ok (q r :: acc')
  end.

(** A lazy-repeat mark [?] after a repeat does not change which strings match. *)
Definition skip_lazy (s : string) (pos : nat) : string * nat :=
  match s with
  | String "?" s' => (s', 1 + pos)
  | _ => (s, pos)
  end.

(** sre_parse._parse_sub ([parse_alt]) and sre_parse._parse ([parse_seq]). *)
Fixpoint parse_alt (fuel : nat) (dotall : bool) (s : string) (pos : nat)
  : result (regex * string * nat) :=
  match fuel with
  | O => Raise (NotModelled "fuel")
  | S f =>
      '(acc, s1, p1) <- parse_seq f dotall [] s pos ;;
      match s1 with
      | String "|" s2 =>
          '(r2, s3, p3) <- parse_alt f dotall s2 (1 + p1) ;;
          Ok (RAlt (seq_of acc) r2, s3, p3)
      | _ => Ok (seq_of acc, s1, p1)
      end
  end
with parse_seq (fuel : nat) (dotall : bool) (acc : list regex) (s : string) (pos : nat)
  : result (list regex * string * nat) :=
  match fuel with
  | O => Raise (NotModelled "fuel")
  | S f =>
      match s with
      | EmptyString => Ok (acc, s, pos)
      | String c rest =>
          if Ascii.eqb c "|" || Ascii.eqb c ")" then Ok (acc, s, pos)
          else if Ascii.eqb c "\" then
            match rest with
            | EmptyString => Raise (re_error "bad escape (end of pattern)" pos)
            | String e rest' =>
                '(r, s1, p1) <- escape e rest' pos ;;
                parse_seq f dotall (r :: acc) s1 p1
            end
          else if Ascii.eqb c "[" then
            let '(negate, s0, p0) :=
              match rest with
              | String "^" rest' => (true, rest', 2 + pos)
              | _ => (false, rest, 1 + pos)
              end in
            '(items, s1, p1) <- parse_set (S (String.length s0)) pos false [] s0 p0 ;;
            parse_seq f dotall (RIn negate items :: acc) s1 p1
          else if Ascii.eqb c "*" then
            acc' <- repeat_last RStar acc pos ;;
            let (s1, p1) := skip_lazy rest (1 + pos) in
            parse_seq f dotall acc' s1 p1
          else if Ascii.eqb c "?" then
            acc' <- repeat_last ROpt acc pos ;;
            let (s1, p1) := skip_lazy rest (1 + pos) in
            parse_seq f dotall acc' s1 p1
          else if Ascii.eqb c "+" || Ascii.eqb c "{" then Raise (NotModelled "repeat")
          else if Ascii.eqb c "^" || Ascii.eqb c "$" then Raise (NotModelled "anchor")
          else if Ascii.eqb c "." then parse_seq f dotall (RAny dotall :: acc) rest (1 + pos)
          else if Ascii.eqb c "(" then
            '(flags, s0, p0) <-
              match rest with
              | String "?" (String ":" rest') => Ok (dotall, rest', 3 + pos)
              | String "?" (String "s" (String ":" rest')) => Ok (true, rest', 4 + pos)
              | String "?" _ => Raise (NotModelled "group extension")
              | _ => Ok (dotall, rest, 1 + pos)
              end ;;
            '(r, s1, p1) <- parse_alt f flags s0 p0 ;;
            match s1 with
            | String ")" s2 => parse_seq f dotall (RGroup r :: acc) s2 (1 + p1)
            | _ => Raise (re_error "missing ), unterminated subpattern" pos)
            end
          else parse_seq f dotall (RLit c :: acc) rest (1 + pos)
      end
  end.

(** [re.compile(pattern)] *)
Definition re_compile (pattern : string) : result regex :=
  '(r, rest, pos) <- parse_alt (2 * String.length pattern + 4) false pattern 0 ;;
  match rest with
  | EmptyString => Ok r
  | _ => Raise (re_error "unbalanced parenthesis" pos)
  end.

(** [str(e)] for the exceptions of the model; for [re.error] on a pattern
    without a newline. *)
Definition str_exn (e : exn) : string :=
  match e with
  | re_error msg pos => msg ++ " at position " ++ str_of_nat pos
  | AssertionError => ""
  | ValueError => "list.remove(x): x not in list"
  | NotModelled what => "not modelled: " ++ what
  end.

(** *** Matching *)

Definition in_item (c : ascii) (i : set_item) : bool :=
  match i with
  | SLit a => Ascii.eqb a c
  | SRange lo hi => ((ord lo <=? ord c) && (ord c <=? ord hi))%nat
  end.

(** Does the expression match the empty string here? [at_end] says whether
    the position is the end of the subject. *)
Fixpoint nullable (at_end : bool) (r : regex) : bool :=
  match r with
  | RFail | RLit _ | RAny _ | RIn _ _ => false
  | REps | RStar _ | ROpt _ => true
  | RAtEndString => at_end
  | RCat r1 r2 => nullable at_end r1 && nullable at_end r2
  | RAlt r1 r2 => nullable at_end r1 || nullable at_end r2
  | RGroup r1 => nullable at_end r1
  end.

(** What remains to be matched after the character [c] has been read. *)
Fixpoint deriv (c : ascii) (r : regex) : regex :=
  match r with
  | RFail | REps | RAtEndString => RFail
  | RLit a => if Ascii.eqb a c then REps else RFail
  | RAny dotall => if dotall || negb (Ascii.eqb c (chr 10)) then REps else RFail
  | RIn negate items => if xorb negate (existsb (in_item c) items) then REps else RFail
  | RCat r1 r2 =>
      if nullable false r1 then RAlt (RCat (deriv c r1) r2) (deriv c r2)
      else RCat (deriv c r1) r2
  | RAlt r1 r2 => RAlt (deriv c r1) (deriv c r2)
  | RStar r1 => RCat (deriv c r1) (RStar r1)
  | ROpt r1 => deriv c r1
  | RGroup r1 => deriv c r1
  end.

(** [bool(regex.match(s))]: some prefix of [s] matches. *)
Fixpoint re_match (r : regex) (s : string) : bool :=
  match s with
  | EmptyString => nullable true r
  | String c s' => nullable false r || re_match (deriv c r) s'
  end.

(** *** [fnmatch.translate] of Python 3.6 *)

(** After a [[]: the length of the set's text, up to the closing bracket
    (a leading [!] and a bracket right after the start do not close). *)
Fixpoint find_close (s : string) : option nat :=
  match s with
  | EmptyString => None
  | String c s' =>
      if Ascii.eqb c "]" then Some 0 else option_map S (find_close s')
  end.

Definition bracket_end (s : string) : option nat :=
  let j := if startswith s "!" then 1 else 0 in
  let j := if startswith (drop j s) "]" then j + 1 else j in
  option_map (fun k => j + k) (find_close (drop j s)).

Definition set_text (stuff : string) : string :=
  let stuff := replace "\" "\\" stuff in
  match stuff with
  | String "!" s' => String "^" s'
  | String "^" _ => String "\" stuff
  | _ => stuff
  end.

Fixpoint translate_from (skip : nat) (pat : string) : string :=
  match pat with
  | EmptyString => EmptyString
  | String c rest =>
      match skip with
      | S k => translate_from k rest
      | O =>
          if Ascii.eqb c "*" then ".*" ++ translate_from 0 rest
          else if Ascii.eqb c "?" then "." ++ translate_from 0 rest
          else if Ascii.eqb c "[" then
            match bracket_end rest with
            | None => "\[" ++ translate_from 0 rest
            | Some j => "[" ++ set_text (take j rest) ++ "]" ++ translate_from (j + 1) rest
            end
          else escape_char c ++ translate_from 0 rest
      end
  end.

Definition fnmatch_translate (pat : string) : string :=
  "(?s:" ++ translate_from 0 pat ++ ")\Z".

End Re.
Import Re.

(** ** [os.path] and the file system *)

Module OsPath.

(** [os.path.join(a, b)] *)
Definition join (a b : string) : string :=
  if startswith b "/" then b
  else if String.eqb a "" || endswith a "/" then a ++ b
  else a ++ "/" ++ b.

(** [os.path.basename(p)]: what follows the last slash. *)
Fixpoint basename (p : string) : string :=
  match p with
  | EmptyString => EmptyString
  | String c p' =>
      if contains "/" p' then basename p'
      else if Ascii.eqb c "/" then p' else p
  end.

(** [p[:p.rfind('/') + 1]] *)
Fixpoint head_of (p : string) : string :=
  match p with
  | EmptyString => EmptyString
  | String c p' =>
      if contains "/" p' then String c (head_of p')
      else if Ascii.eqb c "/" then "/" else EmptyString
  end.

(** [s.rstrip('/')] *)
Fixpoint rstrip_slash (s : string) : string :=
  match s with
  | EmptyString => EmptyString
  | String c s' =>
      match rstrip_slash s' with
      | EmptyString => if Ascii.eqb c "/" then EmptyString else String c EmptyString
      | r => String c r
      end
  end.

(** [os.path.dirname(p)] *)
Definition dirname (p : string) : string :=
  let head := head_of p in
  match rstrip_slash head with
  | EmptyString => head
  | stripped => stripped
  end.

End OsPath.

(** What the code asks of the operating system: [os.path.abspath],
    [os.path.isdir], and the lines of a text file ([None] when
    [os.path.exists] is false). *)
Record OS : Type := {
  os_path_abspath : string -> string;
  os_path_isdir : string -> bool;
  read_lines : string -> option (list string)
}.

(** A directory as [os.walk] sees it: the sub-directories and the other
    entries, in the order [os.scandir] lists them. *)
#[local] Unset Elimination Schemes.
Inductive tree : Type :=
| Dir (dirs : list (string * tree)) (files : list string).
#[local] Set Elimination Schemes.

(** Truth value of [None] or a [str]. *)
Definition truthy (o : option string) : bool :=
  match o with
  | Some s => negb (String.eqb s "")
  | None => false
  end.

(** ** class IgnorePattern *)

Module IgnorePattern.

Record t : Type := {
  root : string;
  pattern : string;
  description : string;
  invalid : option string;
  applies_to_directories : bool;
  match_basename : bool;
  exact_match : option string;
  regex : option Re.regex
}.

Definition set_invalid (v : string) (self : t) : t :=
  {| root := root self; pattern := pattern self; description := description self;
     invalid := Some v; applies_to_directories := applies_to_directories self;
     match_basename := match_basename self; exact_match := exact_match self;
     regex := regex self |}.

Definition set_applies_to_directories (v : bool) (self : t) : t :=
  {| root := root self; pattern := pattern self; description := description self;
     invalid := invalid self; applies_to_directories := v;
     match_basename := match_basename self; exact_match := exact_match self;
     regex := regex self |}.

Definition set_match_basename (v : bool) (self : t) : t :=
  {| root := root self; pattern := pattern self; description := description self;
     invalid := invalid self; applies_to_directories := applies_to_directories self;
     match_basename := v; exact_match := exact_match self; regex := regex self |}.

Definition set_exact_match (v : string) (self : t) : t :=
  {| root := root self; pattern := pattern self; description := description self;
     invalid := invalid self; applies_to_directories := applies_to_directories self;
     match_basename := match_basename self; exact_match := Some v; regex := regex self |}.

Definition set_regex (v : Re.regex) (self : t) : t :=
  {| root := root self; pattern := pattern self; description := description self;
     invalid := invalid self; applies_to_directories := applies_to_directories self;
     match_basename := match_basename self; exact_match := exact_match self;
     regex := Some v |}.

(** [_has_glob] *)
Definition _has_glob (pattern : string) : bool :=
  contains "*" pattern || contains "?" pattern.

(** [__init__], lines 204-231: the middle double star, a stray double star,
    anchoring, and the choice between a glob and an exact string. *)
Definition init_rest (self : t) (pattern : string) : result t :=
  if contains "/**/" pattern then
    let (first, second) := partition "/**/" pattern in
    if _has_glob (first ++ second) then Ok (set_invalid "Too complex" self)
    else
      rx <- re_compile (re_escape first ++ "(/.*/|/)?" ++ re_escape second) ;;
      Ok (set_regex rx self)
  else if contains "**" pattern then Ok (set_invalid "Not supported" self)
  else
    let (self, pattern) :=
      if startswith pattern "/" then (set_match_basename false self, drop 1 pattern)
      else if negb (contains "/" pattern) then (set_match_basename true self, pattern)
      else (self, pattern) in
    if _has_glob pattern then
      rx <- re_compile (fnmatch_translate pattern) ;;
      Ok (set_regex rx self)
    else Ok (set_exact_match pattern self).

(** [__init__], lines 169-189: a leading [**/]. *)
Definition init_leading (self : t) (pattern : string) : result t :=
  let pattern := drop 3 pattern in
  if _has_glob pattern then Ok (set_invalid "Too complex" self)
  else if String.eqb pattern "" then
    rx <- re_compile ".*" ;;
    Ok (set_regex rx (set_match_basename true self))
  else if contains "/" pattern then
    rx <- re_compile (".*/" ++ re_escape pattern) ;;
    Ok (set_regex rx (set_match_basename false self))
  else Ok (set_exact_match pattern (set_match_basename true self)).

(** [__init__], lines 191-202: a trailing [/**]. *)
Definition init_trailing (self : t) (pattern : string) : result t :=
  let pattern := drop_last 3 pattern in
  if _has_glob pattern then Ok (set_invalid "Too complex" self)
  else
    let self := set_applies_to_directories true self in
    if String.eqb pattern "" then
      rx <- re_compile ".*" ;;
      Ok (set_regex rx (set_match_basename true self))
    else init_rest self pattern.

(** [IgnorePattern(root, pattern, basename, line_number)] *)
Definition init (root pattern basename : string) (line_number : nat) : result t :=
  let self :=
    {| root := root; pattern := pattern;
       description := basename ++ ":" ++ pad2 (str_of_nat line_number) ++ ":" ++ pattern;
       invalid := None; applies_to_directories := false; match_basename := false;
       exact_match := None; regex := None |} in
  let (self, pattern) :=
    if endswith pattern "/" && negb (endswith pattern "*/")
    then (set_applies_to_directories true self, drop_last 1 pattern)
    else (self, pattern) in
  if startswith pattern "**/" then init_leading self pattern
  else if endswith pattern "/**" then init_trailing self pattern
  else init_rest self pattern.

(** [self.match(full_path, is_dir)], as a truth value. *)
Definition match_ (os : OS) (self : t) (full_path : string) (is_dir : option bool)
  : result bool :=
  if truthy (invalid self) then Raise AssertionError
  else
    let is_file :=
      if applies_to_directories self then
        negb match is_dir with
             | None => os_path_isdir os full_path
             | Some b => b
             end
      else false in
    if is_file then Ok false
    else
      let name :=
        if match_basename self then OsPath.basename full_path
        else drop (String.length (root self) + 1) full_path in
      if truthy (exact_match self) then
        match exact_match self with
        | Some e => Ok (String.eqb name e)
        | None => Ok false
        end
      else
        match regex self with
        | Some rx => Ok (re_match rx name)
        | None => Raise AssertionError
        end.

End IgnorePattern.

(** ** class IgnoredFiles *)

Module IgnoredFiles.

(** An entry of [self.invalid]: a message, or a pattern that did not compile. *)
Inductive diagnostic : Type :=
| DiagText (s : string)
| DiagPattern (p : IgnorePattern.t).

(** [_regexes] is a Python set of objects compared by identity; the list is
    the set in its iteration order, a new pattern written at its end. *)
Record t : Type := {
  root : string;
  invalid : list diagnostic;
  _regexes : list IgnorePattern.t;
  basename : string
}.

Definition invalid_append (d : diagnostic) (self : t) : t :=
  {| root := root self; invalid := invalid self ++ [d];
     _regexes := _regexes self; basename := basename self |}.

Definition regexes_add (p : IgnorePattern.t) (self : t) : t :=
  {| root := root self; invalid := invalid self;
     _regexes := _regexes self ++ [p]; basename := basename self |}.

(** [self.add(pattern, line_number)] *)
Definition add (self : t) (pattern : string) (line_number : nat) : result t :=
  pat <- IgnorePattern.init (root self) pattern (basename self) line_number ;;
  if truthy (IgnorePattern.invalid pat) then Ok (invalid_append (DiagPattern pat) self)
  else Ok (regexes_add pat self).

(** One turn of the loop of [parse_gitignore], lines 103-114. *)
Definition parse_line (self : t) (line_number : nat) (line : string) : result t :=
  let line := strip line in
  if String.eqb line "" || startswith line "#" then Ok self
  else if startswith line "!" then
    Ok (invalid_append
          (DiagText ("Negation pattern line " ++ str_of_nat line_number ++ " not supported"))
          self)
  else add self line line_number.

(** The loop over the lines: the object as the loop leaves it, and the
    exception that ended it, if any. *)
Fixpoint parse_lines (self : t) (line_number : nat) (lines : list string)
  : t * option exn :=
  match lines with
  | [] => (self, None)
  | line :: rest =>
      match parse_line self (line_number + 1) line with
      | Ok self' => parse_lines self' (line_number + 1) rest
      | Raise e => (self, Some e)
      end
  end.

(** [self.parse_gitignore(path)] *)
Definition parse_gitignore (os : OS) (self : t) (path : string) : t :=
  match read_lines os path with
  | None => invalid_append (DiagText ("No folder " ++ path)) self
  | Some lines =>
      match parse_lines self 0 lines with
      | (self', None) => self'
      | (self', Some e) => invalid_append (DiagText ("Crashed: " ++ str_exn e)) self'
      end
  end.

(** [IgnoredFiles(path, basename, use_default_ignores)] *)
Definition init (os : OS) (path basename : string) (use_default_ignores : bool)
  : result t :=
  let self :=
    {| root := os_path_abspath os path; invalid := []; _regexes := [];
       basename := basename |} in
  let self := parse_gitignore os self (OsPath.join (OsPath.dirname (root self)) basename) in
  if use_default_ignores then add self ".git/" 0 else Ok self.

(** The loop of [match] over the rules. *)
Fixpoint match_rules (os : OS) (rules : list IgnorePattern.t) (path : string)
    (is_dir : option bool) : result (option IgnorePattern.t) :=
  match rules with
  | [] => Ok None
  | regex :: rest =>
      b <- IgnorePattern.match_ os regex path is_dir ;;
      if b then Ok (Some regex) else match_rules os rest path is_dir
  end.

(** [self.match(path, is_dir)] *)
Definition match_ (os : OS) (self : t) (path : string) (is_dir : option bool)
  : result (option IgnorePattern.t) :=
  match_rules os (_regexes self) path is_dir.

(** [dirs.remove(x)]: the first occurrence goes; [ValueError] without one. *)
Fixpoint list_remove (x : string) (l : list string) : result (list string) :=
  match l with
  | [] => Raise ValueError
  | y :: l' => if String.eqb y x then Ok l' else l'' <- list_remove x l' ;; Ok (y :: l'')
  end.

(** The loop of [remove_ignored_folders] over the copy [dirs[:]], acting on
    the list [dirs] itself. *)
Fixpoint remove_loop (os : OS) (self : t) (root : string) (copy dirs : list string)
  : result (list string) :=
  match copy with
  | [] => Ok dirs
  | basename :: rest =>
      m <- match_ os self (OsPath.join root basename) (Some true) ;;
      match m with
      | Some _ => dirs' <- list_remove basename dirs ;; remove_loop os self root rest dirs'
      | None => remove_loop os self root rest dirs
      end
  end.

(** [self.remove_ignored_folders(root, dirs)]: the object and the list after
    the call. *)
Definition remove_ignored_folders (os : OS) (self : t) (root : string) (dirs : list string)
  : result (t * list string) :=
  dirs' <- remove_loop os self root dirs dirs ;;
  Ok (self, dirs').

(** [len(self)] *)
Definition __len__ (self : IgnoredFiles.t) : nat := List.length (IgnoredFiles._regexes self).

(** [repr(self)] *)
Definition __repr__ (self : IgnoredFiles.t) : string :=
  str_of_nat (List.length (IgnoredFiles._regexes self)) ++ " ignores, "
  ++ str_of_nat (List.length (IgnoredFiles.invalid self)) ++ " invalid".

End IgnoredFiles.

(** ** [os.walk] and [list_files] *)

(** [for root, dirs, files in os.walk(top): body], top-down: [body] sees the
    names of a directory and may edit [dirs]; the walk then descends into the
    names left, each looked up in the directory. [S] is the state of the
    loop that surrounds the walk. *)
Fixpoint os_walk {S : Type}
    (body : string -> list string -> list string -> S -> result (list string * S))
    (top : string) (t : tree) (s : S) : result S :=
  match t with
  | Dir dirs files =>
      '(dirs', s1) <- body top (map fst dirs) files s ;;
      (fix descend (names : list string) (s : S) : result S :=
         match names with
         | [] => Ok s
         | name :: names' =>
             match
               (fix find (l : list (string * tree)) : option (S -> result S) :=
                  match l with
                  | [] => None
                  | (n, sub) :: l' =>
                      if String.eqb n name
                      then Some (os_walk body (OsPath.join top name) sub)
                      else find l'
                  end) dirs
             with
             | None => descend names' s
             | Some walk => s' <- walk s ;; descend names' s'
             end
         end) dirs' s1
  end.

(** The loop over [files] in [list_files], lines 318-323. *)
Fixpoint list_files_files (os : OS) (ignored_files : IgnoredFiles.t) (mypath root : string)
    (files : list string) (all_files : list string) : result (list string) :=
  match files with
  | [] => Ok all_files
  | filename :: rest =>
      let fpath := OsPath.join root filename in
      m <- IgnoredFiles.match_ os ignored_files fpath (Some false) ;;
      match m with
      | Some _ => list_files_files os ignored_files mypath root rest all_files
      | None =>
          list_files_files os ignored_files mypath root rest
            (all_files ++ [replace (mypath ++ "/") "" fpath])
      end
  end.

(** The body of the loop over [os.walk] in [list_files], lines 316-323. *)
Definition list_files_body (os : OS) (ignored_files : IgnoredFiles.t) (mypath : string)
    (root : string) (dirs files : list string) (all_files : list string)
  : result (list string * list string) :=
  '(_, dirs') <- IgnoredFiles.remove_ignored_folders os ignored_files root dirs ;;
  all_files' <- list_files_files os ignored_files mypath root files all_files ;;
  Ok (dirs', all_files').

(** [list_files], lines 315-324, for a given [ignored_files]. *)
Definition list_files_walk (os : OS) (ignored_files : IgnoredFiles.t) (mypath : string)
    (t : tree) : result (list string) :=
  os_walk (list_files_body os ignored_files mypath) mypath t [].

(** [list_files(mypath)], where [t] is the directory at [mypath]. *)
Definition list_files (os : OS) (mypath : string) (t : tree) : result (list string) :=
  ignored_files <- IgnoredFiles.init os mypath ".contentignore" true ;;
  list_files_walk os ignored_files mypath t.

Unset Implicit Arguments.

(** ** [determine_version] *)

Module Version.

(** [s.split(sep)] for a separator of one character. *)
Fixpoint split (sep : ascii) (s : string) : list string :=
  match s with
  | EmptyString => [EmptyString]
  | String c s' =>
      if Ascii.eqb c sep then EmptyString :: split sep s'
      else match split sep s' with
           | [] => [String c EmptyString]
           | p :: ps => String c p :: ps
           end
  end.

(** The digits of an [int] literal after its sign: decimal digits, with
    single underscores allowed between two digits. [seen] says that the
    character before was a digit. *)
Fixpoint digits_value (s : string) (acc : Z) (seen : bool) : option Z :=
  match s with
  | EmptyString => if seen then Some acc else None
  | String c s' =>
      if is_digit c then digits_value s' (10 * acc + Z.of_nat (ord c - 48)) true
      else if Ascii.eqb c "_" && seen then digits_value s' acc false
      else None
  end.

(** The white space that [int] passes over at the two ends of its argument,
    on code points below 256. It is not the white space of [str.strip]:
    [int] rejects the separators 28 to 31 ([int('\x1c5')] raises
    [ValueError]). *)
Definition int_space (c : ascii) : bool :=
  let n := ord c in
  (((9 <=? n) && (n <=? 13)) || (n =? 32) || (n =? 133) || (n =? 160))%nat.

Fixpoint int_lstrip (s : string) : string :=
  match s with
  | EmptyString => EmptyString
  | String c s' => if int_space c then int_lstrip s' else s
  end.

Fixpoint int_rstrip (s : string) : string :=
  match s with
  | EmptyString => EmptyString
  | String c s' =>
      match int_rstrip s' with
      | EmptyString => if int_space c then EmptyString else String c EmptyString
      | r => String c r
      end
  end.

(** [int(s)] for a [str], base 10: white space at the two ends, a sign, and
    the digits. *)
Definition int (s : string) : result Z :=
  let s := int_rstrip (int_lstrip s) in
  let (negative, body) :=
    match s with
    | String "-" r => (true, r)
    | String "+" r => (false, r)
    | _ => (false, s)
    end in
  match digits_value body 0 false with
  | Some v => Ok (if negative then (- v)%Z else v)
  | None => Raise ValueError
  end.

(** [str(n)] for an [int]. *)
Definition str_of_int (z : Z) : string :=
  if (z <? 0)%Z then ("-" ++ str_of_nat (Z.to_nat (- z)))%string
  else str_of_nat (Z.to_nat z).

(** [[f(x) for x in l]], stopping at the first exception. *)
Fixpoint map_result {A B : Type} (f : A -> result B) (l : list A) : result (list B) :=
  match l with
  | [] => Ok []
  | x :: l' => y <- f x ;; ys <- map_result f l' ;; Ok (y :: ys)
  end.

(** The sort key of a tag: [[int(u) for u in s.split('.')]]. *)
Definition tag_key (s : string) : result (list Z) := map_result int (split "." s).

(** [a < b] on lists of integers. *)
Fixpoint key_lt (a b : list Z) : bool :=
  match a, b with
  | _, [] => false
  | [], _ :: _ => true
  | x :: a', y :: b' => (x <? y)%Z || ((x =? y)%Z && key_lt a' b')
  end.

(** [list.sort(key=...)] is stable: an element goes behind the elements
    whose key is not greater. Any stable sort gives this list. *)
Fixpoint insert_tag (x : list Z * string) (l : list (list Z * string))
  : list (list Z * string) :=
  match l with
  | [] => [x]
  | y :: l' => if key_lt (fst x) (fst y) then x :: l else y :: insert_tag x l'
  end.

Definition sort_tags (l : list (list Z * string)) : list (list Z * string) :=
  fold_left (fun sorted x => insert_tag x sorted) l [].

(** [tags[-1]], when there is one. *)
Fixpoint last_tag (l : list string) : option string :=
  match l with
  | [] => None
  | [x] => Some x
  | _ :: l' => last_tag l'
  end.

(** [str(today.year)[2:]] *)
Definition this_year (today_year : nat) : string := drop 2 (str_of_nat today_year).

(** [determine_version(repo)], where [tags] are the decoded names that
    [tag_list(repo)] gives and [today_year], [today_month] are the fields of
    [date.today()]. *)
Definition determine_version (tags : list string) (today_year today_month : nat)
  : result string :=
  keys <- map_result tag_key tags ;;
  let tags := map snd (sort_tags (combine keys tags)) in
  index <-
    match last_tag tags with
    | None => Ok "0"
    | Some latest =>
        match split "." latest with
        | [year; month; index] =>
            if String.eqb year (this_year today_year)
               && String.eqb month (str_of_nat today_month)
            then i <- int index ;; Ok (str_of_int (i + 1))
            else Ok index
        | _ => Raise ValueError
        end
    end ;;
  Ok (this_year today_year ++ "." ++ str_of_nat today_month ++ "." ++ index)%string.

End Version.

(** ** [confirm] and the staging loop of [sync] *)

Module Sync.

(** The surroundings of the loop: the user, who answers a [click.confirm]
    question knowing the questions asked before, and [calculate_diff], the
    lines of the unified diff of two files. What [click.secho] and
    [click.echo] print is not modelled. *)
Record Env : Type := {
  click_confirm : list string -> string -> bool;
  calculate_diff : string -> string -> list string
}.

(** The variables of the loop, and the questions asked so far. *)
Record state : Type := {
  add_all : bool;
  modify_all : bool;
  staged_files : list string;
  questions : list string
}.

Definition initial : state :=
  {| add_all := false; modify_all := false; staged_files := []; questions := [] |}.

Definition stage (partial_path : string) (st : state) : state :=
  {| add_all := add_all st; modify_all := modify_all st;
     staged_files := staged_files st ++ [partial_path]; questions := questions st |}.

Definition set_add_all (st : state) : state :=
  {| add_all := true; modify_all := modify_all st;
     staged_files := staged_files st; questions := questions st |}.

(** [confirm(msg, force)] *)
Definition confirm (env : Env) (force : bool) (msg : string) (st : state) : bool * state :=
  if force then (true, st)
  else (click_confirm env (questions st) msg,
        {| add_all := add_all st; modify_all := modify_all st;
           staged_files := staged_files st; questions := questions st ++ [msg] |}).

(** One turn of the loop of [sync], lines 406-445. *)
Definition sync_step (env : Env) (force : bool) (content_repo_path custom_repo_path : string)
    (custom_content_files : list string) (st : state) (partial_path : string) : state :=
  if negb (existsb (String.eqb partial_path) custom_content_files) then
    if add_all st then stage partial_path st
    else
      let (yes, st) := confirm env force "Do you want to add this file?" st in
      if yes then
        let st := stage partial_path st in
        let (all, st) := confirm env force "Do you want to add all new files?" st in
        if all then set_add_all st else st
      else st
  else
    let content_path := OsPath.join content_repo_path partial_path in
    let custom_path := OsPath.join custom_repo_path partial_path in
    let diff := calculate_diff env content_path custom_path in
    match diff with
    | [] => st
    | _ :: _ =>
        if modify_all st then stage partial_path st
        else
          let (_, st) := confirm env force "Do you want to view diff?" st in
          let (yes, st) := confirm env force "Do you want to accept these changes?" st in
          if yes then
            let st := stage partial_path st in
            let (all, st) := confirm env force "Do you want to add all modified files?" st in
            if all then set_add_all st else st
          else st
    end.

(** The loop of [sync] over [content_files], lines 403-445. *)
Definition sync_stage (env : Env) (force : bool) (content_repo_path custom_repo_path : string)
    (content_files custom_content_files : list string) : state :=
  fold_left (sync_step env force content_repo_path custom_repo_path custom_content_files)
            content_files initial.

(** The end of [sync], lines 449-456: with files staged, the user is asked
    whether to create a release. The flag says that [create_release] is
    called. *)
Definition sync_release (env : Env) (force : bool) (st : state) : bool * state :=
  match staged_files st with
  | [] => (false, st)
  | _ :: _ =>
      confirm env force "Do you want to create a new release with these changes?" st
  end.

(** [sync], lines 403-456, for the listings [content_files] and
    [custom_content_files] that the two calls of [list_files] gave: the
    staging loop, then the release. What [add] copies and stages in the
    repository is not modelled. *)
Definition sync (env : Env) (force : bool) (content_repo_path custom_repo_path : string)
    (content_files custom_content_files : list string) : bool * state :=
  sync_release env force
    (sync_stage env force content_repo_path custom_repo_path
       content_files custom_content_files).

End Sync.

(** ** [show_ignores] *)

Module ShowIgnores.

(** [' ' * n] *)
Fixpoint spaces (n : nat) : string :=
  match n with
  | O => EmptyString
  | S n' => String " " (spaces n')
  end.

(** ["%-30s: %s" % (description, relative_path)]: the description
    left-justified in a field of width 30. *)
Definition format (description relative_path : string) : string :=
  description ++ spaces (30 - String.length description) ++ ": " ++ relative_path.

(** The loop over [dirs[:]], lines 73-79, acting on the list [dirs] itself. *)
Fixpoint show_dirs (os : OS) (self : IgnoredFiles.t) (root : string)
    (copy dirs : list string) (result : list string)
  : Py.result (list string * list string) :=
  match copy with
  | [] => Ok (dirs, result)
  | basename :: rest =>
      let fpath := OsPath.join root basename in
      let relative_path := drop (String.length (IgnoredFiles.root self) + 1) fpath in
      m <- IgnoredFiles.match_ os self fpath (Some true) ;;
      match m with
      | Some m =>
          dirs' <- IgnoredFiles.list_remove basename dirs ;;
          show_dirs os self root rest dirs'
            (result ++ [format (IgnorePattern.description m) relative_path])
      | None => show_dirs os self root rest dirs result
      end
  end.

(** The loop over [files], lines 81-86. *)
Fixpoint show_files (os : OS) (self : IgnoredFiles.t) (root : string)
    (files : list string) (result : list string) : Py.result (list string) :=
  match files with
  | [] => Ok result
  | basename :: rest =>
      let fpath := OsPath.join root basename in
      let relative_path := drop (String.length (IgnoredFiles.root self) + 1) fpath in
      m <- IgnoredFiles.match_ os self fpath (Some false) ;;
      match m with
      | Some m =>
          show_files os self root rest
            (result ++ [format (IgnorePattern.description m) relative_path])
      | None => show_files os self root rest result
      end
  end.

(** The body of the loop over [os.walk], lines 73-86. *)
Definition show_ignores_body (os : OS) (self : IgnoredFiles.t)
    (root : string) (dirs files : list string) (result : list string)
  : Py.result (list string * list string) :=
  '(dirs', result) <- show_dirs os self root dirs dirs result ;;
  result <- show_files os self root files result ;;
  Ok (dirs', result).

(** ['\n'.join(result)] *)
Fixpoint join_lines (result : list string) : string :=
  match result with
  | [] => EmptyString
  | [line] => line
  | line :: rest => line ++ String (chr 10) (join_lines rest)
  end.

(** [self.show_ignores()], where [t] is the directory at [self.root]. *)
Definition show_ignores (os : OS) (self : IgnoredFiles.t) (t : tree) : Py.result string :=
  result <- os_walk (show_ignores_body os self) (IgnoredFiles.root self) t [] ;;
  Ok (join_lines result).

End ShowIgnores.

Set Implicit Arguments.

(** * Vocabulary of the properties *)

(** Every character is white space. *)
Fixpoint all_space (s : string) : bool :=
  match s with
  | EmptyString => true
  | String c s' => isspace c && all_space s'
  end.

(** The [self.invalid] entry that [parse_gitignore] writes for a negation
    line. *)
Definition negation_diagnostic (line_number : nat) : IgnoredFiles.diagnostic :=
  IgnoredFiles.DiagText
    ("Negation pattern line " ++ str_of_nat line_number ++ " not supported").

(** A rule on which [match] passes its two assertions: it is not marked
    invalid, and it has a non-empty exact string or a regex. *)
Definition usable (p : IgnorePattern.t) : bool :=
  negb (truthy (IgnorePattern.invalid p))
  && (truthy (IgnorePattern.exact_match p)
      || match IgnorePattern.regex p with Some _ => true | None => false end).

(** [self.match(path, is_dir)] returns a pattern. *)
Definition ignored (os : OS) (self : IgnoredFiles.t) (path : string) (is_dir : bool) : bool :=
  match IgnoredFiles.match_ os self path (Some is_dir) with
  | Ok (Some _) => true
  | _ => false
  end.

(** The entry of a directory with a given name, as [os.walk] finds it. *)
Fixpoint lookup (name : string) (l : list (string * tree)) : option tree :=
  match l with
  | [] => None
  | (n, sub) :: l' => if String.eqb n name then Some sub else lookup name l'
  end.

(** The descent of [os_walk] into the names left in [dirs]. *)
Fixpoint walk_names {S : Type}
    (body : string -> list string -> list string -> S -> result (list string * S))
    (top : string) (dirs : list (string * tree)) (names : list string) (s : S) : result S :=
  match names with
  | [] => Ok s
  | name :: names' =>
      match lookup name dirs with
      | None => walk_names body top dirs names' s
      | Some sub =>
          s' <- os_walk body (OsPath.join top name) sub s ;;
          walk_names body top dirs names' s'
      end
  end.

(** The full recursive listing, as a walk that removes nothing from [dirs]
    gives it: the full paths of all files. *)
Definition full_listing (top : string) (t : tree) : result (list string) :=
  os_walk (fun root dirs files (acc : list string) =>
             Ok (dirs, acc ++ map (OsPath.join root) files))
          top t [].

(** What [list_files] reports for the full path of a file. *)
Definition reported (mypath fpath : string) : string :=
  replace (mypath ++ "/") "" fpath.

(** The filter of the specification: a listing of full paths filtered by
    [match] with [is_dir=False]. *)
Fixpoint posthoc_filter (os : OS) (self : IgnoredFiles.t) (mypath : string)
    (listing : list string) : result (list string) :=
  match listing with
  | [] => Ok []
  | fpath :: rest =>
      m <- IgnoredFiles.match_ os self fpath (Some false) ;;
      rest' <- posthoc_filter os self mypath rest ;;
      Ok match m with
         | Some _ => rest'
         | None => reported mypath fpath :: rest'
         end
  end.

(** The full recursive listing with, for each file, the directories between
    the top and the file, outermost first. *)
Fixpoint listing (top : string) (t : tree) : list (list string * string) :=
  match t with
  | Dir dirs files =>
      map (fun f => ([], OsPath.join top f)) files ++
      (fix descend (names : list string) : list (list string * string) :=
         match names with
         | [] => []
         | name :: names' =>
             match
               (fix find (l : list (string * tree)) : option (list (list string * string)) :=
                  match l with
                  | [] => None
                  | (n, sub) :: l' =>
                      if String.eqb n name
                      then Some (listing (OsPath.join top name) sub)
                      else find l'
                  end) dirs
             with
             | None => descend names'
             | Some l =>
                 map (fun e => (OsPath.join top name :: fst e, snd e)) l ++ descend names'
             end
         end) (map fst dirs)
  end.

(** The listing of the sub-directories named in [names]. *)
Fixpoint listing_names (top : string) (dirs : list (string * tree)) (names : list string)
  : list (list string * string) :=
  match names with
  | [] => []
  | name :: names' =>
      match lookup name dirs with
      | None => listing_names top dirs names'
      | Some sub =>
          map (fun e => (OsPath.join top name :: fst e, snd e))
              (listing (OsPath.join top name) sub)
          ++ listing_names top dirs names'
      end
  end.

(** An entry of the listing survives when no directory above the file is
    ignored as a directory and the file is not ignored as a file. *)
Definition kept (os : OS) (self : IgnoredFiles.t) (e : list string * string) : bool :=
  forallb (fun d => negb (ignored os self d true)) (fst e)
  && negb (ignored os self (snd e) false).

(** What it means for an expression to match a word [w] of the subject;
    [at_end] says that the subject ends where [w] ends, which is what [\Z]
    asks for. *)
Inductive Matches : bool -> Re.regex -> string -> Prop :=
| MEps at_end : Matches at_end REps ""
| MLit at_end c : Matches at_end (RLit c) (String c "")
| MAny at_end dotall c :
    dotall || negb (Ascii.eqb c (chr 10)) = true ->
    Matches at_end (RAny dotall) (String c "")
| MIn at_end negate items c :
    xorb negate (existsb (in_item c) items) = true ->
    Matches at_end (RIn negate items) (String c "")
| MAtEnd : Matches true RAtEndString ""
| MCat at_end r1 r2 w1 w2 :
    Matches (at_end && String.eqb w2 "") r1 w1 ->
    Matches at_end r2 w2 ->
    Matches at_end (RCat r1 r2) (w1 ++ w2)
| MAltL at_end r1 r2 w : Matches at_end r1 w -> Matches at_end (RAlt r1 r2) w
| MAltR at_end r1 r2 w : Matches at_end r2 w -> Matches at_end (RAlt r1 r2) w
| MStarNil at_end r : Matches at_end (RStar r) ""
| MStarApp at_end r w1 w2 :
    Matches (at_end && String.eqb w2 "") r w1 ->
    Matches at_end (RStar r) w2 ->
    Matches at_end (RStar r) (w1 ++ w2)
| MOptNil at_end r : Matches at_end (ROpt r) ""
| MOptOne at_end r w : Matches at_end r w -> Matches at_end (ROpt r) w
| MGroup at_end r w : Matches at_end r w -> Matches at_end (RGroup r) w.

(** The items that [parse_seq] has read after the literal characters of
    [p], last first. *)
Fixpoint literals (p : string) (acc : list Re.regex) : list Re.regex :=
  match p with
  | EmptyString => acc
  | String c p' => literals p' (RLit c :: acc)
  end.

(** The optional group that [__init__] puts between the two parts of a
    middle double star, as [re.compile] reads it. *)
Definition middle_group : Re.regex :=
  ROpt (RGroup (RAlt (seq_of [RLit "/"; RStar (RAny false); RLit "/"]) (RLit "/"))).

(** What one character of a glob without character set becomes. *)
Definition glob_item (c : ascii) : Re.regex :=
  if Ascii.eqb c "*" then RStar (RAny true)
  else if Ascii.eqb c "?" then RAny true
  else RLit c.

(** The items that [parse_seq] has read after the translation of the glob
    [p], last first, and the number of turns it took. *)
Fixpoint glob_items (p : string) (acc : list Re.regex) : list Re.regex :=
  match p with
  | EmptyString => acc
  | String c p' => glob_items p' (glob_item c :: acc)
  end.

Fixpoint glob_steps (p : string) : nat :=
  match p with
  | EmptyString => 0
  | String c p' => (if Ascii.eqb c "*" then 2 else 1) + glob_steps p'
  end.

(** No rule of the active set is marked invalid. *)
Definition all_valid (self : IgnoredFiles.t) : Prop :=
  Forall (fun r => truthy (IgnorePattern.invalid r) = false) (IgnoredFiles._regexes self).

(** The property of the specification: pruning before the descent and
    filtering the full listing afterwards report the same set of files. *)
Definition pruning_property (os : OS) (self : IgnoredFiles.t) (mypath : string) (t : tree)
  : Prop :=
  exists pruned full filtered,
    list_files_walk os self mypath t = Ok pruned
    /\ full_listing mypath t = Ok full
    /\ posthoc_filter os self mypath full = Ok filtered
    /\ forall f, In f pruned <-> In f filtered.

(** An operating system where paths are absolute already, nothing is a
    directory for [os.path.isdir], and every file read has the given lines. *)
Definition example_os (lines : list string) : OS :=
  {| os_path_abspath := fun p => p;
     os_path_isdir := fun _ => false;
     read_lines := fun _ => Some lines |}.

(** The first end-to-end scenario of the specification: [a.txt],
    [build/output.bin] and [.git/HEAD], with [build/] in the ignore file. *)
Definition example_tree : tree :=
  Dir [("build", Dir [] ["output.bin"]); (".git", Dir [] ["HEAD"])] ["a.txt"].

Definition example_ignores : IgnoredFiles.t :=
  match IgnoredFiles.init (example_os ["build/"]) "/srv/content" ".contentignore" true with
  | Ok self => self
  | Raise _ => IgnoredFiles.Build_t "" [] [] ""
  end.

Unset Implicit Arguments.

(** A tag of three parts is not later than today: it is written with this
    year and this month, or its year and month, as integers, come before. *)
Definition not_later (today_year today_month : nat) (t : string) : Prop :=
  forall year month index,
    Version.split "." t = [year; month; index] ->
    (year = Version.this_year today_year /\ month = str_of_nat today_month)
    \/ exists Y M Yt,
         Version.int year = Ok Y /\ Version.int month = Ok M
         /\ Version.int (Version.this_year today_year) = Ok Yt
         /\ Version.key_lt [Y; M] [Yt; Z.of_nat today_month] = true.

(** Every character is a decimal digit. *)
Fixpoint all_digits (s : string) : bool :=
  match s with
  | EmptyString => true
  | String c s' => is_digit c && all_digits s'
  end.

(** The number that a decimal numeral adds to [acc], as [digits_value]
    reads it. *)
Fixpoint uint_value (d : Decimal.uint) (acc : Z) : Z :=
  match d with
  | Decimal.Nil => acc
  | Decimal.D0 d => uint_value d (10 * acc)
  | Decimal.D1 d => uint_value d (10 * acc + 1)
  | Decimal.D2 d => uint_value d (10 * acc + 2)
  | Decimal.D3 d => uint_value d (10 * acc + 3)
  | Decimal.D4 d => uint_value d (10 * acc + 4)
  | Decimal.D5 d => uint_value d (10 * acc + 5)
  | Decimal.D6 d => uint_value d (10 * acc + 6)
  | Decimal.D7 d => uint_value d (10 * acc + 7)
  | Decimal.D8 d => uint_value d (10 * acc + 8)
  | Decimal.D9 d => uint_value d (10 * acc + 9)
  end.

(** A file of the content repository is new when the custom repository does
    not list it, and modified when it does and the diff is not empty. *)
Definition is_new (custom_content_files : list string) (partial_path : string) : bool :=
  negb (existsb (String.eqb partial_path) custom_content_files).

Definition is_modified (env : Sync.Env) (content_repo_path custom_repo_path : string)
    (custom_content_files : list string) (partial_path : string) : bool :=
  negb (is_new custom_content_files partial_path)
  && match Sync.calculate_diff env (OsPath.join content_repo_path partial_path)
             (OsPath.join custom_repo_path partial_path) with
     | [] => false
     | _ :: _ => true
     end.

(** The files that [sync] offers for staging. *)
Definition changed (env : Sync.Env) (content_repo_path custom_repo_path : string)
    (custom_content_files : list string) (partial_path : string) : bool :=
  is_new custom_content_files partial_path
  || is_modified env content_repo_path custom_repo_path custom_content_files partial_path.

(** [a] is [b] with some elements left out. *)
Inductive Subseq {A : Type} : list A -> list A -> Prop :=
| Subseq_nil : Subseq [] []
| Subseq_skip x a b : Subseq a b -> Subseq a (x :: b)
| Subseq_keep x a b : Subseq a b -> Subseq (x :: a) (x :: b).

(** How often a question was asked. *)
Definition asked (msg : string) (st : Sync.state) : nat :=
  count_occ string_dec (Sync.questions st) msg.

(** [f] holds of [s] or of what is left of [s] after some characters. *)
Fixpoint any_suffix (f : string -> bool) (s : string) : bool :=
  f s || match s with
         | EmptyString => false
         | String _ s' => any_suffix f s'
         end.

(** The shell reading of a glob without character set: [*] stands for any
    run of characters, [?] for one character, every other character for
    itself, and the whole name is to be used up. *)
Fixpoint wildcard (p s : string) : bool :=
  match p with
  | EmptyString => String.eqb s ""
  | String c p' =>
      if Ascii.eqb c "*" then any_suffix (wildcard p') s
      else match s with
           | EmptyString => false
           | String d s' => (Ascii.eqb c "?" || Ascii.eqb c d) && wildcard p' s'
           end
  end.

(** The name that a rule compares with: the basename for a pattern without
    slash, the path below the root otherwise. *)
Definition compared_name (root pattern full_path : string) : string :=
  if contains "/" pattern then drop (String.length root + 1) full_path
  else OsPath.basename full_path.

(** A pattern without its leading slash, if it has one. *)
Definition unanchored (pattern : string) : string :=
  if startswith pattern "/" then drop 1 pattern else pattern.

(** The rule [r] read from another line, for directories only. *)
Definition directories_only (pattern description : string) (r : IgnorePattern.t)
  : IgnorePattern.t :=
  {| IgnorePattern.root := IgnorePattern.root r;
     IgnorePattern.pattern := pattern;
     IgnorePattern.description := description;
     IgnorePattern.invalid := IgnorePattern.invalid r;
     IgnorePattern.applies_to_directories := true;
     IgnorePattern.match_basename := IgnorePattern.match_basename r;
     IgnorePattern.exact_match := IgnorePattern.exact_match r;
     IgnorePattern.regex := IgnorePattern.regex r |}.

(** Whether the path is a directory for [match]: what the caller says, or
    else what [os.path.isdir] says. *)
Definition is_directory (os : OS) (full_path : string) (is_dir : option bool) : bool :=
  match is_dir with
  | Some b => b
  | None => os_path_isdir os full_path
  end.

(** [rule.match(path, is_dir)] returns a true value. *)
Definition rule_matches (os : OS) (path : string) (is_dir : bool) (r : IgnorePattern.t)
  : bool :=
  match IgnorePattern.match_ os r path (Some is_dir) with
  | Ok true => true
  | _ => false
  end.

(** A line of the ignore file that is neither blank nor a comment. *)
Definition effective (line : string) : bool :=
  negb (String.eqb (strip line) "" || startswith (strip line) "#").

(** Where a rule says it comes from: the line [line_number] of the file
    [basename], with the text [pattern]. *)
Definition from_line (root basename : string) (line_number : nat) (pattern : string)
    (r : IgnorePattern.t) : Prop :=
  IgnorePattern.root r = root
  /\ IgnorePattern.pattern r = pattern
  /\ IgnorePattern.description r
     = (basename ++ ":" ++ pad2 (str_of_nat line_number) ++ ":" ++ pattern)%string.

(** A rule that compares the basename with [name], as the line [name] at
    [line_number] of the ignore file gives it. *)
Definition example_rule (name : string) (line_number : nat) : IgnorePattern.t :=
  {| IgnorePattern.root := "/srv/content";
     IgnorePattern.pattern := name;
     IgnorePattern.description :=
       (".contentignore:" ++ pad2 (str_of_nat line_number) ++ ":" ++ name)%string;
     IgnorePattern.invalid := None;
     IgnorePattern.applies_to_directories := false;
     IgnorePattern.match_basename := true;
     IgnorePattern.exact_match := Some name;
     IgnorePattern.regex := None |}.

Definition example_rule_set (rules : list IgnorePattern.t) : IgnoredFiles.t :=
  {| IgnoredFiles.root := "/srv/content"; IgnoredFiles.invalid := [];
     IgnoredFiles._regexes := rules; IgnoredFiles.basename := ".contentignore" |}.

(** All that a walk can meet in a tree, in the order in which the body of
    the walk sees it: for a directory its sub-directories, then its files,
    then what is below each sub-directory; each entry with the directories
    between the top and the entry, outermost first, and with whether it is
    a directory. *)
Fixpoint entries (top : string) (t : tree) : list (list string * string * bool) :=
  match t with
  | Dir dirs files =>
      map (fun d => ([], OsPath.join top d, true)) (map fst dirs)
      ++ map (fun f => ([], OsPath.join top f, false)) files
      ++ (fix descend (names : list string) : list (list string * string * bool) :=
            match names with
            | [] => []
            | name :: names' =>
                match
                  (fix find (l : list (string * tree))
                     : option (list (list string * string * bool)) :=
                     match l with
                     | [] => None
                     | (n, sub) :: l' =>
                         if String.eqb n name
                         then Some (entries (OsPath.join top name) sub)
                         else find l'
                     end) dirs
                with
                | None => descend names'
                | Some l =>
                    map (fun e => (OsPath.join top name :: fst (fst e), snd (fst e), snd e)) l
                    ++ descend names'
                end
            end) (map fst dirs)
  end.

(** The entries below the sub-directories named in [names]. *)
Fixpoint entries_names (top : string) (dirs : list (string * tree)) (names : list string)
  : list (list string * string * bool) :=
  match names with
  | [] => []
  | name :: names' =>
      match lookup name dirs with
      | None => entries_names top dirs names'
      | Some sub =>
          map (fun e => (OsPath.join top name :: fst (fst e), snd (fst e), snd e))
              (entries (OsPath.join top name) sub)
          ++ entries_names top dirs names'
      end
  end.

(** An entry is shown when it is ignored and lies below no directory that
    is ignored. *)
Definition shown (os : OS) (self : IgnoredFiles.t) (e : list string * string * bool) : bool :=
  forallb (fun d => negb (ignored os self d true)) (fst (fst e))
  && ignored os self (snd (fst e)) (snd e).

(** The line that tells about an ignored entry: the description of the
    rule that [match] returns, and the path below the root. *)
Definition line_of (os : OS) (self : IgnoredFiles.t) (e : list string * string * bool)
  : string :=
  match IgnoredFiles.match_ os self (snd (fst e)) (Some (snd e)) with
  | Ok (Some m) =>
      ShowIgnores.format (IgnorePattern.description m)
        (drop (String.length (IgnoredFiles.root self) + 1) (snd (fst e)))
  | _ => EmptyString
  end.

(** The patterns whose rule is valid and yet fails [assert self.regex] in
    [match]: those that leave an empty string to compare with. *)
Definition unusable_pattern (pattern : string) : bool :=
  String.eqb pattern "" || String.eqb pattern "/" || String.eqb pattern "//"
  || String.eqb pattern "//**".

(** A rule has something to match with: a non-empty exact string, or a
    regex. *)
Definition has_test (r : IgnorePattern.t) : bool :=
  truthy (IgnorePattern.exact_match r)
  || match IgnorePattern.regex r with Some _ => true | None => false end.

(** A line of the ignore file that [list_files] can live with: without
    character set, and not, once stripped, one of the unusable patterns
    that are not empty. *)
Definition safe_line (line : string) : bool :=
  negb (contains "[" line)
  && negb (String.eqb (strip line) "/" || String.eqb (strip line) "//"
           || String.eqb (strip line) "//**").

Set Implicit Arguments.

(** * Properties *)

Unset Implicit Arguments.

(** ** Strings *)

Section StringFacts.

Lemma length_append (a b : string) :
  String.length (a ++ b) = String.length a + String.length b.
Proof. induction a as [|c a IH]; simpl; [reflexivity | now rewrite IH]. Qed.

Lemma app_empty_r (a : string) : (a ++ "")%string = a.
Proof. induction a as [|c a IH]; simpl; [reflexivity | now rewrite IH]. Qed.

Lemma app_assoc_s (a b c : string) : ((a ++ b) ++ c = a ++ b ++ c)%string.
Proof. induction a as [|x a IH]; simpl; [reflexivity | now rewrite IH]. Qed.

Lemma take_app (a b : string) : take (String.length a) (a ++ b) = a.
Proof.
  induction a as [|c a IH]; simpl.
  - now destruct b.
  - now rewrite IH.
Qed.

Lemma drop_app (a b : string) : drop (String.length a) (a ++ b) = b.
Proof. induction a as [|c a IH]; simpl; [reflexivity | exact IH]. Qed.

Lemma drop_last_app (a b : string) : drop_last (String.length b) (a ++ b) = a.
Proof.
  unfold drop_last. rewrite length_append.
  replace (String.length a + String.length b - String.length b) with (String.length a) by lia.
  apply take_app.
Qed.

Lemma endswith_app (a b : string) : endswith (a ++ b) b = true.
Proof.
  induction a as [|c a IH]; simpl.
  - destruct b; simpl; [reflexivity|]. now rewrite Ascii.eqb_refl, String.eqb_refl.
  - rewrite IH. apply orb_true_r.
Qed.

(** A string that ends with [p] is some string followed by [p]. *)
Lemma endswith_inv (s p : string) : endswith s p = true -> exists a, s = (a ++ p)%string.
Proof.
  induction s as [|c s IH]; cbn [endswith]; intros H.
  - rewrite orb_false_r in H. apply String.eqb_eq in H. subst p. now exists "".
  - apply orb_true_iff in H. destruct H as [H|H].
    + apply String.eqb_eq in H. subst p. now exists "".
    + destruct (IH H) as [a ->]. now exists (String c a).
Qed.

Lemma prefix_cons (a b : ascii) (s1 s2 : string) :
  String.prefix (String a s1) (String b s2) = Ascii.eqb a b && String.prefix s1 s2.
Proof.
  cbn [String.prefix]. destruct (ascii_dec a b) as [->|ne].
  - now rewrite Ascii.eqb_refl.
  - apply Ascii.eqb_neq in ne. now rewrite ne.
Qed.

Lemma prefix_nil (s : string) : String.prefix "" s = true.
Proof. now destruct s. Qed.

Lemma prefix_head (c : ascii) (p s : string) :
  String.prefix (String c p) s = true -> exists s', s = String c s'.
Proof.
  destruct s as [|d s]; simpl; [discriminate|].
  destruct (ascii_dec c d) as [->|]; [|discriminate]. intros _. now exists s.
Qed.

(** A string that has [c :: p] as a substring has the character [c]. *)
Lemma contains_head (c : ascii) (p s : string) :
  contains (String c "") s = false -> contains (String c p) s = false.
Proof.
  induction s as [|d s IH].
  - intros _. reflexivity.
  - cbn [contains]. intros H. apply orb_false_iff in H. destruct H as [H1 H2].
    rewrite (IH H2), orb_false_r.
    simpl in *. destruct (ascii_dec c d); [|reflexivity].
    now destruct s.
Qed.

Lemma contains_false_prefix (c : ascii) (p s : string) :
  contains (String c "") s = false -> String.prefix (String c p) s = false.
Proof.
  destruct s as [|d s]; [reflexivity|].
  cbn [contains]. intros H. apply orb_false_iff in H. destruct H as [H _].
  simpl in *. destruct (ascii_dec c d); [|reflexivity]. now destruct s.
Qed.

Lemma contains_char_app (c : ascii) (a b : string) :
  contains (String c "") (a ++ b) = contains (String c "") a || contains (String c "") b.
Proof.
  induction a as [|d a IH].
  - simpl. destruct b; reflexivity.
  - cbn [append contains]. rewrite IH.
    assert (E : forall x, String.prefix (String c "") (String d x) = Ascii.eqb c d).
    { intros x. simpl. destruct (ascii_dec c d) as [->|n].
      - rewrite Ascii.eqb_refl. now destruct x.
      - symmetry. now apply Ascii.eqb_neq. }
    rewrite !E. now rewrite orb_assoc.
Qed.

Lemma prefix_inv (p s : string) :
  String.prefix p s = true -> exists b, s = (p ++ b)%string.
Proof.
  revert s. induction p as [|c p IH]; intros s H.
  - now exists s.
  - destruct s as [|d s]; [discriminate|].
    rewrite prefix_cons in H. apply andb_true_iff in H. destruct H as [E H].
    apply Ascii.eqb_eq in E. subst d. destruct (IH s H) as [b ->]. now exists b.
Qed.

Lemma contains_inv (p s : string) :
  contains p s = true -> exists a b, s = (a ++ p ++ b)%string.
Proof.
  induction s as [|c s IH]; cbn [contains]; intros H.
  - rewrite orb_false_r in H. destruct (prefix_inv _ _ H) as [b ->]. now exists "", b.
  - apply orb_true_iff in H. destruct H as [H|H].
    + destruct (prefix_inv _ _ H) as [b ->]. now exists "", b.
    + destruct (IH H) as (a & b & ->). now exists (String c a), b.
Qed.

(** A string without the character [c] has no substring with [c] in it. *)
Lemma contains_with_char (c : ascii) (a b s : string) :
  contains (String c "") s = false -> contains (a ++ String c b) s = false.
Proof.
  intros H. destruct (contains (a ++ String c b) s) eqn:E; [|reflexivity].
  destruct (contains_inv _ _ E) as (x & y & ->).
  rewrite !contains_char_app in H.
  change (String c b) with (String c "" ++ b)%string in H.
  rewrite !contains_char_app in H.
  cbn [contains] in H. rewrite prefix_cons, Ascii.eqb_refl in H. cbn in H.
  now rewrite !orb_true_r in H.
Qed.

Lemma contains_char_take (c : ascii) (n : nat) (s : string) :
  contains (String c "") s = false -> contains (String c "") (take n s) = false.
Proof.
  revert n. induction s as [|d s IH]; intros n H.
  - now destruct n.
  - destruct n as [|n]; [reflexivity|].
    cbn [take contains] in *. apply orb_false_iff in H. destruct H as [H1 H2].
    rewrite (IH n H2), orb_false_r. rewrite prefix_cons in *.
    rewrite prefix_nil in *. exact H1.
Qed.

Lemma contains_char_drop (c : ascii) (n : nat) (s : string) :
  contains (String c "") s = false -> contains (String c "") (drop n s) = false.
Proof.
  revert n. induction s as [|d s IH]; intros n H.
  - now destruct n.
  - destruct n as [|n]; [exact H|].
    cbn [drop]. apply IH. cbn [contains] in H. now apply orb_false_iff in H.
Qed.

Lemma endswith_with_char (c : ascii) (a b s : string) :
  contains (String c "") s = false -> endswith s (a ++ String c b) = false.
Proof.
  intros H. destruct (endswith s (a ++ String c b)) eqn:E; [|reflexivity].
  destruct (endswith_inv _ _ E) as [x ->].
  rewrite !contains_char_app in H.
  change (String c b) with (String c "" ++ b)%string in H.
  rewrite !contains_char_app in H.
  cbn [contains] in H. rewrite prefix_cons, Ascii.eqb_refl in H. cbn in H.
  now rewrite !orb_true_r in H.
Qed.

End StringFacts.

(** ** [os.path] *)

Section PathFacts.

Lemma basename_no_slash (n : string) :
  contains "/" n = false -> OsPath.basename n = n.
Proof.
  destruct n as [|c n]; [reflexivity|].
  cbn [contains OsPath.basename]. intros H.
  apply orb_false_iff in H. destruct H as [H1 H2]. rewrite H2.
  simpl in H1. destruct (ascii_dec "/" c) as [<-|ne].
  - now destruct n.
  - apply not_eq_sym in ne. apply Ascii.eqb_neq in ne. now rewrite ne.
Qed.

Lemma basename_app_slash (p n : string) :
  contains "/" n = false -> OsPath.basename (p ++ String "/" n) = n.
Proof.
  intros H. induction p as [|c p IH].
  - simpl. cbn [append]. now rewrite H.
  - cbn [append OsPath.basename].
    replace (contains "/" (p ++ String "/" n)) with true; [exact IH|].
    symmetry. change (String "/" n) with ("/" ++ n)%string.
    rewrite contains_char_app, contains_char_app. simpl. now rewrite orb_true_r.
Qed.

(** The last component of a joined path is the joined name. *)
Lemma basename_join (p n : string) :
  contains "/" n = false -> OsPath.basename (OsPath.join p n) = n.
Proof.
  intros H. unfold OsPath.join.
  replace (startswith n "/") with false
    by (symmetry; now apply contains_false_prefix).
  destruct (String.eqb_spec p "") as [->|ne]; simpl.
  - now apply basename_no_slash.
  - destruct (endswith p "/") eqn:E.
    + apply endswith_inv in E. destruct E as [a ->].
      rewrite app_assoc_s. now apply basename_app_slash.
    + now apply basename_app_slash.
Qed.

End PathFacts.

(** ** Matching of regular expressions *)

Section RegexFacts.

Local Open Scope string_scope.

Lemma app_nil_inv (a b : string) : a ++ b = "" -> a = "" /\ b = "".
Proof. destruct a; [now split | discriminate]. Qed.

Lemma Matches_cat_inv (r1 r2 : Re.regex) (at_end : bool) (w : string) :
  Matches at_end (RCat r1 r2) w ->
  exists w1 w2,
    w = w1 ++ w2
    /\ Matches (at_end && String.eqb w2 "") r1 w1
    /\ Matches at_end r2 w2.
Proof. intros H. inversion H; subst. eauto. Qed.

(** [nullable] decides the match of the empty word. *)
Lemma nullable_spec (r : Re.regex) (at_end : bool) :
  nullable at_end r = true <-> Matches at_end r "".
Proof.
  revert at_end. induction r; intros at_end; cbn [nullable]; split; intros H;
    try discriminate; try reflexivity; try (now constructor).
  - inversion H.
  - inversion H.
  - inversion H.
  - inversion H.
  - subst at_end. constructor.
  - now inversion H.
  - apply andb_true_iff in H. destruct H as [H1 H2].
    change "" with ("" ++ "").
    constructor; [apply IHr1; now rewrite andb_true_r | now apply IHr2].
  - destruct (Matches_cat_inv _ _ _ _ H) as (w1 & w2 & E & M1 & M2).
    symmetry in E. apply app_nil_inv in E. destruct E as [-> ->].
    cbn in M1. rewrite andb_true_r in M1.
    apply andb_true_iff. split; [now apply IHr1 | now apply IHr2].
  - apply orb_true_iff in H. destruct H as [H|H].
    + apply MAltL. now apply IHr1.
    + apply MAltR. now apply IHr2.
  - apply orb_true_iff. inversion H; subst; [left; now apply IHr1 | right; now apply IHr2].
  - apply MGroup. now apply IHr.
  - inversion H; subst. now apply IHr.
Qed.

(** A match with the subject going on is a match with the subject ending. *)
Lemma Matches_at_end (r : Re.regex) (w : string) (at_end : bool) :
  Matches at_end r w -> Matches true r w.
Proof.
  intros H. induction H; try (now constructor).
  - constructor; [|assumption].
    destruct (String.eqb w2 ""); [assumption|].
    cbn [andb]. now rewrite andb_false_r in H.
  - apply MStarApp; [|assumption].
    destruct (String.eqb w2 ""); [assumption|].
    cbn [andb]. now rewrite andb_false_r in H.
Qed.

Lemma Matches_flag (r : Re.regex) (w : string) (a b : bool) :
  Matches a r w -> (a = true -> b = true) -> Matches b r w.
Proof.
  intros H I. destruct a.
  - now rewrite (I eq_refl).
  - destruct b; [now apply Matches_at_end with false | assumption].
Qed.

(** A repetition that matches a word starting with [c]: a first piece that
    starts with [c], then the repetition again. *)
Lemma Matches_star_cons (r : Re.regex) (at_end : bool) (c : ascii) (w : string) :
  Matches at_end (RStar r) (String c w) ->
  exists w1 w2,
    w = w1 ++ w2
    /\ Matches (at_end && String.eqb w2 "") r (String c w1)
    /\ Matches at_end (RStar r) w2.
Proof.
  intros H. remember (RStar r) as s eqn:Es. remember (String c w) as cw eqn:Ew.
  induction H; try discriminate.
  injection Es as ->. destruct w1 as [|d w1].
  - cbn in Ew. now apply IHMatches2.
  - cbn in Ew. injection Ew as -> <-. now exists w1, w2.
Qed.

(** [deriv c r] matches what [r] matches after a [c]. *)
Lemma deriv_spec (r : Re.regex) (c : ascii) :
  forall (w : string) (at_end : bool),
    Matches at_end (deriv c r) w <-> Matches at_end r (String c w).
Proof.
  induction r; intros w at_end; cbn [deriv]; split; intros H.
  - inversion H.
  - inversion H.
  - inversion H.
  - inversion H.
  - destruct (Ascii.eqb_spec c0 c) as [->|ne]; inversion H. constructor.
  - inversion H; subst. rewrite Ascii.eqb_refl. constructor.
  - destruct (dotall || negb (Ascii.eqb c (chr 10))) eqn:E; inversion H. now constructor.
  - inversion H as [| |e d c' E| | | | | | | | | |]; subst. rewrite E. constructor.
  - destruct (xorb negate (existsb (in_item c) items)) eqn:E; inversion H. now constructor.
  - inversion H as [| | |e n i c' E| | | | | | | | |]; subst. rewrite E. constructor.
  - inversion H.
  - inversion H.
  - (* RCat, from the derivative *)
    assert (L : forall w,
               Matches at_end (RCat (deriv c r1) r2) w ->
               Matches at_end (RCat r1 r2) (String c w)).
    { intros w' M. destruct (Matches_cat_inv _ _ _ _ M) as (w1 & w2 & -> & M1 & M2).
      change (String c (w1 ++ w2)) with (String c w1 ++ w2).
      constructor; [now apply IHr1 | assumption]. }
    destruct (nullable false r1) eqn:N.
    + inversion H; subst; [now apply L|].
      change (String c w) with ("" ++ String c w).
      constructor; [|now apply IHr2].
      cbn. rewrite andb_false_r. now apply nullable_spec.
    + now apply L.
  - (* RCat, to the derivative *)
    destruct (Matches_cat_inv _ _ _ _ H) as (w1 & w2 & Ew & M1 & M2).
    destruct w1 as [|d w1].
    + cbn in Ew. subst w2. cbn in M1. rewrite andb_false_r in M1.
      apply nullable_spec in M1. rewrite M1. apply MAltR. now apply IHr2.
    + cbn in Ew. injection Ew as <- ->.
      assert (M : Matches at_end (RCat (deriv c r1) r2) (w1 ++ w2))
        by (constructor; [now apply IHr1 | assumption]).
      destruct (nullable false r1); [now apply MAltL | assumption].
  - inversion H; subst; [apply MAltL; now apply IHr1 | apply MAltR; now apply IHr2].
  - inversion H; subst; [apply MAltL; now apply IHr1 | apply MAltR; now apply IHr2].
  - destruct (Matches_cat_inv _ _ _ _ H) as (w1 & w2 & -> & M1 & M2).
    change (String c (w1 ++ w2)) with (String c w1 ++ w2).
    apply MStarApp; [now apply IHr | assumption].
  - destruct (Matches_star_cons _ _ _ _ H) as (w1 & w2 & -> & M1 & M2).
    constructor; [now apply IHr | assumption].
  - apply MOptOne. now apply IHr.
  - inversion H; subst. now apply IHr.
  - apply MGroup. now apply IHr.
  - inversion H; subst. now apply IHr.
Qed.

(** [regex.match] finds a match exactly when some prefix of the subject
    matches, [\Z] holding only where the subject ends. *)
Theorem re_match_spec (s : string) (r : Re.regex) :
  re_match r s = true <->
  exists w rest, s = w ++ rest /\ Matches (String.eqb rest "") r w.
Proof.
  revert r. induction s as [|c s IH]; intros r; cbn [re_match].
  - rewrite nullable_spec. split.
    + intros H. now exists "", "".
    + intros (w & rest & E & M). symmetry in E. apply app_nil_inv in E.
      destruct E as [-> ->]. exact M.
  - rewrite orb_true_iff, nullable_spec, IH. split.
    + intros [H|(w & rest & -> & M)].
      * now exists "", (String c s).
      * exists (String c w), rest. split; [reflexivity | now apply deriv_spec].
    + intros (w & rest & E & M). destruct w as [|d w].
      * cbn in E. subst rest. now left.
      * cbn in E. injection E as <- ->. right. exists w, rest.
        split; [reflexivity | now apply deriv_spec].
Qed.

End RegexFacts.

(** ** Compiling an escaped string *)

Section EscapeFacts.

Local Open Scope string_scope.

(** One escaped character is read back as that character. *)
Lemma parse_seq_escape_char (c : ascii) (f : nat) (dotall : bool) (acc : list Re.regex)
    (rest : string) (pos : nat) :
  parse_seq (S f) dotall acc (escape_char c ++ rest) pos
  = parse_seq f dotall (RLit c :: acc) rest (String.length (escape_char c) + pos).
Proof.
  destruct c as [[] [] [] [] [] [] [] []]; reflexivity.
Qed.

Lemma parse_seq_escaped (p : string) :
  forall (f : nat) (dotall : bool) (acc : list Re.regex) (rest : string) (pos : nat),
    parse_seq (String.length p + f) dotall acc (re_escape p ++ rest) pos
    = parse_seq f dotall (literals p acc) rest (String.length (re_escape p) + pos).
Proof.
  induction p as [|c p IH]; intros f dotall acc rest pos.
  - reflexivity.
  - cbn [re_escape String.length Nat.add literals]. rewrite app_assoc_s.
    rewrite parse_seq_escape_char, IH, length_append. f_equal. lia.
Qed.

Lemma length_re_escape (p : string) : String.length p <= String.length (re_escape p).
Proof.
  induction p as [|c p IH]; [reflexivity|].
  cbn [re_escape]. rewrite length_append. cbn [String.length].
  assert (1 <= String.length (escape_char c)).
  { unfold escape_char. destruct (_ || _); [cbn; lia|].
    destruct (Ascii.eqb c (chr 0)); cbn; lia. }
  lia.
Qed.

(** The regex of a leading double star: anything but newlines, then a slash
    and the escaped rest, read back literally. *)
Lemma re_compile_any_slash (p : string) :
  re_compile (".*/" ++ re_escape p)
  = Ok (seq_of (literals (String "/" p) [RStar (RAny false)])).
Proof.
  unfold re_compile.
  assert (L := length_re_escape p).
  remember (2 * String.length (".*/" ++ re_escape p) + 4 - (String.length p + 5)) as k eqn:Ek.
  replace (2 * String.length (".*/" ++ re_escape p) + 4)
    with (S (S (S (S (String.length p + S k)))))
    by (rewrite length_append in *; cbn [String.length] in *; lia).
  cbn [parse_alt]. cbn [append parse_seq Ascii.eqb Bool.eqb orb repeat_last bind skip_lazy].
  change (String "/" (re_escape p)) with (re_escape (String "/" p)).
  cbn [re_escape escape_char]. cbn.
  rewrite <- (app_empty_r (re_escape p)).
  rewrite parse_seq_escaped. cbn [parse_seq bind]. reflexivity.
Qed.

Lemma skip_lazy_escaped (p : string) (pos : nat) :
  skip_lazy (re_escape p) pos = (re_escape p, pos).
Proof.
  destruct p as [|c p]; [reflexivity|].
  destruct c as [[] [] [] [] [] [] [] []]; reflexivity.
Qed.

Lemma parse_alt_group_body (f : nat) (rest : string) (pos : nat) :
  parse_alt (9 + f) false ("/.*/|/)?" ++ rest) pos
  = Ok (RAlt (seq_of [RLit "/"; RStar (RAny false); RLit "/"]) (RLit "/"),
        ")?" ++ rest, 6 + pos).
Proof. reflexivity. Qed.

Lemma parse_seq_open (f : nat) (dotall : bool) (acc : list Re.regex) (rest : string) (pos : nat) :
  parse_seq (S f) dotall acc (String "(" (String "/" rest)) pos
  = ('(r, s1, p1) <- parse_alt f dotall (String "/" rest) (1 + pos) ;;
     match s1 with
     | String ")" s2 => parse_seq f dotall (RGroup r :: acc) s2 (1 + p1)
     | _ => Raise (re_error "missing ), unterminated subpattern" pos)
     end).
Proof. reflexivity. Qed.

Lemma parse_seq_optional (f : nat) (dotall : bool) (r : Re.regex) (acc : list Re.regex)
    (rest : string) (pos : nat) :
  parse_seq (S f) dotall (RGroup r :: acc) (String "?" rest) pos
  = (let (s1, p1) := skip_lazy rest (1 + pos) in
     parse_seq f dotall (ROpt (RGroup r) :: acc) s1 p1).
Proof. reflexivity. Qed.

Lemma parse_seq_group (f : nat) (acc : list Re.regex) (second : string) (pos : nat) :
  parse_seq (S (9 + f)) false acc ("(/.*/|/)?" ++ re_escape second) pos
  = parse_seq (8 + f) false (middle_group :: acc) (re_escape second) (9 + pos).
Proof.
  change ("(/.*/|/)?" ++ re_escape second)
    with (String "(" (String "/" (".*/|/)?" ++ re_escape second))).
  rewrite parse_seq_open.
  change (String "/" (".*/|/)?" ++ re_escape second))
    with ("/.*/|/)?" ++ re_escape second).
  rewrite parse_alt_group_body. cbn [bind append].
  change (9 + f) with (S (8 + f)).
  rewrite parse_seq_optional, skip_lazy_escaped. reflexivity.
Qed.

(** The regex of a middle double star: the escaped parts are read back
    literally around the optional group. *)
Lemma re_compile_middle (first second : string) :
  re_compile (re_escape first ++ "(/.*/|/)?" ++ re_escape second)
  = Ok (seq_of (literals second (middle_group :: literals first []))).
Proof.
  unfold re_compile.
  assert (L1 := length_re_escape first). assert (L2 := length_re_escape second).
  remember (2 * String.length (re_escape first ++ "(/.*/|/)?" ++ re_escape second) + 4
            - (String.length first + String.length second + 12)) as k eqn:Ek.
  replace (2 * String.length (re_escape first ++ "(/.*/|/)?" ++ re_escape second) + 4)
    with (S (String.length first + S (9 + (String.length second + S k)))).
  2:{ rewrite !length_append in Ek. rewrite !length_append. cbn [String.length] in *. lia. }
  cbn [parse_alt]. rewrite parse_seq_escaped, parse_seq_group.
  replace (8 + (String.length second + S k)) with (String.length second + S (8 + k)) by lia.
  rewrite <- (app_empty_r (re_escape second)).
  rewrite parse_seq_escaped. reflexivity.
Qed.

Lemma contains_cons_inv (c d : ascii) (p : string) :
  contains (String c "") (String d p) = false ->
  Ascii.eqb d c = false /\ contains (String c "") p = false.
Proof.
  cbn [contains]. rewrite prefix_cons, prefix_nil, andb_true_r.
  intros H. apply orb_false_iff in H. destruct H as [H1 H2].
  split; [now rewrite Ascii.eqb_sym | exact H2].
Qed.

Lemma translate_from_cons (c : ascii) (p : string) :
  Ascii.eqb c "[" = false ->
  translate_from 0 (String c p)
  = (if Ascii.eqb c "*" then ".*" else if Ascii.eqb c "?" then "." else escape_char c)
    ++ translate_from 0 p.
Proof.
  intros H. cbn [translate_from]. rewrite H.
  destruct (Ascii.eqb c "*"); [reflexivity|]. now destruct (Ascii.eqb c "?").
Qed.

Lemma skip_lazy_translated (p cont : string) :
  contains "[" p = false ->
  (forall q, skip_lazy cont q = (cont, q)) ->
  forall q, skip_lazy (translate_from 0 p ++ cont) q = (translate_from 0 p ++ cont, q).
Proof.
  intros B C q. destruct p as [|c p]; [apply C|].
  apply contains_cons_inv in B. destruct B as [B _].
  rewrite (translate_from_cons c p B).
  destruct c as [[] [] [] [] [] [] [] []]; try reflexivity; discriminate B.
Qed.

Lemma parse_seq_dot (f : nat) (d : bool) (acc : list Re.regex) (rest : string) (pos : nat) :
  parse_seq (S f) d acc (String "." rest) pos = parse_seq f d (RAny d :: acc) rest (1 + pos).
Proof. reflexivity. Qed.

Lemma parse_seq_star_any (f : nat) (d d' : bool) (acc : list Re.regex) (rest : string)
    (pos : nat) :
  parse_seq (S f) d (RAny d' :: acc) (String "*" rest) pos
  = (let (s1, p1) := skip_lazy rest (1 + pos) in
     parse_seq f d (RStar (RAny d') :: acc) s1 p1).
Proof. reflexivity. Qed.

Lemma parse_seq_translated (p : string) :
  contains "[" p = false ->
  forall (f : nat) (acc : list Re.regex) (cont : string) (pos : nat),
    (forall q, skip_lazy cont q = (cont, q)) ->
    parse_seq (glob_steps p + f) true acc (translate_from 0 p ++ cont) pos
    = parse_seq f true (glob_items p acc) cont (String.length (translate_from 0 p) + pos).
Proof.
  induction p as [|c p IH]; intros B f acc cont pos C; [reflexivity|].
  apply contains_cons_inv in B. destruct B as [B1 B2].
  rewrite (translate_from_cons c p B1). cbn [glob_steps glob_items]. unfold glob_item.
  destruct (Ascii.eqb_spec c "*") as [->|N1].
  - cbn [Nat.add append]. rewrite parse_seq_dot, parse_seq_star_any.
    rewrite (skip_lazy_translated p cont B2 C). rewrite (IH B2 _ _ _ _ C).
    f_equal. cbn [String.length]. lia.
  - destruct (Ascii.eqb_spec c "?") as [->|N2].
    + cbn [Nat.add append]. rewrite parse_seq_dot, (IH B2 _ _ _ _ C).
      f_equal. cbn [String.length]. lia.
    + cbn [Nat.add]. rewrite app_assoc_s, parse_seq_escape_char, (IH B2 _ _ _ _ C).
      rewrite length_append. f_equal. lia.
Qed.

Lemma glob_steps_length (p : string) :
  contains "[" p = false -> glob_steps p <= String.length (translate_from 0 p).
Proof.
  induction p as [|c p IH]; intros B; [reflexivity|].
  apply contains_cons_inv in B. destruct B as [B1 B2].
  rewrite (translate_from_cons c p B1), length_append. cbn [glob_steps].
  specialize (IH B2).
  destruct (Ascii.eqb c "*"); [cbn; lia|].
  destruct (Ascii.eqb c "?"); [cbn; lia|].
  assert (1 <= String.length (escape_char c)).
  { unfold escape_char. destruct (_ || _); [cbn; lia|].
    destruct (Ascii.eqb c (chr 0)); cbn; lia. }
  lia.
Qed.

Lemma parse_alt_unfold (f : nat) (d : bool) (s : string) (pos : nat) :
  parse_alt (S f) d s pos
  = ('(acc, s1, p1) <- parse_seq f d [] s pos ;;
     match s1 with
     | String "|" s2 =>
         '(r2, s3, p3) <- parse_alt f d s2 (1 + p1) ;;
         Ok (RAlt (seq_of acc) r2, s3, p3)
     | _ => Ok (seq_of acc, s1, p1)
     end).
Proof. reflexivity. Qed.

Lemma parse_seq_open_dotall (f : nat) (d : bool) (acc : list Re.regex) (rest : string)
    (pos : nat) :
  parse_seq (S f) d acc ("(?s:" ++ rest) pos
  = ('(r, s1, p1) <- parse_alt f true rest (4 + pos) ;;
     match s1 with
     | String ")" s2 => parse_seq f d (RGroup r :: acc) s2 (1 + p1)
     | _ => Raise (re_error "missing ), unterminated subpattern" pos)
     end).
Proof. reflexivity. Qed.

Lemma parse_seq_close (f : nat) (d : bool) (acc : list Re.regex) (rest : string) (pos : nat) :
  parse_seq (S f) d acc (String ")" rest) pos = Ok (acc, String ")" rest, pos).
Proof. reflexivity. Qed.

Lemma parse_seq_end_of_string (f : nat) (d : bool) (acc : list Re.regex) (pos : nat) :
  parse_seq (S (S f)) d acc "\Z" pos = Ok (RAtEndString :: acc, "", 2 + pos).
Proof. reflexivity. Qed.

(** The translation of a glob without character set always compiles. *)
Lemma re_compile_translated (p : string) :
  contains "[" p = false ->
  re_compile (fnmatch_translate p)
  = Ok (RCat (RGroup (seq_of (glob_items p []))) RAtEndString).
Proof.
  intros B. unfold re_compile, fnmatch_translate.
  assert (L := glob_steps_length p B).
  remember (2 * String.length ("(?s:" ++ translate_from 0 p ++ ")\Z") + 4
            - (glob_steps p + 5)) as k eqn:Ek.
  replace (2 * String.length ("(?s:" ++ translate_from 0 p ++ ")\Z") + 4)
    with (S (S (S (glob_steps p + S (S k))))).
  2:{ rewrite !length_append in Ek. rewrite !length_append. cbn [String.length] in *. lia. }
  rewrite parse_alt_unfold, parse_seq_open_dotall, parse_alt_unfold.
  rewrite (parse_seq_translated p B) by reflexivity.
  rewrite parse_seq_close. cbn [bind].
  replace (glob_steps p + S (S k)) with (S (glob_steps p + S k)) by lia.
  rewrite parse_seq_end_of_string. reflexivity.
Qed.

(** A sequence that ends with the literal characters of [p] matches the
    words that end with [p]. *)
Lemma Matches_literals (p : string) :
  forall (acc : list Re.regex) (at_end : bool) (w : string),
    acc <> [] ->
    (Matches at_end (seq_of (literals p acc)) w <->
     exists w0, w = w0 ++ p /\ Matches (at_end && String.eqb p "") (seq_of acc) w0).
Proof.
  induction p as [|c p IH]; intros acc at_end w N; cbn [literals].
  - cbn. rewrite andb_true_r. split.
    + intros H. exists w. now rewrite app_empty_r.
    + intros (w0 & -> & H). now rewrite app_empty_r.
  - rewrite IH by discriminate.
    assert (S : seq_of (RLit c :: acc) = RCat (seq_of acc) (RLit c)).
    { destruct acc; [contradiction | reflexivity]. }
    rewrite S. cbn [String.eqb]. rewrite andb_false_r. split.
    + intros (w0 & -> & H).
      destruct (Matches_cat_inv _ _ _ _ H) as (w1 & w2 & -> & M1 & M2).
      inversion M2; subst. exists w1. split.
      * now rewrite app_assoc_s.
      * cbn in M1. now rewrite andb_false_r in M1.
    + intros (w0 & -> & H). exists (w0 ++ String c ""). split.
      * now rewrite app_assoc_s.
      * constructor; [|constructor]. cbn. now rewrite andb_false_r.
Qed.

(** [.*] without the DOTALL flag matches the words without a newline. *)
Lemma Matches_any_star (at_end : bool) (w : string) :
  Matches at_end (RStar (RAny false)) w <-> contains (String (chr 10) "") w = false.
Proof.
  split.
  - intros H. remember (RStar (RAny false)) as r eqn:Er.
    induction H; try discriminate.
    + reflexivity.
    + injection Er as ->. rewrite contains_char_app, IHMatches2 by reflexivity.
      rewrite orb_false_r. inversion H as [| |e d c E| | | | | | | | | |]; subst.
      cbn [orb] in E. apply negb_true_iff in E.
      cbn [contains]. rewrite prefix_cons, prefix_nil, andb_true_r, orb_false_r.
      now rewrite Ascii.eqb_sym.
  - revert at_end. induction w as [|c w IH]; intros at_end H; [constructor|].
    cbn [contains] in H. apply orb_false_iff in H. destruct H as [H1 H2].
    rewrite prefix_cons, prefix_nil, andb_true_r in H1.
    change (String c w) with (String c "" ++ w).
    apply MStarApp; [|now apply IH].
    constructor. cbn [orb]. apply negb_true_iff. now rewrite Ascii.eqb_sym.
Qed.

(** What the regex of a leading double star accepts from [regex.match]: a
    name that has, after a part without newline, a slash and [p]; anything
    may follow. *)
Lemma re_match_any_slash (p name : string) :
  re_match (seq_of (literals (String "/" p) [RStar (RAny false)])) name = true <->
  exists before after,
    name = before ++ String "/" p ++ after
    /\ contains (String (chr 10) "") before = false.
Proof.
  rewrite re_match_spec. split.
  - intros (w & rest & -> & M).
    apply Matches_literals in M; [|discriminate].
    destruct M as (w0 & -> & M). cbn [seq_of] in M. apply Matches_any_star in M.
    exists w0, rest. split; [|exact M]. now rewrite app_assoc_s.
  - intros (before & after & -> & N).
    exists (before ++ String "/" p), after. split; [now rewrite app_assoc_s|].
    apply Matches_literals; [discriminate|].
    exists before. split; [reflexivity|]. cbn [seq_of]. now apply Matches_any_star.
Qed.

Lemma literals_not_nil (p : string) (acc : list Re.regex) :
  acc <> [] -> literals p acc <> [].
Proof.
  revert acc. induction p as [|c p IH]; intros acc N; [exact N|].
  cbn [literals]. apply IH. discriminate.
Qed.

Lemma seq_of_cons (r : Re.regex) (acc : list Re.regex) :
  acc <> [] -> seq_of (r :: acc) = RCat (seq_of acc) r.
Proof. destruct acc; [contradiction | reflexivity]. Qed.

(** A sequence of literal characters matches that word and no other. *)
Lemma Matches_only_literals (p : string) (at_end : bool) (w : string) :
  Matches at_end (seq_of (literals p [])) w <-> w = p.
Proof.
  destruct p as [|c p]; cbn [literals].
  - cbn. split; [intros H; now inversion H | intros ->; constructor].
  - rewrite Matches_literals by discriminate. cbn [seq_of]. split.
    + intros (w0 & -> & H). inversion H; subst. reflexivity.
    + intros ->. exists (String c ""). split; [reflexivity | constructor].
Qed.

(** The optional group stands for nothing, for one slash, or for a part
    without newline between two slashes. *)
Lemma Matches_middle_group (at_end : bool) (w : string) :
  Matches at_end middle_group w <->
  w = "" \/ w = "/"
  \/ exists x, w = String "/" (x ++ "/") /\ contains (String (chr 10) "") x = false.
Proof.
  unfold middle_group. split.
  - intros H. inversion H as [| | | | | | | | | |e r|e r w' M|]; subst; [now left|].
    right. inversion M as [| | | | | | | | | | | |e r w' M']; subst.
    inversion M' as [| | | | | |e r1 r2 w' A|e r1 r2 w' A| | | | |]; subst.
    + right. cbn [seq_of] in A.
      destruct (Matches_cat_inv _ _ _ _ A) as (w1 & w2 & -> & A1 & A2).
      destruct (Matches_cat_inv _ _ _ _ A1) as (w3 & w4 & -> & A3 & A4).
      inversion A2; subst. inversion A3; subst. apply Matches_any_star in A4.
      exists w4. split; [reflexivity | exact A4].
    + left. now inversion A.
  - intros [->|[->|(x & -> & N)]].
    + constructor.
    + apply MOptOne, MGroup, MAltR. constructor.
    + apply MOptOne, MGroup, MAltL. cbn [seq_of].
      change (String "/" (x ++ "/")) with ((String "/" "" ++ x) ++ "/").
      constructor; [|constructor].
      constructor; [constructor | now apply Matches_any_star].
Qed.

(** What the regex of a middle double star accepts from [regex.match]: a
    name that starts with the first part, then nothing, a slash, or a part
    without newline between two slashes, then the second part; anything may
    follow. *)
Lemma re_match_middle (first second name : string) :
  re_match (seq_of (literals second (middle_group :: literals first []))) name = true <->
  exists mid after,
    name = first ++ mid ++ second ++ after
    /\ (mid = "" \/ mid = "/"
        \/ exists x, mid = String "/" (x ++ "/") /\ contains (String (chr 10) "") x = false).
Proof.
  rewrite re_match_spec.
  assert (G : forall e w,
             Matches e (seq_of (middle_group :: literals first [])) w <->
             exists mid, w = first ++ mid /\ Matches e middle_group mid).
  { intros e w. destruct first as [|c f].
    - cbn [literals seq_of]. split.
      + intros H. now exists w.
      + intros (mid & E & H). cbn in E. now subst w.
    - cbn [literals].
      rewrite seq_of_cons by (apply literals_not_nil; discriminate). split.
      + intros H. destruct (Matches_cat_inv _ _ _ _ H) as (w1 & w2 & -> & M1 & M2).
        change (literals f [RLit c]) with (literals (String c f) []) in M1.
        apply Matches_only_literals in M1. subst w1. now exists w2.
      + intros (mid & -> & H). constructor; [|exact H].
        change (literals f [RLit c]) with (literals (String c f) []).
        now apply Matches_only_literals. }
  split.
  - intros (w & rest & -> & M).
    apply Matches_literals in M; [|discriminate].
    destruct M as (w0 & -> & M). apply G in M. destruct M as (mid & -> & M).
    apply Matches_middle_group in M.
    exists mid, rest. split; [now rewrite !app_assoc_s | exact M].
  - intros (mid & after & -> & M).
    exists (first ++ mid ++ second), after. split; [now rewrite !app_assoc_s|].
    apply Matches_literals; [discriminate|].
    exists (first ++ mid). split; [now rewrite !app_assoc_s|].
    apply G. exists mid. split; [reflexivity|]. now apply Matches_middle_group.
Qed.

End EscapeFacts.

(** ** Compiling one pattern *)

Section PatternFacts.

Lemma app_not_empty (a b : string) : b <> "" -> String.eqb (a ++ b) "" = false.
Proof. intros H. destruct a; [now apply String.eqb_neq | reflexivity]. Qed.

Lemma not_endswith_slash (name : string) : endswith (name ++ "/**") "/" = false.
Proof.
  induction name as [|c name IH]; [reflexivity|].
  cbn [append endswith]. rewrite IH, orb_false_r.
  cbn [String.eqb]. rewrite app_not_empty by discriminate. now destruct (Ascii.eqb c "/").
Qed.

Lemma has_glob_inv (s : string) :
  IgnorePattern._has_glob s = false ->
  contains "*" s = false /\ contains "?" s = false.
Proof. unfold IgnorePattern._has_glob. intros H. now apply orb_false_iff in H. Qed.

Lemma no_star_prefix (name rest : string) :
  name <> "" -> contains "*" name = false ->
  String.prefix "**/" (name ++ rest) = false.
Proof.
  intros Hne H. destruct name as [|c name]; [contradiction|].
  cbn [contains] in H. apply orb_false_iff in H. destruct H as [H _].
  cbn [append]. rewrite prefix_cons in *. rewrite prefix_nil, andb_true_r in H.
  now rewrite H.
Qed.

(** The rule compiled from [name/**], for a name without wildcard or slash. *)
Lemma init_trailing_double_star (root name basename : string) (line_number : nat) :
  name <> "" ->
  IgnorePattern._has_glob name = false ->
  contains "/" name = false ->
  IgnorePattern.init root (name ++ "/**") basename line_number =
  Ok {| IgnorePattern.root := root;
        IgnorePattern.pattern := name ++ "/**";
        IgnorePattern.description :=
          basename ++ ":" ++ pad2 (str_of_nat line_number) ++ ":" ++ name ++ "/**";
        IgnorePattern.invalid := None;
        IgnorePattern.applies_to_directories := true;
        IgnorePattern.match_basename := true;
        IgnorePattern.exact_match := Some name;
        IgnorePattern.regex := None |}.
Proof.
  intros Hne Hglob Hslash.
  destruct (has_glob_inv _ Hglob) as [Hstar Hq].
  unfold IgnorePattern.init.
  rewrite not_endswith_slash. cbn [andb].
  unfold startswith. rewrite (no_star_prefix _ _ Hne Hstar).
  rewrite endswith_app.
  unfold IgnorePattern.init_trailing.
  change 3 with (String.length "/**"). rewrite drop_last_app.
  rewrite Hglob.
  replace (String.eqb name "") with false by (symmetry; now apply String.eqb_neq).
  unfold IgnorePattern.init_rest.
  rewrite (contains_head _ _ _ Hslash), (contains_head _ _ _ Hstar).
  unfold startswith. rewrite (contains_false_prefix _ _ _ Hslash).
  rewrite Hslash. cbn [negb]. rewrite Hglob. reflexivity.
Qed.

(** C10. For a pattern [<name>/**] whose name is not empty and has neither
    a wildcard nor a slash, the compiled rule is valid, applies to
    directories only and compares the basename with [<name>] for equality:
    as a directory a path matches exactly when its basename is the name, so
    the directory [<name>] matches under any parent; as a file no path
    matches. *)
Theorem trailing_double_star_is_directory_basename_rule
    (os : OS) (root name basename : string) (line_number : nat) :
  name <> "" ->
  IgnorePattern._has_glob name = false ->
  contains "/" name = false ->
  exists r,
    IgnorePattern.init root (name ++ "/**") basename line_number = Ok r
    /\ IgnorePattern.invalid r = None
    /\ IgnorePattern.applies_to_directories r = true
    /\ IgnorePattern.match_basename r = true
    /\ IgnorePattern.exact_match r = Some name
    /\ IgnorePattern.regex r = None
    /\ (forall full_path,
           IgnorePattern.match_ os r full_path (Some true)
           = Ok (String.eqb (OsPath.basename full_path) name))
    /\ (forall parent,
           IgnorePattern.match_ os r (OsPath.join parent name) (Some true) = Ok true)
    /\ (forall full_path,
           IgnorePattern.match_ os r full_path (Some false) = Ok false).
Proof.
  intros Hne Hglob Hslash.
  eexists. split; [now apply init_trailing_double_star|].
  assert (E : String.eqb name "" = false) by now apply String.eqb_neq.
  repeat split; cbn.
  - intros full_path. unfold IgnorePattern.match_. cbn. now rewrite E.
  - intros parent. unfold IgnorePattern.match_. cbn. rewrite E. cbn.
    rewrite basename_join by assumption. now rewrite String.eqb_refl.
Qed.

Lemma trailing_double_star_is_directory_basename_rule_witness :
  exists r,
    IgnorePattern.init "/srv/content" "a/**" ".contentignore" 3 = Ok r
    /\ IgnorePattern.exact_match r = Some "a"
    /\ (forall parent,
           IgnorePattern.match_ (Build_OS (fun p => p) (fun _ => false) (fun _ => None))
             r (OsPath.join parent "a") (Some true) = Ok true).
Proof.
  destruct (trailing_double_star_is_directory_basename_rule
              (Build_OS (fun p => p) (fun _ => false) (fun _ => None))
              "/srv/content" "a" ".contentignore" 3)
    as (r & H1 & _ & _ & _ & H5 & _ & _ & H8 & _).
  - discriminate.
  - reflexivity.
  - reflexivity.
  - exists r. repeat split; assumption.
Defined.

(** Case analysis on a stage of [__init__] that has returned a rule. *)
Ltac stage_cases H :=
  repeat match type of H with
    | context [if ?b then _ else _] => destruct b eqn:?
    | context [let (_, _) := ?x in _] => destruct x eqn:?
    | bind ?m _ = Ok _ => destruct m eqn:?; cbn [bind] in H
    | Raise _ = Ok _ => discriminate H
    end.

Lemma init_rest_directories (self r : IgnorePattern.t) (pattern : string) :
  IgnorePattern.init_rest self pattern = Ok r ->
  IgnorePattern.applies_to_directories r = IgnorePattern.applies_to_directories self.
Proof.
  unfold IgnorePattern.init_rest. intros H.
  stage_cases H; injection H as <-;
    repeat match goal with
      | E : (_, _) = (_, _) |- _ => injection E as <- <-
      end; reflexivity.
Qed.

Lemma init_leading_directories (self r : IgnorePattern.t) (pattern : string) :
  IgnorePattern.init_leading self pattern = Ok r ->
  IgnorePattern.applies_to_directories r = IgnorePattern.applies_to_directories self.
Proof.
  unfold IgnorePattern.init_leading. intros H.
  stage_cases H; injection H as <-; reflexivity.
Qed.

Lemma init_trailing_directories (self r : IgnorePattern.t) (pattern : string) :
  IgnorePattern.init_trailing self pattern = Ok r ->
  IgnorePattern.applies_to_directories self = true ->
  IgnorePattern.applies_to_directories r = true.
Proof.
  unfold IgnorePattern.init_trailing. intros H D.
  destruct (IgnorePattern._has_glob _).
  - injection H as <-. exact D.
  - destruct (String.eqb _ _).
    + stage_cases H. injection H as <-. reflexivity.
    + apply init_rest_directories in H. exact H.
Qed.

(** A rule for directories only answers [False] for a file, whatever else
    it holds. *)
Lemma directory_rule_on_file (os : OS) (r : IgnorePattern.t) (full_path : string)
    (is_dir : option bool) :
  IgnorePattern.applies_to_directories r = true ->
  match is_dir with Some b => b | None => os_path_isdir os full_path end = false ->
  IgnorePattern.match_ os r full_path is_dir
  = if truthy (IgnorePattern.invalid r) then Raise AssertionError else Ok false.
Proof.
  intros D F. unfold IgnorePattern.match_. rewrite D, F. reflexivity.
Qed.

Lemma has_glob_take (n : nat) (s : string) :
  IgnorePattern._has_glob s = false -> IgnorePattern._has_glob (take n s) = false.
Proof.
  intros H. destruct (has_glob_inv _ H) as [A B]. unfold IgnorePattern._has_glob.
  now rewrite (contains_char_take _ n _ A), (contains_char_take _ n _ B).
Qed.

Lemma init_rest_without_wildcard (self : IgnorePattern.t) (pattern : string) :
  IgnorePattern._has_glob pattern = false ->
  exists self' exact,
    IgnorePattern.init_rest self pattern = Ok (IgnorePattern.set_exact_match exact self')
    /\ IgnorePattern.invalid self' = IgnorePattern.invalid self
    /\ IgnorePattern.regex self' = IgnorePattern.regex self.
Proof.
  intros H. destruct (has_glob_inv _ H) as [A B]. unfold IgnorePattern.init_rest.
  rewrite (contains_with_char "*" "/" "*/" _ A : contains "/**/" pattern = false).
  rewrite (contains_with_char "*" "" "*" _ A : contains "**" pattern = false).
  destruct (startswith pattern "/").
  - unfold IgnorePattern._has_glob.
    rewrite (contains_char_drop _ 1 _ A), (contains_char_drop _ 1 _ B). cbn [orb].
    eexists _, _. split; [reflexivity|]. now split.
  - destruct (negb (contains "/" pattern)); rewrite H;
      (eexists _, _; split; [reflexivity|]; now split).
Qed.

(** A pattern without [*] and [?] never reaches [re.compile]: the
    constructor returns a valid rule that compares with an exact string. *)
Lemma init_without_wildcard (root pattern basename : string) (line_number : nat) :
  IgnorePattern._has_glob pattern = false ->
  exists r exact,
    IgnorePattern.init root pattern basename line_number = Ok r
    /\ IgnorePattern.invalid r = None
    /\ IgnorePattern.exact_match r = Some exact
    /\ IgnorePattern.regex r = None.
Proof.
  intros H. unfold IgnorePattern.init.
  match goal with
  | |- context [let (_, _) := ?x in _] => destruct x as [self p] eqn:E
  end.
  assert (G : IgnorePattern._has_glob p = false
              /\ IgnorePattern.invalid self = None /\ IgnorePattern.regex self = None).
  { destruct (endswith pattern "/" && negb (endswith pattern "*/"));
      injection E as <- <-; repeat split; try assumption.
    now apply has_glob_take. }
  destruct G as (G & I & X). destruct (has_glob_inv _ G) as [A B].
  unfold startswith. rewrite (contains_false_prefix "*" "*/" _ A).
  rewrite (endswith_with_char "*" "/" "*" _ A : endswith p "/**" = false).
  destruct (init_rest_without_wildcard self p G) as (self' & exact & -> & I' & X').
  eexists _, exact. split; [reflexivity|]. cbn. rewrite I', X', I, X. now repeat split.
Qed.

Lemma init_rest_returns (self : IgnorePattern.t) (pattern : string) :
  contains "[" pattern = false ->
  exists r, IgnorePattern.init_rest self pattern = Ok r.
Proof.
  intros B. unfold IgnorePattern.init_rest.
  destruct (contains "/**/" pattern).
  - destruct (partition "/**/" pattern) as [first second].
    destruct (IgnorePattern._has_glob _); [eauto|].
    rewrite re_compile_middle. cbn [bind]. eauto.
  - destruct (contains "**" pattern); [eauto|].
    match goal with
    | |- context [let (_, _) := ?x in _] => destruct x as [self' p] eqn:E
    end.
    assert (B' : contains "[" p = false).
    { destruct (startswith pattern "/").
      - injection E as <- <-. exact (contains_char_drop "[" 1 pattern B).
      - destruct (negb _); now injection E as <- <-. }
    destruct (IgnorePattern._has_glob p); [|eauto].
    rewrite (re_compile_translated p B'). cbn [bind]. eauto.
Qed.

(** Every pattern without a character set compiles: the constructor
    returns a rule, valid or marked invalid. *)
Lemma init_returns_without_character_set
    (root pattern basename : string) (line_number : nat) :
  contains "[" pattern = false ->
  exists r, IgnorePattern.init root pattern basename line_number = Ok r.
Proof.
  intros B. unfold IgnorePattern.init.
  match goal with
  | |- context [let (_, _) := ?x in _] => destruct x as [self p] eqn:E
  end.
  assert (B' : contains "[" p = false).
  { destruct (endswith pattern "/" && negb (endswith pattern "*/"));
      injection E as <- <-; [|assumption].
    exact (contains_char_take "[" _ pattern B). }
  destruct (startswith p "**/").
  - unfold IgnorePattern.init_leading.
    destruct (IgnorePattern._has_glob _); [eauto|].
    destruct (String.eqb _ ""); [cbn; eauto|].
    destruct (contains "/" _); [|eauto].
    rewrite re_compile_any_slash. cbn [bind]. eauto.
  - destruct (endswith p "/**"); [|now apply init_rest_returns].
    unfold IgnorePattern.init_trailing.
    destruct (IgnorePattern._has_glob _); [eauto|].
    destruct (String.eqb _ ""); [cbn; eauto|].
    apply init_rest_returns. exact (contains_char_take "[" _ p B').
Qed.

(** C5. For a pattern that ends in [/] and not in [*/], the rule that
    [IgnorePattern] builds has [applies_to_directories] set; on a path that
    is not a directory (by the caller's [is_dir], or by [os.path.isdir] when
    the caller gives none) its [match] returns [False] when the rule is
    valid, and in no case answers that the path matches. *)
Theorem trailing_slash_rule_never_matches_file
    (root pattern basename : string) (line_number : nat) (r : IgnorePattern.t) :
  endswith pattern "/" = true ->
  endswith pattern "*/" = false ->
  IgnorePattern.init root pattern basename line_number = Ok r ->
  IgnorePattern.applies_to_directories r = true
  /\ (forall os full_path is_dir,
         match is_dir with Some b => b | None => os_path_isdir os full_path end = false ->
         (IgnorePattern.invalid r = None ->
          IgnorePattern.match_ os r full_path is_dir = Ok false)
         /\ IgnorePattern.match_ os r full_path is_dir <> Ok true).
Proof.
  intros E1 E2 H.
  assert (D : IgnorePattern.applies_to_directories r = true).
  { unfold IgnorePattern.init in H. rewrite E1, E2 in H. cbn [andb negb] in H.
    destruct (startswith _ "**/").
    - apply init_leading_directories in H. exact H.
    - destruct (endswith _ "/**").
      + apply init_trailing_directories in H; [exact H | reflexivity].
      + apply init_rest_directories in H. exact H. }
  split; [exact D|].
  intros os full_path is_dir F.
  rewrite (directory_rule_on_file os r full_path is_dir D F).
  split.
  - intros ->. reflexivity.
  - destruct (truthy _); discriminate.
Qed.

Lemma trailing_slash_rule_never_matches_file_witness :
  exists r,
    IgnorePattern.init "/srv/content" "build/" ".contentignore" 1 = Ok r
    /\ IgnorePattern.applies_to_directories r = true
    /\ IgnorePattern.match_ (Build_OS (fun p => p) (fun _ => true) (fun _ => None))
         r "/srv/content/build" (Some false) = Ok false.
Proof.
  eexists. split; [reflexivity|].
  destruct (trailing_slash_rule_never_matches_file
              "/srv/content" "build/" ".contentignore" 1 _
              eq_refl eq_refl eq_refl) as [D M].
  split; [exact D|].
  apply (M (Build_OS (fun p => p) (fun _ => true) (fun _ => None))
           "/srv/content/build" (Some false) eq_refl).
  reflexivity.
Defined.

End PatternFacts.

(** ** Loading the ignore file *)

Section LoadingFacts.

Lemma lstrip_spaces (ws s : string) : all_space ws = true -> lstrip (ws ++ s) = lstrip s.
Proof.
  induction ws as [|c ws IH]; [reflexivity|].
  cbn [all_space append lstrip]. intros H. apply andb_true_iff in H.
  destruct H as [-> H]. now apply IH.
Qed.

Lemma rstrip_all_space (ws : string) : all_space ws = true -> rstrip ws = "".
Proof.
  induction ws as [|c ws IH]; [reflexivity|].
  cbn [all_space rstrip]. intros H. apply andb_true_iff in H.
  destruct H as [-> H]. now rewrite IH.
Qed.

Lemma rstrip_spaces (s ws : string) : all_space ws = true -> rstrip (s ++ ws) = rstrip s.
Proof.
  intros H. induction s as [|c s IH].
  - now apply rstrip_all_space.
  - cbn [append rstrip]. now rewrite IH.
Qed.

Lemma lstrip_head (s : string) :
  lstrip s = "" \/ exists c s', lstrip s = String c s' /\ isspace c = false.
Proof.
  induction s as [|c s IH]; [now left|].
  cbn [lstrip]. destruct (isspace c) eqn:E; [exact IH|].
  right. now exists c, s.
Qed.

Lemma lstrip_app_nonempty (s t : string) : lstrip s <> "" -> lstrip (s ++ t) = (lstrip s ++ t)%string.
Proof.
  induction s as [|c s IH]; [contradiction|].
  cbn [lstrip append]. destruct (isspace c); [exact IH | reflexivity].
Qed.

Lemma lstrip_all_space (s : string) : lstrip s = "" -> all_space s = true.
Proof.
  induction s as [|c s IH]; [reflexivity|].
  cbn [lstrip all_space]. destruct (isspace c); [exact IH | discriminate].
Qed.

Lemma all_space_app (a b : string) :
  all_space (a ++ b) = all_space a && all_space b.
Proof.
  induction a as [|c a IH]; [reflexivity|].
  cbn [append all_space]. now rewrite IH, andb_assoc.
Qed.

Lemma lstrip_of_spaces (s : string) : all_space s = true -> lstrip s = "".
Proof.
  induction s as [|c s IH]; [reflexivity|].
  cbn [all_space lstrip]. intros H. apply andb_true_iff in H. destruct H as [-> H].
  now apply IH.
Qed.

(** White space around a string does not change what [strip] returns. *)
Lemma strip_spaces (ws1 p ws2 : string) :
  all_space ws1 = true -> all_space ws2 = true ->
  strip (ws1 ++ p ++ ws2) = strip p.
Proof.
  intros H1 H2. unfold strip. rewrite lstrip_spaces by assumption.
  destruct (string_dec (lstrip p) "") as [E|E].
  - rewrite E. rewrite lstrip_of_spaces; [reflexivity|].
    rewrite all_space_app, H2, andb_true_r. now apply lstrip_all_space.
  - rewrite lstrip_app_nonempty by assumption. now apply rstrip_spaces.
Qed.

Lemma strip_all_space (ws : string) : all_space ws = true -> strip ws = "".
Proof. intros H. unfold strip. now rewrite lstrip_of_spaces. Qed.


(** C8. [parse_gitignore] strips each line before it looks at it: a line
    of white space only is skipped and leaves the object as it was, and a
    pattern with white space around it is handled exactly as the pattern
    alone, giving the same rule or the same diagnostic. *)
Theorem lines_are_stripped_before_classification
    (self : IgnoredFiles.t) (line_number : nat) (ws1 p ws2 : string) :
  all_space ws1 = true ->
  all_space ws2 = true ->
  IgnoredFiles.parse_line self line_number ws1 = Ok self
  /\ IgnoredFiles.parse_line self line_number (ws1 ++ p ++ ws2)
     = IgnoredFiles.parse_line self line_number p
  /\ IgnoredFiles.parse_line self line_number (ws1 ++ p ++ ws2)
     = if String.eqb (strip p) "" || startswith (strip p) "#" then Ok self
       else if startswith (strip p) "!"
            then Ok (IgnoredFiles.invalid_append (negation_diagnostic line_number) self)
            else IgnoredFiles.add self (strip p) line_number.
Proof.
  intros H1 H2. unfold IgnoredFiles.parse_line.
  rewrite (strip_all_space ws1 H1), (strip_spaces ws1 p ws2 H1 H2).
  repeat split.
Qed.

Lemma lines_are_stripped_before_classification_witness :
  IgnoredFiles.parse_line
    (IgnoredFiles.Build_t "/srv/content" [] [] ".contentignore") 4 "  build/  "
  = IgnoredFiles.add
      (IgnoredFiles.Build_t "/srv/content" [] [] ".contentignore") "build/" 4.
Proof.
  destruct (lines_are_stripped_before_classification
              (IgnoredFiles.Build_t "/srv/content" [] [] ".contentignore") 4
              "  " "build/" "  " eq_refl eq_refl) as (_ & _ & H).
  exact H.
Defined.


(** Rules marked invalid go to the diagnostics, never to the active set. *)
Lemma add_all_valid (self self' : IgnoredFiles.t) (pattern : string) (line_number : nat) :
  all_valid self -> IgnoredFiles.add self pattern line_number = Ok self' -> all_valid self'.
Proof.
  unfold IgnoredFiles.add, all_valid. intros V H.
  destruct (IgnorePattern.init _ _ _ _) as [pat|e]; [|discriminate]. cbn [bind] in H.
  destruct (truthy (IgnorePattern.invalid pat)) eqn:T; injection H as <-; cbn.
  - exact V.
  - apply Forall_app. split; [exact V|]. now constructor.
Qed.

Lemma parse_line_all_valid (self self' : IgnoredFiles.t) (line_number : nat) (line : string) :
  all_valid self -> IgnoredFiles.parse_line self line_number line = Ok self' ->
  all_valid self'.
Proof.
  unfold IgnoredFiles.parse_line. intros V H.
  destruct (_ || _); [now injection H as <-|].
  destruct (startswith _ "!"); [now injection H as <-|].
  exact (add_all_valid self self' _ _ V H).
Qed.

Lemma parse_lines_all_valid (lines : list string) (self : IgnoredFiles.t) (line_number : nat) :
  all_valid self -> all_valid (fst (IgnoredFiles.parse_lines self line_number lines)).
Proof.
  revert self line_number. induction lines as [|line lines IH]; intros self n V; [exact V|].
  cbn [IgnoredFiles.parse_lines].
  destruct (IgnoredFiles.parse_line self (n + 1) line) as [self'|e] eqn:E; [|exact V].
  apply IH. exact (parse_line_all_valid self self' _ _ V E).
Qed.

Lemma init_all_valid (os : OS) (path basename : string) (use_default_ignores : bool)
    (self : IgnoredFiles.t) :
  IgnoredFiles.init os path basename use_default_ignores = Ok self -> all_valid self.
Proof.
  unfold IgnoredFiles.init. intros H.
  match type of H with
  | context [IgnoredFiles.parse_gitignore os ?s0 ?p] =>
      assert (V : all_valid (IgnoredFiles.parse_gitignore os s0 p))
  end.
  { unfold IgnoredFiles.parse_gitignore.
    destruct (read_lines os _) as [lines|]; [|constructor].
    match goal with
    | |- context [IgnoredFiles.parse_lines ?s0 0 lines] =>
        assert (V := parse_lines_all_valid lines s0 0 (Forall_nil _));
        destruct (IgnoredFiles.parse_lines s0 0 lines) as [self1 [e|]]
    end; exact V. }
  destruct use_default_ignores.
  - exact (add_all_valid _ self _ _ V H).
  - now injection H as <-.
Qed.

End LoadingFacts.

(** ** Matching against the rule set *)

Section MatchFacts.

Variable os : OS.

Lemma usable_match (r : IgnorePattern.t) (path : string) (is_dir : option bool) :
  usable r = true -> exists b, IgnorePattern.match_ os r path is_dir = Ok b.
Proof.
  unfold usable, IgnorePattern.match_. intros H.
  apply andb_true_iff in H. destruct H as [V U].
  apply negb_true_iff in V. rewrite V.
  destruct (if IgnorePattern.applies_to_directories r then _ else false); [eauto|].
  destruct (truthy (IgnorePattern.exact_match r)) eqn:T.
  - destruct (IgnorePattern.exact_match r); eauto.
  - cbn [orb] in U. destruct (IgnorePattern.regex r); [eauto | discriminate].
Qed.

Lemma usable_match_rules (rules : list IgnorePattern.t) (path : string)
    (is_dir : option bool) :
  forallb usable rules = true ->
  exists m, IgnoredFiles.match_rules os rules path is_dir = Ok m.
Proof.
  induction rules as [|r rules IH]; cbn [forallb IgnoredFiles.match_rules]; intros H.
  - eauto.
  - apply andb_true_iff in H. destruct H as [U H].
    destruct (usable_match r path is_dir U) as [b ->]. cbn [bind].
    destruct b; [eauto | now apply IH].
Qed.

(** With usable rules, [match] returns, and [ignored] tells what. *)
Lemma match_usable (self : IgnoredFiles.t) (path : string) (is_dir : bool) :
  forallb usable (IgnoredFiles._regexes self) = true ->
  exists m, IgnoredFiles.match_ os self path (Some is_dir) = Ok m
            /\ ignored os self path is_dir = match m with Some _ => true | None => false end.
Proof.
  intros H. unfold ignored, IgnoredFiles.match_.
  destruct (usable_match_rules _ path (Some is_dir) H) as [m ->].
  exists m. split; [reflexivity | now destruct m].
Qed.

End MatchFacts.

(** ** Pruning the directories of a walk *)

Section PruningFacts.

Variable os : OS.
Variable self : IgnoredFiles.t.
Hypothesis rules_usable : forallb usable (IgnoredFiles._regexes self) = true.

Lemma list_remove_first (x : string) (front back : list string) :
  ~ In x front ->
  IgnoredFiles.list_remove x (front ++ x :: back) = Ok (front ++ back).
Proof.
  induction front as [|y front IH]; cbn [app IgnoredFiles.list_remove]; intros N.
  - now rewrite String.eqb_refl.
  - destruct (String.eqb_spec y x) as [->|ne].
    + exfalso. apply N. now left.
    + rewrite IH; [reflexivity|]. intros I. apply N. now right.
Qed.

(** The loop, started on a list whose front has been visited and kept. *)
Lemma remove_loop_filter (root : string) (copy front : list string) :
  (forall y, In y front -> ignored os self (OsPath.join root y) true = false) ->
  IgnoredFiles.remove_loop os self root copy (front ++ copy)
  = Ok (front ++ filter (fun b => negb (ignored os self (OsPath.join root b) true)) copy).
Proof.
  revert front. induction copy as [|x copy IH]; intros front F.
  - reflexivity.
  - cbn [IgnoredFiles.remove_loop filter].
    destruct (match_usable os self (OsPath.join root x) true rules_usable) as (m & -> & I).
    rewrite I. cbn [bind]. destruct m as [r|]; cbn [negb].
    + rewrite list_remove_first.
      * cbn [bind]. now apply IH.
      * intros In_x. apply F in In_x. rewrite I in In_x. discriminate.
    + replace (front ++ x :: copy) with ((front ++ [x]) ++ copy)
        by now rewrite <- app_assoc.
      rewrite IH.
      * now rewrite <- app_assoc.
      * intros y In_y. apply in_app_or in In_y. destruct In_y as [In_y|[<-|[]]].
        -- now apply F.
        -- exact I.
Qed.

Lemma remove_ignored_folders_usable (root : string) (dirs : list string) :
  IgnoredFiles.remove_ignored_folders os self root dirs
  = Ok (self, filter (fun basename => negb (ignored os self (OsPath.join root basename) true))
                dirs).
Proof.
  unfold IgnoredFiles.remove_ignored_folders.
  assert (H := remove_loop_filter root dirs [] (fun y (I : In y []) => match I with end)).
  cbn [app] in H. now rewrite H.
Qed.

(** C9. With rules that [match] can use, [remove_ignored_folders] returns
    normally and leaves in [dirs] the names that [match] does not report as
    directories, in their order: a name is left exactly when it was there
    and is not matched, none is added, and the [IgnoredFiles] object, its
    rules and its diagnostics, is the one it was. *)
Theorem remove_ignored_folders_filters_matched (root : string) (dirs : list string) :
  exists dirs',
    IgnoredFiles.remove_ignored_folders os self root dirs = Ok (self, dirs')
    /\ dirs' = filter (fun basename =>
                         negb (ignored os self (OsPath.join root basename) true)) dirs
    /\ (forall basename,
           In basename dirs' <->
           In basename dirs /\ ignored os self (OsPath.join root basename) true = false)
    /\ (forall basename,
           In basename dirs -> ~ In basename dirs' ->
           ignored os self (OsPath.join root basename) true = true).
Proof.
  eexists. split; [apply remove_ignored_folders_usable|]. split; [reflexivity|]. split.
  - intros b. rewrite filter_In, negb_true_iff. reflexivity.
  - intros b I N. rewrite filter_In, negb_true_iff in N.
    destruct (ignored os self (OsPath.join root b) true); [reflexivity|].
    exfalso. apply N. now split.
Qed.

End PruningFacts.

(** ** Walking the tree *)

Section TreeInduction.

Variable P : tree -> Prop.
Hypothesis step : forall dirs files, Forall (fun p => P (snd p)) dirs -> P (Dir dirs files).

(** Induction on a directory, with the property for every sub-directory. *)
Fixpoint tree_ind (t : tree) : P t :=
  match t with
  | Dir dirs files =>
      step dirs files
        ((fix all (l : list (string * tree)) : Forall (fun p => P (snd p)) l :=
            match l with
            | [] => Forall_nil _
            | p :: l' =>
                Forall_cons p
                  (match p as q return P (snd q) with (_, sub) => tree_ind sub end)
                  (all l')
            end) dirs)
  end.

End TreeInduction.

Section WalkFacts.

Lemma lookup_In (name : string) (l : list (string * tree)) (sub : tree) :
  lookup name l = Some sub -> exists n, In (n, sub) l.
Proof.
  induction l as [|[n t] l IH]; cbn [lookup]; [discriminate|].
  destruct (String.eqb n name).
  - intros [= ->]. exists n. now left.
  - intros H. destruct (IH H) as [n' I]. exists n'. now right.
Qed.

(** [os_walk] on a directory: the body, then the descent. *)
Lemma os_walk_Dir {S : Type}
    (body : string -> list string -> list string -> S -> result (list string * S))
    (top : string) (dirs : list (string * tree)) (files : list string) (s : S) :
  os_walk body top (Dir dirs files) s
  = bind (body top (map fst dirs) files s)
         (fun r => walk_names body top dirs (fst r) (snd r)).
Proof.
  cbn [os_walk]. destruct (body top (map fst dirs) files s) as [[dirs' s1]|e]; [|reflexivity].
  cbn [bind fst snd]. revert s1.
  induction dirs' as [|name names IH]; intros s1; [reflexivity|].
  cbn [walk_names].
  assert (F : forall l,
             (fix find (l : list (string * tree)) : option (S -> result S) :=
                match l with
                | [] => None
                | (n, sub) :: l' =>
                    if String.eqb n name
                    then Some (os_walk body (OsPath.join top name) sub)
                    else find l'
                end) l
             = option_map (os_walk body (OsPath.join top name)) (lookup name l)).
  { induction l as [|[n sub] l IHl]; [reflexivity|].
    cbn [lookup]. destruct (String.eqb n name); [reflexivity | exact IHl]. }
  rewrite F. destruct (lookup name dirs) as [sub|]; cbn [option_map].
  - destruct (os_walk body (OsPath.join top name) sub s1) as [s'|e]; [|reflexivity].
    cbn [bind]. apply IH.
  - apply IH.
Qed.

(** [listing] on a directory: its files, then the listings below. *)
Lemma listing_Dir (top : string) (dirs : list (string * tree)) (files : list string) :
  listing top (Dir dirs files)
  = map (fun f => ([], OsPath.join top f)) files ++ listing_names top dirs (map fst dirs).
Proof.
  cbn [listing]. f_equal.
  generalize (map fst dirs) as names.
  induction names as [|name names IH]; [reflexivity|].
  cbn [listing_names].
  assert (F : forall l,
             (fix find (l : list (string * tree)) : option (list (list string * string)) :=
                match l with
                | [] => None
                | (n, sub) :: l' =>
                    if String.eqb n name
                    then Some (listing (OsPath.join top name) sub)
                    else find l'
                end) l
             = option_map (listing (OsPath.join top name)) (lookup name l)).
  { induction l as [|[n sub] l IHl]; [reflexivity|].
    cbn [lookup]. destruct (String.eqb n name); [reflexivity | exact IHl]. }
  rewrite F. destruct (lookup name dirs) as [sub|]; cbn [option_map].
  - now rewrite IH.
  - exact IH.
Qed.

Variable os : OS.
Variable self : IgnoredFiles.t.
Variable mypath : string.
Hypothesis rules_usable : forallb usable (IgnoredFiles._regexes self) = true.

(** The loop over the files of one directory. *)
Lemma list_files_files_filter (root : string) (files all_files : list string) :
  list_files_files os self mypath root files all_files
  = Ok (all_files
        ++ map (reported mypath)
             (filter (fun fpath => negb (ignored os self fpath false))
                     (map (OsPath.join root) files))).
Proof.
  revert all_files. induction files as [|f files IH]; intros all_files.
  - cbn. now rewrite app_nil_r.
  - cbn [list_files_files map filter].
    destruct (match_usable os self (OsPath.join root f) false rules_usable) as (m & -> & I).
    rewrite I. cbn [bind]. destruct m as [r|]; cbn [negb].
    + apply IH.
    + rewrite IH. cbn [map]. now rewrite <- app_assoc.
Qed.

Lemma posthoc_filter_usable (l : list string) :
  posthoc_filter os self mypath l
  = Ok (map (reported mypath) (filter (fun fpath => negb (ignored os self fpath false)) l)).
Proof.
  induction l as [|f l IH]; [reflexivity|].
  cbn [posthoc_filter filter].
  destruct (match_usable os self f false rules_usable) as (m & -> & I).
  rewrite I, IH. cbn [bind]. now destruct m.
Qed.

Lemma kept_files (top : string) (files : list string) :
  map (fun e => reported mypath (snd e))
    (filter (kept os self) (map (fun f => ([], OsPath.join top f)) files))
  = map (reported mypath)
      (filter (fun fpath => negb (ignored os self fpath false))
              (map (OsPath.join top) files)).
Proof.
  induction files as [|f files IH]; [reflexivity|].
  cbn [map filter]. unfold kept at 1. cbn [fst snd forallb andb].
  destruct (negb _); cbn [map]; now rewrite IH.
Qed.

(** Below a directory that is ignored nothing is kept; below one that is
    not, what is kept is what is kept of its own listing. *)
Lemma kept_below (d : string) (l : list (list string * string)) :
  map (fun e => reported mypath (snd e))
    (filter (kept os self) (map (fun e => (d :: fst e, snd e)) l))
  = if ignored os self d true then []
    else map (fun e => reported mypath (snd e)) (filter (kept os self) l).
Proof.
  induction l as [|e l IH].
  - now destruct (ignored os self d true).
  - cbn [map filter]. unfold kept at 1. cbn [fst snd forallb].
    destruct (ignored os self d true) eqn:I; cbn [negb andb].
    + exact IH.
    + fold (kept os self e). destruct (kept os self e); cbn [map]; now rewrite IH.
Qed.

(** The walk of [list_files] adds to [all_files] the kept entries of the
    listing, in the order of the listing. *)
Lemma list_files_walk_from (t : tree) :
  forall (top : string) (all_files : list string),
    os_walk (list_files_body os self mypath) top t all_files
    = Ok (all_files
          ++ map (fun e => reported mypath (snd e)) (filter (kept os self) (listing top t))).
Proof.
  induction t as [dirs files IH] using tree_ind. intros top all_files.
  rewrite os_walk_Dir, listing_Dir. unfold list_files_body at 1.
  rewrite (remove_ignored_folders_usable os self rules_usable). cbn [bind].
  rewrite list_files_files_filter. cbn [bind fst snd].
  rewrite filter_app, map_app, kept_files, app_assoc.
  generalize (all_files
              ++ map (reported mypath)
                   (filter (fun fpath => negb (ignored os self fpath false))
                           (map (OsPath.join top) files))) as acc.
  generalize (map fst dirs) as names.
  induction names as [|name names IHn]; intros acc.
  - cbn. now rewrite app_nil_r.
  - cbn [filter listing_names].
    destruct (ignored os self (OsPath.join top name) true) eqn:I; cbn [negb].
    + rewrite IHn. destruct (lookup name dirs) as [sub|]; [|reflexivity].
      now rewrite filter_app, map_app, kept_below, I.
    + cbn [walk_names]. destruct (lookup name dirs) as [sub|] eqn:L; [|apply IHn].
      destruct (lookup_In _ _ _ L) as [n In_sub].
      rewrite Forall_forall in IH. rewrite (IH _ In_sub). cbn [bind].
      rewrite IHn, filter_app, map_app, kept_below, I. now rewrite <- app_assoc.
Qed.

(** The plain listing is the listing with its directories dropped. *)
Lemma full_listing_from (t : tree) :
  forall (top : string) (acc : list string),
    os_walk (fun root dirs files (acc : list string) =>
               Ok (dirs, acc ++ map (OsPath.join root) files)) top t acc
    = Ok (acc ++ map snd (listing top t)).
Proof.
  induction t as [dirs files IH] using tree_ind. intros top acc.
  rewrite os_walk_Dir, listing_Dir. cbn [bind fst snd].
  rewrite map_app, map_map. cbn [snd]. rewrite app_assoc.
  change (fun x : string => OsPath.join top x) with (OsPath.join top).
  generalize (acc ++ map (OsPath.join top) files) as acc'.
  generalize (map fst dirs) as names.
  induction names as [|name names IHn]; intros acc'.
  - cbn. now rewrite app_nil_r.
  - cbn [walk_names listing_names].
    destruct (lookup name dirs) as [sub|] eqn:L; [|apply IHn].
    destruct (lookup_In _ _ _ L) as [n In_sub].
    rewrite Forall_forall in IH. rewrite (IH _ In_sub). cbn [bind].
    rewrite IHn, map_app, map_map. cbn [snd]. now rewrite <- app_assoc.
Qed.

End WalkFacts.

(** ** The pruning property *)

Section PruningProperty.

(** C1, as the code has it. With rules that [match] can use, the walk of
    [list_files], which prunes [dirs] before [os.walk] descends, reports
    exactly the files of the full recursive listing that [match] does not
    report as files and that lie below no directory that [match] reports as
    a directory, in the order of the listing. The full listing filtered by
    [match] on the files alone reports all of these, and possibly more. *)
Theorem pruned_walk_is_listing_filtered_with_directories
    (os : OS) (self : IgnoredFiles.t) (mypath : string) (t : tree) :
  forallb usable (IgnoredFiles._regexes self) = true ->
  list_files_walk os self mypath t
  = Ok (map (fun e => reported mypath (snd e)) (filter (kept os self) (listing mypath t)))
  /\ full_listing mypath t = Ok (map snd (listing mypath t))
  /\ exists filtered,
       posthoc_filter os self mypath (map snd (listing mypath t)) = Ok filtered
       /\ forall f,
            In f (map (fun e => reported mypath (snd e))
                      (filter (kept os self) (listing mypath t)))
            -> In f filtered.
Proof.
  intros U. split; [|split].
  - unfold list_files_walk. now rewrite list_files_walk_from.
  - unfold full_listing. now rewrite full_listing_from.
  - rewrite (posthoc_filter_usable os self mypath U). eexists. split; [reflexivity|].
    intros f I. apply in_map_iff in I. destruct I as ([anc fpath] & <- & I).
    apply filter_In in I. destruct I as [I K].
    apply in_map_iff. exists fpath. split; [reflexivity|].
    apply filter_In. split.
    + apply in_map_iff. now exists (anc, fpath).
    + unfold kept in K. now apply andb_true_iff in K.
Qed.

Lemma pruned_walk_is_listing_filtered_with_directories_witness :
  list_files_walk (example_os ["build/"]) example_ignores "/srv/content" example_tree
  = Ok ["a.txt"].
Proof.
  destruct (pruned_walk_is_listing_filtered_with_directories
              (example_os ["build/"]) example_ignores "/srv/content" example_tree
              eq_refl) as [H _].
  exact H.
Defined.

(** C1 as stated fails on the first scenario of the specification:
    filtering the full listing by [match] on the files keeps
    [build/output.bin] and [.git/HEAD], which the pruned walk never sees. *)
Lemma pruning_property_fails_on_directory_rules :
  IgnoredFiles.init (example_os ["build/"]) "/srv/content" ".contentignore" true
  = Ok example_ignores
  /\ list_files_walk (example_os ["build/"]) example_ignores "/srv/content" example_tree
     = Ok ["a.txt"]
  /\ bind (full_listing "/srv/content" example_tree)
          (posthoc_filter (example_os ["build/"]) example_ignores "/srv/content")
     = Ok ["a.txt"; "build/output.bin"; ".git/HEAD"]
  /\ ~ pruning_property (example_os ["build/"]) example_ignores "/srv/content" example_tree.
Proof.
  repeat split.
  intros (pruned & full & filtered & H1 & H2 & H3 & H).
  vm_compute in H1. vm_compute in H2. injection H1 as <-. injection H2 as <-.
  vm_compute in H3. injection H3 as <-.
  destruct (H "build/output.bin") as [_ B].
  assert (I : In "build/output.bin" ["a.txt"]) by (apply B; right; now left).
  destruct I as [E|[]]. discriminate E.
Qed.

(** Where no directory of the tree is ignored the property of the
    specification does hold. *)
Lemma pruning_property_without_ignored_directories
    (os : OS) (self : IgnoredFiles.t) (mypath : string) (t : tree) :
  forallb usable (IgnoredFiles._regexes self) = true ->
  (forall e, In e (listing mypath t) ->
             forallb (fun d => negb (ignored os self d true)) (fst e) = true) ->
  pruning_property os self mypath t.
Proof.
  intros U D. unfold pruning_property.
  unfold list_files_walk, full_listing.
  rewrite (list_files_walk_from os self mypath U), full_listing_from.
  do 3 eexists. split; [reflexivity|]. split; [reflexivity|].
  split; [apply (posthoc_filter_usable os self mypath U)|].
  cbn [app].
  assert (E : map (fun e => reported mypath (snd e)) (filter (kept os self) (listing mypath t))
              = map (reported mypath)
                  (filter (fun fpath => negb (ignored os self fpath false))
                          (map snd (listing mypath t)))).
  { induction (listing mypath t) as [|e l IH]; [reflexivity|].
    cbn [map filter]. unfold kept at 1. rewrite (D e (or_introl eq_refl)). cbn [andb].
    assert (IH' := IH (fun e' I => D e' (or_intror I))).
    destruct (negb (ignored os self (snd e) false)); cbn [map]; now rewrite IH'. }
  rewrite E. reflexivity.
Qed.

End PruningProperty.

Lemma remove_ignored_folders_filters_matched_witness :
  IgnoredFiles.remove_ignored_folders (example_os ["build/"]) example_ignores
    "/srv/content" ["src"; "build"; ".git"; "docs"]
  = Ok (example_ignores, ["src"; "docs"]).
Proof.
  destruct (remove_ignored_folders_filters_matched
              (example_os ["build/"]) example_ignores eq_refl
              "/srv/content" ["src"; "build"; ".git"; "docs"]) as (dirs' & H & -> & _).
  exact H.
Defined.

(** ** Where [match] and [__init__] leave the documented behaviour *)

Section Divergences.

Variable os : OS.
Variables root basename : string.
Variable line_number : nat.

(** The name that a relative rule compares: what follows the root and one
    more character. *)
Lemma relative_name (rel : string) :
  drop (String.length root + 1) (root ++ String "/" rel) = rel.
Proof.
  replace (String.length root + 1) with (String.length (root ++ "/")).
  - change (String "/" rel) with ("/" ++ rel)%string.
    rewrite <- app_assoc_s. apply drop_app.
  - rewrite length_append. reflexivity.
Qed.

Lemma match_relative (r : IgnorePattern.t) (rx : Re.regex) (rel : string) :
  IgnorePattern.root r = root ->
  IgnorePattern.invalid r = None ->
  IgnorePattern.applies_to_directories r = false ->
  IgnorePattern.match_basename r = false ->
  IgnorePattern.exact_match r = None ->
  IgnorePattern.regex r = Some rx ->
  IgnorePattern.match_ os r (root ++ String "/" rel) (Some false) = Ok (re_match rx rel).
Proof.
  intros R I D B E X. unfold IgnorePattern.match_.
  rewrite I, D, B, E, X, R. cbn [truthy]. now rewrite relative_name.
Qed.

(** The rule of [a/**/b] on every relative path: it matches a name that
    starts with [a], then nothing, a slash, or a part without newline
    between two slashes, then [b]; nothing asks that the name end there. *)
Lemma middle_double_star_a_b_rule :
  exists r,
    IgnorePattern.init root "a/**/b" basename line_number = Ok r
    /\ forall rel,
         exists b,
           IgnorePattern.match_ os r (root ++ String "/" rel) (Some false) = Ok b
           /\ (b = true <->
               exists mid after,
                 rel = ("a" ++ mid ++ "b" ++ after)%string
                 /\ (mid = "" \/ mid = "/"
                     \/ exists x, mid = String "/" (x ++ "/")
                                  /\ contains (String (chr 10) "") x = false)).
Proof.
  eexists. split; [vm_compute; reflexivity|].
  intros rel. eexists. split.
  - erewrite match_relative by reflexivity. reflexivity.
  - apply (re_match_middle "a" "b" rel).
Qed.

(** C2. The rule for [a/**/b] matches the relative paths [a/b], [a/x/b]
    and [a/x/y/b] and does not match [ax/b]; it does match [a/bx], because
    [regex.match] accepts a match of a prefix of the name. *)
Theorem middle_double_star_matches_a_bx :
  exists r,
    IgnorePattern.init root "a/**/b" basename line_number = Ok r
    /\ IgnorePattern.invalid r = None
    /\ IgnorePattern.match_ os r (root ++ "/a/b") (Some false) = Ok true
    /\ IgnorePattern.match_ os r (root ++ "/a/x/b") (Some false) = Ok true
    /\ IgnorePattern.match_ os r (root ++ "/a/x/y/b") (Some false) = Ok true
    /\ IgnorePattern.match_ os r (root ++ "/ax/b") (Some false) = Ok false
    /\ IgnorePattern.match_ os r (root ++ "/a/bx") (Some false) = Ok true.
Proof.
  eexists. split; [vm_compute; reflexivity|].
  split; [reflexivity|].
  repeat split; erewrite match_relative by reflexivity; reflexivity.
Qed.

Lemma endswith_char_app (a b : string) (c : ascii) :
  b <> "" -> endswith (a ++ b) (String c "") = endswith b (String c "").
Proof.
  intros N. induction a as [|d a IH]; [reflexivity|].
  cbn [append endswith]. rewrite IH. cbn [String.eqb].
  rewrite app_not_empty by assumption. now destruct (Ascii.eqb d c).
Qed.

(** The rule of a leading double star before a path, in general: a valid
    rule on the relative path, which matches a name exactly when the name
    has, after a part without newline, a slash and the suffix; nothing asks
    that the name end there. *)
Lemma leading_double_star_rule (suffix : string) :
  IgnorePattern._has_glob suffix = false ->
  contains "/" suffix = true ->
  endswith suffix "/" = false ->
  exists r,
    IgnorePattern.init root ("**/" ++ suffix) basename line_number = Ok r
    /\ IgnorePattern.invalid r = None
    /\ IgnorePattern.applies_to_directories r = false
    /\ IgnorePattern.match_basename r = false
    /\ IgnorePattern.exact_match r = None
    /\ forall rel is_dir,
         exists b,
           IgnorePattern.match_ os r (root ++ String "/" rel) is_dir = Ok b
           /\ (b = true <->
               exists before after,
                 rel = (before ++ String "/" suffix ++ after)%string
                 /\ contains (String (chr 10) "") before = false).
Proof.
  intros G S E.
  assert (N : suffix <> "") by (intros ->; discriminate S).
  eexists. split.
  - unfold IgnorePattern.init.
    rewrite (endswith_char_app "**/" suffix "/" N), E. cbn [andb].
    assert (P : startswith ("**/" ++ suffix) "**/" = true).
    { unfold startswith. cbn [append]. rewrite !prefix_cons, prefix_nil. reflexivity. }
    rewrite P.
    unfold IgnorePattern.init_leading.
    change (drop 3 ("**/" ++ suffix)) with suffix. cbv zeta. rewrite G, S.
    replace (String.eqb suffix "") with false by (symmetry; now apply String.eqb_neq).
    rewrite re_compile_any_slash. cbn [bind]. reflexivity.
  - repeat split.
    intros rel is_dir. eexists. split.
    + unfold IgnorePattern.match_. cbn. rewrite relative_name. reflexivity.
    + apply re_match_any_slash.
Qed.

(** C3. The rule for [**/foo/bar] matches a relative path that ends with
    [/foo/bar], and also one where [/foo/bar] is followed by more
    characters; it does not match when a newline comes before. *)
Theorem leading_double_star_matches_interior_suffix :
  exists r,
    IgnorePattern.init root "**/foo/bar" basename line_number = Ok r
    /\ IgnorePattern.invalid r = None
    /\ IgnorePattern.match_basename r = false
    /\ IgnorePattern.match_ os r (root ++ "/x/foo/bar") (Some false) = Ok true
    /\ IgnorePattern.match_ os r (root ++ "/x/foo/barz") (Some false) = Ok true
    /\ IgnorePattern.match_ os r (root ++ "/x/foo/bar/y.txt") (Some false) = Ok true
    /\ IgnorePattern.match_ os r (root ++ String "/" (String (chr 10) "/foo/bar"))
         (Some false) = Ok false.
Proof.
  eexists. split; [vm_compute; reflexivity|].
  split; [reflexivity|]. split; [reflexivity|].
  repeat split; erewrite match_relative by reflexivity; reflexivity.
Qed.

(** C4. The pattern [/] compiles to a rule that is not marked invalid and
    whose [exact_match] is the empty string, with no regex: on any directory
    [match] fails its assertion [assert self.regex], and so does the walk of
    [list_files] when the ignore file has the line [/]. *)
Theorem slash_pattern_is_valid_and_match_raises :
  exists r,
    IgnorePattern.init root "/" basename line_number = Ok r
    /\ IgnorePattern.invalid r = None
    /\ IgnorePattern.exact_match r = Some ""
    /\ IgnorePattern.regex r = None
    /\ (forall full_path,
           IgnorePattern.match_ os r full_path (Some true) = Raise AssertionError)
    /\ list_files (example_os ["/"]) "/srv/content" example_tree = Raise AssertionError.
Proof.
  eexists. split; [vm_compute; reflexivity|].
  repeat split.
Qed.


End Divergences.

(** ** Globs and plain names *)

Section GlobFacts.

Local Open Scope string_scope.

Lemma prefix_app (p b : string) : String.prefix p (p ++ b) = true.
Proof.
  induction p as [|c p IH]; [apply prefix_nil|].
  cbn [append]. now rewrite prefix_cons, Ascii.eqb_refl, IH.
Qed.

Lemma contains_app (a p b : string) : contains p (a ++ p ++ b) = true.
Proof.
  induction a as [|c a IH].
  - cbn [append]. destruct (p ++ b) eqn:E.
    + cbn [contains]. rewrite <- E. now rewrite prefix_app.
    + cbn [contains]. rewrite <- E. now rewrite prefix_app.
  - cbn [append contains]. rewrite IH. apply orb_true_r.
Qed.

(** A string without [q] has no substring with [q] in it. *)
Lemma contains_within (a q b s : string) :
  contains q s = false -> contains (a ++ q ++ b) s = false.
Proof.
  intros H. destruct (contains (a ++ q ++ b) s) eqn:E; [|reflexivity].
  destruct (contains_inv _ _ E) as (x & y & ->).
  rewrite <- H. symmetry.
  rewrite !app_assoc_s. rewrite <- (app_assoc_s x a). apply contains_app.
Qed.

Lemma any_suffix_spec (f : string -> bool) (s : string) :
  any_suffix f s = true <-> exists x y, s = x ++ y /\ f y = true.
Proof.
  induction s as [|c s IH]; cbn [any_suffix].
  - rewrite orb_false_r. split.
    + intros H. now exists "", "".
    + intros (x & y & E & H). symmetry in E. apply app_nil_inv in E.
      destruct E as [_ ->]. exact H.
  - rewrite orb_true_iff, IH. split.
    + intros [H|(x & y & -> & H)].
      * now exists "", (String c s).
      * now exists (String c x), y.
    + intros (x & y & E & H). destruct x as [|d x].
      * cbn in E. subst y. now left.
      * cbn in E. injection E as <- ->. right. now exists x, y.
Qed.

(** [.*] under DOTALL matches every word. *)
Lemma Matches_any_star_dotall (at_end : bool) (w : string) :
  Matches at_end (RStar (RAny true)) w.
Proof.
  revert at_end. induction w as [|c w IH]; intros at_end; [constructor|].
  change (String c w) with (String c "" ++ w).
  apply MStarApp; [|apply IH]. now constructor.
Qed.

Lemma Matches_glob_item (c : ascii) (at_end : bool) (x : string) :
  Matches at_end (glob_item c) x <->
  if Ascii.eqb c "*" then True
  else exists d, x = String d "" /\ Ascii.eqb c "?" || Ascii.eqb c d = true.
Proof.
  unfold glob_item. destruct (Ascii.eqb c "*").
  - split; [trivial|]. intros _. apply Matches_any_star_dotall.
  - destruct (Ascii.eqb c "?"); cbn [orb].
    + split.
      * intros H. inversion H; subst. eauto.
      * intros (d & -> & _). now constructor.
    + split.
      * intros H. inversion H; subst. exists c. split; [reflexivity | apply Ascii.eqb_refl].
      * intros (d & -> & E). apply Ascii.eqb_eq in E. subst d. constructor.
Qed.

Lemma wildcard_cons (c : ascii) (p w : string) :
  wildcard (String c p) w = true <->
  exists x y, w = x ++ y /\ Matches false (glob_item c) x /\ wildcard p y = true.
Proof.
  cbn [wildcard]. split.
  - destruct (Ascii.eqb c "*") eqn:S.
    + intros H. apply any_suffix_spec in H. destruct H as (x & y & -> & H).
      exists x, y. split; [reflexivity|]. split; [|exact H].
      apply Matches_glob_item. now rewrite S.
    + destruct w as [|d w]; [discriminate|]. intros H.
      apply andb_true_iff in H. destruct H as [E H].
      exists (String d ""), w. split; [reflexivity|]. split; [|exact H].
      apply Matches_glob_item. rewrite S. now exists d.
  - intros (x & y & -> & M & H). apply Matches_glob_item in M.
    destruct (Ascii.eqb c "*").
    + apply any_suffix_spec. now exists x, y.
    + destruct M as (d & -> & E). cbn [append]. now rewrite E, H.
Qed.

Lemma eqb_app_empty (x y : string) :
  String.eqb (x ++ y) "" = String.eqb x "" && String.eqb y "".
Proof. destruct x; [reflexivity|]. reflexivity. Qed.

(** A sequence that ends with the items of the glob [p] matches the words
    that end with a word that [p] stands for. *)
Lemma Matches_glob_items (p : string) :
  forall (acc : list Re.regex) (at_end : bool) (w : string),
    acc <> [] ->
    (Matches at_end (seq_of (glob_items p acc)) w <->
     exists w0 w1, w = w0 ++ w1
                   /\ Matches (at_end && String.eqb w1 "") (seq_of acc) w0
                   /\ wildcard p w1 = true).
Proof.
  induction p as [|c p IH]; intros acc at_end w N; cbn [glob_items].
  - split.
    + intros H. exists w, "". rewrite app_empty_r, andb_true_r. now repeat split.
    + intros (w0 & w1 & -> & M & H). cbn in H. apply String.eqb_eq in H. subst w1.
      rewrite app_empty_r. cbn in M. now rewrite andb_true_r in M.
  - rewrite IH by discriminate. rewrite (seq_of_cons _ _ N). split.
    + intros (w0 & w1 & -> & M & H).
      destruct (Matches_cat_inv _ _ _ _ M) as (u & x & -> & M1 & M2).
      exists u, (x ++ w1). split; [now rewrite app_assoc_s|]. split.
      * rewrite eqb_app_empty. revert M1.
        now destruct at_end, (String.eqb x ""), (String.eqb w1 "").
      * apply wildcard_cons. exists x, w1. split; [reflexivity|]. split; [|exact H].
        apply Matches_glob_item. now apply Matches_glob_item in M2.
    + intros (w0 & w1 & -> & M & H). apply wildcard_cons in H.
      destruct H as (x & y & -> & Mx & H).
      exists (w0 ++ x), y. split; [now rewrite app_assoc_s|]. split; [|exact H].
      constructor.
      * rewrite eqb_app_empty in M. revert M.
        now destruct at_end, (String.eqb x ""), (String.eqb y "").
      * apply Matches_glob_item. now apply Matches_glob_item in Mx.
Qed.

(** The items of a glob match the words that the glob stands for. *)
Lemma Matches_glob (p : string) (at_end : bool) (w : string) :
  Matches at_end (seq_of (glob_items p [])) w <-> wildcard p w = true.
Proof.
  destruct p as [|c p].
  - cbn. split.
    + intros H. inversion H; subst. reflexivity.
    + intros H. apply String.eqb_eq in H. subst w. constructor.
  - cbn [glob_items]. rewrite Matches_glob_items by discriminate.
    rewrite wildcard_cons. cbn [seq_of]. split.
    + intros (w0 & w1 & -> & M & H). exists w0, w1. split; [reflexivity|].
      split; [|exact H]. apply Matches_glob_item. now apply Matches_glob_item in M.
    + intros (x & y & -> & M & H). exists x, y. split; [reflexivity|].
      split; [|exact H]. apply Matches_glob_item. now apply Matches_glob_item in M.
Qed.

(** What the regex of a translated glob accepts from [regex.match]: the
    names that the glob stands for, whole. *)
Lemma re_match_translated (p name : string) :
  re_match (RCat (RGroup (seq_of (glob_items p []))) RAtEndString) name = wildcard p name.
Proof.
  apply eq_true_iff_eq. rewrite re_match_spec. split.
  - intros (w & rest & -> & M).
    destruct (Matches_cat_inv _ _ _ _ M) as (w1 & w2 & -> & M1 & M2).
    inversion M2 as [| | | |E| | | | | | | |]; subst.
    symmetry in E. apply String.eqb_eq in E. subst rest.
    inversion M1; subst. rewrite !app_empty_r. eapply Matches_glob. eassumption.
  - intros H. exists name, "". split; [now rewrite app_empty_r|].
    rewrite <- (app_empty_r name). constructor; [|constructor].
    constructor. now apply Matches_glob.
Qed.

End GlobFacts.

Section RuleFacts.

Local Open Scope string_scope.

Lemma prefix_contains (p s : string) : String.prefix p s = true -> contains p s = true.
Proof. intros H. destruct s; cbn [contains]; now rewrite H. Qed.

Lemma no_double_star (pattern : string) :
  contains "**" pattern = false ->
  startswith pattern "**/" = false
  /\ endswith pattern "/**" = false
  /\ contains "/**/" pattern = false.
Proof.
  intros H. repeat split.
  - unfold startswith. destruct (String.prefix "**/" pattern) eqn:E; [|reflexivity].
    destruct (prefix_inv _ _ E) as [b ->].
    assert (C : contains "**" ("**/" ++ b) = true) by exact (contains_app "" "**" ("/" ++ b)).
    now rewrite C in H.
  - destruct (endswith pattern "/**") eqn:E; [|reflexivity].
    destruct (endswith_inv _ _ E) as [a ->].
    assert (C : contains "**" (a ++ "/**") = true).
    { assert (C := contains_app (a ++ "/") "**" ""). now rewrite app_assoc_s in C. }
    now rewrite C in H.
  - exact (contains_within "/" "**" "/" pattern H).
Qed.

Lemma has_glob_drop_slash (pattern : string) :
  startswith pattern "/" = true ->
  IgnorePattern._has_glob (drop 1 pattern) = IgnorePattern._has_glob pattern.
Proof.
  intros H. destruct (prefix_inv _ _ H) as [b ->]. reflexivity.
Qed.

Lemma startswith_slash_contains (pattern : string) :
  startswith pattern "/" = true -> contains "/" pattern = true.
Proof. apply prefix_contains. Qed.

(** What [__init__] leaves of a pattern without double star once the
    trailing slash is dealt with. *)
Lemma init_rest_single (self : IgnorePattern.t) (pattern : string) :
  contains "[" pattern = false ->
  contains "**" pattern = false ->
  IgnorePattern.init_rest self pattern
  = Ok (if IgnorePattern._has_glob pattern
        then IgnorePattern.set_regex
               (RCat (RGroup (seq_of (glob_items (unanchored pattern) []))) RAtEndString)
               (if contains "/" pattern
                then if startswith pattern "/" then IgnorePattern.set_match_basename false self
                     else self
                else IgnorePattern.set_match_basename true self)
        else IgnorePattern.set_exact_match (unanchored pattern)
               (if contains "/" pattern
                then if startswith pattern "/" then IgnorePattern.set_match_basename false self
                     else self
                else IgnorePattern.set_match_basename true self)).
Proof.
  intros B S. destruct (no_double_star pattern S) as (_ & _ & M).
  unfold IgnorePattern.init_rest, unanchored. rewrite M, S.
  destruct (startswith pattern "/") eqn:A.
  - rewrite (startswith_slash_contains pattern A), (has_glob_drop_slash pattern A).
    destruct (IgnorePattern._has_glob pattern); [|reflexivity].
    now rewrite (re_compile_translated _ (contains_char_drop "[" 1 pattern B)).
  - destruct (contains "/" pattern); cbn [negb];
      (destruct (IgnorePattern._has_glob pattern); [|reflexivity]);
      now rewrite (re_compile_translated _ B).
Qed.

Lemma match_plain (os : OS) (r : IgnorePattern.t) (full_path : string) (is_dir : option bool) :
  IgnorePattern.invalid r = None ->
  IgnorePattern.applies_to_directories r = false ->
  IgnorePattern.match_ os r full_path is_dir
  = let name := if IgnorePattern.match_basename r then OsPath.basename full_path
                else drop (String.length (IgnorePattern.root r) + 1) full_path in
    if truthy (IgnorePattern.exact_match r)
    then match IgnorePattern.exact_match r with
         | Some e => Ok (String.eqb name e)
         | None => Ok false
         end
    else match IgnorePattern.regex r with
         | Some rx => Ok (re_match rx name)
         | None => Raise AssertionError
         end.
Proof. intros I D. unfold IgnorePattern.match_. now rewrite I, D. Qed.

(** Reading the fields of a rule that is written out. *)
Ltac rule_fields :=
  cbn [IgnorePattern.root IgnorePattern.pattern IgnorePattern.description
       IgnorePattern.invalid IgnorePattern.applies_to_directories
       IgnorePattern.match_basename IgnorePattern.exact_match IgnorePattern.regex
       IgnorePattern.set_invalid IgnorePattern.set_applies_to_directories
       IgnorePattern.set_match_basename IgnorePattern.set_exact_match
       IgnorePattern.set_regex truthy negb].

(** The rule of a glob without character set and double star. *)
Lemma init_glob_rule (os : OS) (root pattern basename : string) (line_number : nat) :
  contains "[" pattern = false ->
  contains "**" pattern = false ->
  IgnorePattern._has_glob pattern = true ->
  endswith pattern "/" && negb (endswith pattern "*/") = false ->
  exists r,
    IgnorePattern.init root pattern basename line_number = Ok r
    /\ IgnorePattern.invalid r = None
    /\ IgnorePattern.applies_to_directories r = false
    /\ forall full_path is_dir,
         IgnorePattern.match_ os r full_path is_dir
         = Ok (wildcard (unanchored pattern) (compared_name root pattern full_path)).
Proof.
  intros B S G T. destruct (no_double_star pattern S) as (L & R & _).
  unfold IgnorePattern.init. rewrite T, L, R, (init_rest_single _ _ B S), G.
  eexists. split; [reflexivity|].
  unfold compared_name.
  destruct (contains "/" pattern); [destruct (startswith pattern "/")|];
    (split; [reflexivity|]); (split; [reflexivity|]); intros full_path is_dir;
    (rewrite match_plain by reflexivity); cbn; now rewrite re_match_translated.
Qed.

(** X1. A pattern with [*] or [?], without character set and double star, and
    whose trailing slash, if any, follows a star: the rule is valid and
    matches exactly the names that the glob stands for, whole; the name is
    the basename for a pattern without slash and the path below the root
    otherwise, where a leading slash of the pattern does not count. *)
Theorem glob_rule_matches_as_wildcard
    (os : OS) (root pattern basename : string) (line_number : nat) :
  contains "[" pattern = false ->
  contains "**" pattern = false ->
  IgnorePattern._has_glob pattern = true ->
  endswith pattern "/" && negb (endswith pattern "*/") = false ->
  exists r,
    IgnorePattern.init root pattern basename line_number = Ok r
    /\ IgnorePattern.invalid r = None
    /\ forall full_path is_dir,
         IgnorePattern.match_ os r full_path is_dir
         = Ok (wildcard (unanchored pattern) (compared_name root pattern full_path)).
Proof.
  intros B S G T.
  destruct (init_glob_rule os root pattern basename line_number B S G T)
    as (r & H & I & _ & M).
  exists r. now repeat split.
Qed.

Lemma glob_rule_matches_as_wildcard_witness :
  exists r,
    IgnorePattern.init "/srv/content" "*.log" ".contentignore" 2 = Ok r
    /\ IgnorePattern.match_ (example_os []) r "/srv/content/temp/x.log" (Some false) = Ok true.
Proof.
  destruct (glob_rule_matches_as_wildcard (example_os []) "/srv/content" "*.log"
              ".contentignore" 2 eq_refl eq_refl eq_refl eq_refl) as (r & H & _ & M).
  exists r. split; [exact H|]. exact (M "/srv/content/temp/x.log" (Some false)).
Defined.

(** X2. A pattern without wildcard and without trailing slash: the rule is
    valid and compares the name with the pattern for equality, the basename
    for a pattern without slash and the path below the root otherwise, where
    a leading slash of the pattern does not count. *)
Theorem plain_rule_compares_for_equality
    (os : OS) (root pattern basename : string) (line_number : nat) :
  IgnorePattern._has_glob pattern = false ->
  endswith pattern "/" = false ->
  unanchored pattern <> "" ->
  exists r,
    IgnorePattern.init root pattern basename line_number = Ok r
    /\ IgnorePattern.invalid r = None
    /\ forall full_path is_dir,
         IgnorePattern.match_ os r full_path is_dir
         = Ok (String.eqb (compared_name root pattern full_path) (unanchored pattern)).
Proof.
  intros G T N. destruct (has_glob_inv _ G) as [A Q].
  assert (S : contains "**" pattern = false) by exact (contains_with_char "*" "" "*" _ A).
  destruct (no_double_star pattern S) as (L & R & M).
  assert (E : String.eqb (unanchored pattern) "" = false) by now apply String.eqb_neq.
  unfold IgnorePattern.init. rewrite T. cbn [andb]. rewrite L, R.
  unfold IgnorePattern.init_rest. rewrite M, S.
  unfold compared_name. unfold unanchored in *.
  destruct (startswith pattern "/") eqn:P.
  - rewrite (has_glob_drop_slash pattern P), G, (startswith_slash_contains pattern P).
    eexists. split; [reflexivity|]. split; [reflexivity|]. intros full_path is_dir.
    rewrite match_plain by reflexivity. rule_fields. now rewrite E.
  - destruct (contains "/" pattern); cbn [negb]; rewrite G;
      (eexists; split; [reflexivity|]; split; [reflexivity|]); intros full_path is_dir;
      (rewrite match_plain by reflexivity); rule_fields; now rewrite E.
Qed.

Lemma plain_rule_compares_for_equality_witness :
  exists r,
    IgnorePattern.init "/srv/content" "/docs/notes.txt" ".contentignore" 2 = Ok r
    /\ IgnorePattern.match_ (example_os []) r "/srv/content/docs/notes.txt" None = Ok true.
Proof.
  destruct (plain_rule_compares_for_equality (example_os []) "/srv/content" "/docs/notes.txt"
              ".contentignore" 2 eq_refl eq_refl) as (r & H & _ & M).
  - discriminate.
  - exists r. split; [exact H|]. exact (M "/srv/content/docs/notes.txt" None).
Defined.

Lemma endswith_app_r (x y p : string) :
  endswith y p = true -> endswith (x ++ y) p = true.
Proof.
  intros H. destruct (endswith_inv _ _ H) as [a ->].
  rewrite <- app_assoc_s. apply endswith_app.
Qed.

Lemma drop_suffix (n : nat) (s : string) : exists a, s = a ++ drop n s.
Proof.
  revert n. induction s as [|c s IH]; intros n.
  - exists "". now destruct n.
  - destruct n as [|n]; [now exists ""|].
    destruct (IH n) as [a E]. exists (String c a). cbn [drop append]. now rewrite <- E.
Qed.

(** A name that a glob stands for ends with the last character of the
    glob, when that is not a wildcard. *)
Lemma wildcard_last (c : ascii) (a name : string) :
  Ascii.eqb c "*" = false -> Ascii.eqb c "?" = false ->
  wildcard (a ++ String c "") name = true -> endswith name (String c "") = true.
Proof.
  intros S Q. revert name. induction a as [|e a IH]; intros name H.
  - cbn [append wildcard] in H. rewrite S, Q in H. destruct name as [|d name]; [discriminate|].
    cbn [orb] in H. apply andb_true_iff in H. destruct H as [E H].
    apply Ascii.eqb_eq in E. apply String.eqb_eq in H. subst.
    apply (endswith_app "" (String d "")).
  - cbn [append wildcard] in H. destruct (Ascii.eqb e "*").
    + apply any_suffix_spec in H. destruct H as (x & y & -> & H).
      apply endswith_app_r. now apply IH.
    + destruct name as [|d name]; [discriminate|].
      apply andb_true_iff in H. destruct H as [_ H].
      apply (endswith_app_r (String d "") name). now apply IH.
Qed.

(** X3. A pattern that ends in a star and a slash keeps its slash and is read
    as a glob on the path below the root: it matches only names that end
    with a slash, so no path that does not end with one. *)
Theorem star_slash_rule_matches_no_path
    (os : OS) (root pattern basename : string) (line_number : nat) :
  contains "[" pattern = false ->
  contains "**" pattern = false ->
  endswith pattern "*/" = true ->
  exists r,
    IgnorePattern.init root pattern basename line_number = Ok r
    /\ IgnorePattern.invalid r = None
    /\ IgnorePattern.applies_to_directories r = false
    /\ forall full_path is_dir,
         endswith full_path "/" = false ->
         IgnorePattern.match_ os r full_path is_dir = Ok false.
Proof.
  intros B S E. destruct (endswith_inv _ _ E) as [a ->].
  assert (G : IgnorePattern._has_glob (a ++ "*/") = true).
  { unfold IgnorePattern._has_glob.
    now rewrite (contains_app a "*" "/" : contains "*" (a ++ "*/") = true). }
  assert (C' : contains "/" (a ++ "*/") = true).
  { assert (X := contains_app (a ++ "*") "/" ""). now rewrite app_assoc_s in X. }
  destruct (init_glob_rule os root (a ++ "*/") basename line_number B S G)
    as (r & H & I & D & M).
  { rewrite E. apply andb_false_r. }
  exists r. repeat split; try assumption.
  intros full_path is_dir F. rewrite M. f_equal.
  unfold compared_name. rewrite C'.
  destruct (wildcard _ _) eqn:W; [|reflexivity].
  assert (U : exists a', unanchored (a ++ "*/") = (a' ++ "*") ++ "/").
  { unfold unanchored. destruct (startswith (a ++ "*/") "/") eqn:P.
    - destruct a as [|c a]; [discriminate P|]. exists a. cbn [append drop].
      now rewrite app_assoc_s.
    - exists a. now rewrite app_assoc_s. }
  destruct U as [a' U]. rewrite U in W.
  apply wildcard_last in W; [|reflexivity|reflexivity].
  destruct (drop_suffix (String.length root + 1) full_path) as [x X].
  rewrite X in F. now rewrite (endswith_app_r x _ "/" W) in F.
Qed.

Lemma star_slash_rule_matches_no_path_witness :
  exists r,
    IgnorePattern.init "/srv/content" "build*/" ".contentignore" 1 = Ok r
    /\ IgnorePattern.match_ (example_os []) r "/srv/content/build1" (Some true) = Ok false.
Proof.
  destruct (star_slash_rule_matches_no_path (example_os []) "/srv/content" "build*/"
              ".contentignore" 1 eq_refl eq_refl eq_refl) as (r & H & _ & _ & M).
  exists r. split; [exact H|]. exact (M "/srv/content/build1" (Some true) eq_refl).
Defined.

(** The stages of [__init__] do to a rule for directories only, read from
    another line, what they do to the rule itself. *)
Lemma init_rest_directories_only (P D : string) (self : IgnorePattern.t) (pattern : string) :
  IgnorePattern.init_rest (directories_only P D self) pattern
  = r <- IgnorePattern.init_rest self pattern ;; Ok (directories_only P D r).
Proof.
  unfold IgnorePattern.init_rest.
  destruct (contains "/**/" pattern).
  - destruct (partition "/**/" pattern) as [first second].
    destruct (IgnorePattern._has_glob _); [reflexivity|].
    now destruct (re_compile _).
  - destruct (contains "**" pattern); [reflexivity|].
    destruct (startswith pattern "/").
    + destruct (IgnorePattern._has_glob _); [|reflexivity]. now destruct (re_compile _).
    + destruct (negb (contains "/" pattern));
        (destruct (IgnorePattern._has_glob _); [|reflexivity]); now destruct (re_compile _).
Qed.

Lemma init_leading_directories_only (P D : string) (self : IgnorePattern.t)
    (pattern : string) :
  IgnorePattern.init_leading (directories_only P D self) pattern
  = r <- IgnorePattern.init_leading self pattern ;; Ok (directories_only P D r).
Proof.
  unfold IgnorePattern.init_leading.
  destruct (IgnorePattern._has_glob _); [reflexivity|].
  destruct (String.eqb _ ""); [now destruct (re_compile _)|].
  destruct (contains "/" _); [|reflexivity]. now destruct (re_compile _).
Qed.

Lemma init_trailing_directories_only (P D : string) (self : IgnorePattern.t)
    (pattern : string) :
  IgnorePattern.init_trailing (directories_only P D self) pattern
  = r <- IgnorePattern.init_trailing self pattern ;; Ok (directories_only P D r).
Proof.
  unfold IgnorePattern.init_trailing.
  destruct (IgnorePattern._has_glob _); [reflexivity|].
  destruct (String.eqb _ ""); [now destruct (re_compile _)|].
  change (IgnorePattern.set_applies_to_directories true (directories_only P D self))
    with (directories_only P D (IgnorePattern.set_applies_to_directories true self)).
  apply init_rest_directories_only.
Qed.

Lemma match_directories_only (os : OS) (P D : string) (r : IgnorePattern.t)
    (full_path : string) (is_dir : option bool) :
  IgnorePattern.match_ os (directories_only P D r) full_path is_dir
  = if is_directory os full_path is_dir then IgnorePattern.match_ os r full_path is_dir
    else if truthy (IgnorePattern.invalid r) then Raise AssertionError else Ok false.
Proof.
  unfold IgnorePattern.match_, is_directory, directories_only. rule_fields.
  destruct is_dir as [[|]|]; [| |destruct (os_path_isdir os full_path)];
    destruct (truthy (IgnorePattern.invalid r));
    destruct (IgnorePattern.applies_to_directories r); reflexivity.
Qed.

Lemma endswith_snoc (q : string) (c d : ascii) :
  endswith (q ++ String d "") (String c (String d "")) = endswith q (String c "").
Proof.
  induction q as [|e q IH].
  - cbn. destruct (Ascii.eqb d c); [|reflexivity]. reflexivity.
  - cbn [append endswith]. rewrite IH. f_equal.
    cbn [String.eqb]. destruct (Ascii.eqb e c); [|reflexivity].
    destruct q as [|f q]; cbn.
    + now rewrite Ascii.eqb_refl.
    + destruct (Ascii.eqb f d); [|reflexivity]. now destruct q.
Qed.

(** X4. A slash after a pattern that ends neither in a slash nor in a star
    makes the same rule for directories only: the constructor raises where
    it raised, marks invalid what it marked invalid, and on a directory
    [match] answers as the rule of the pattern alone does; on anything else it
    answers [False]. *)
Theorem trailing_slash_restricts_to_directories
    (root q basename : string) (line_number : nat) :
  endswith q "/" = false ->
  endswith q "*" = false ->
  match IgnorePattern.init root q basename line_number with
  | Raise e => IgnorePattern.init root (q ++ "/") basename line_number = Raise e
  | Ok r' =>
      exists r,
        IgnorePattern.init root (q ++ "/") basename line_number = Ok r
        /\ IgnorePattern.invalid r = IgnorePattern.invalid r'
        /\ forall os full_path is_dir,
             IgnorePattern.match_ os r full_path is_dir
             = if is_directory os full_path is_dir
               then IgnorePattern.match_ os r' full_path is_dir
               else if truthy (IgnorePattern.invalid r') then Raise AssertionError
                    else Ok false
  end.
Proof.
  intros S T.
  assert (E : IgnorePattern.init root (q ++ "/") basename line_number
              = r <- IgnorePattern.init root q basename line_number ;;
                Ok (directories_only (q ++ "/")
                      (basename ++ ":" ++ pad2 (str_of_nat line_number) ++ ":" ++ q ++ "/") r)).
  { unfold IgnorePattern.init.
    rewrite (endswith_app q "/"), (endswith_snoc q "*" "/"), T, S. cbn [andb negb].
    change 1 with (String.length "/"). rewrite drop_last_app.
    match goal with
    | |- context [IgnorePattern.set_applies_to_directories true ?s] =>
        change (IgnorePattern.set_applies_to_directories true s)
          with (directories_only (IgnorePattern.pattern s) (IgnorePattern.description s)
                  {| IgnorePattern.root := root; IgnorePattern.pattern := q;
                     IgnorePattern.description :=
                       basename ++ ":" ++ pad2 (str_of_nat line_number) ++ ":" ++ q;
                     IgnorePattern.invalid := None;
                     IgnorePattern.applies_to_directories := false;
                     IgnorePattern.match_basename := false;
                     IgnorePattern.exact_match := None;
                     IgnorePattern.regex := None |})
    end.
    destruct (startswith q "**/"); [apply init_leading_directories_only|].
    destruct (endswith q "/**"); [apply init_trailing_directories_only|].
    apply init_rest_directories_only. }
  rewrite E. destruct (IgnorePattern.init root q basename line_number) as [r'|e];
    cbn [bind]; [|reflexivity].
  eexists. split; [reflexivity|]. split; [reflexivity|].
  intros os full_path is_dir. apply match_directories_only.
Qed.

Lemma trailing_slash_restricts_to_directories_witness :
  exists r,
    IgnorePattern.init "/srv/content" "build/" ".contentignore" 1 = Ok r
    /\ IgnorePattern.match_ (example_os []) r "/srv/content/src/build" (Some true) = Ok true
    /\ IgnorePattern.match_ (example_os []) r "/srv/content/src/build" (Some false) = Ok false.
Proof.
  destruct (trailing_slash_restricts_to_directories "/srv/content" "build"
              ".contentignore" 1 eq_refl eq_refl) as (r & H & _ & M).
  exists r. split; [exact H|]. split.
  - exact (M (example_os []) "/srv/content/src/build" (Some true)).
  - exact (M (example_os []) "/srv/content/src/build" (Some false)).
Defined.

Lemma startswith_app (p s : string) : startswith (p ++ s) p = true.
Proof. apply prefix_app. Qed.

(** X5. A leading double star before a name without wildcard and slash gives
    the rule of the name alone: both are valid and answer alike on every
    path, comparing the basename with the name for equality. *)
Theorem leading_double_star_name_is_name_rule
    (root name basename : string) (line_number : nat) :
  name <> "" ->
  IgnorePattern._has_glob name = false ->
  contains "/" name = false ->
  exists r r',
    IgnorePattern.init root ("**/" ++ name) basename line_number = Ok r
    /\ IgnorePattern.init root name basename line_number = Ok r'
    /\ IgnorePattern.invalid r = None
    /\ IgnorePattern.invalid r' = None
    /\ forall os full_path is_dir,
         IgnorePattern.match_ os r full_path is_dir
         = Ok (String.eqb (OsPath.basename full_path) name)
         /\ IgnorePattern.match_ os r' full_path is_dir
            = IgnorePattern.match_ os r full_path is_dir.
Proof.
  intros N G S. destruct (has_glob_inv _ G) as [A Q].
  assert (E : String.eqb name "" = false) by now apply String.eqb_neq.
  assert (D : contains "**" name = false) by exact (contains_with_char "*" "" "*" _ A).
  destruct (no_double_star name D) as (L & R & M).
  assert (T : endswith name "/" = false) by exact (endswith_with_char "/" "" "" _ S).
  assert (P : startswith name "/" = false) by exact (contains_false_prefix "/" "" _ S).
  eexists _, _. split; [|split].
  - unfold IgnorePattern.init.
    rewrite (endswith_char_app "**/" name "/" N), T. cbn [andb].
    rewrite (startswith_app "**/" name).
    unfold IgnorePattern.init_leading.
    change (drop 3 ("**/" ++ name)) with name. cbv zeta. rewrite G, E, S. reflexivity.
  - unfold IgnorePattern.init. rewrite T. cbn [andb]. rewrite L, R.
    unfold IgnorePattern.init_rest. rewrite M, D, P, S. cbn [negb]. rewrite G. reflexivity.
  - split; [reflexivity|]. split; [reflexivity|]. intros os full_path is_dir.
    rewrite !match_plain by reflexivity. rule_fields. cbv zeta. now rewrite E.
Qed.

Lemma leading_double_star_name_is_name_rule_witness :
  exists r,
    IgnorePattern.init "/srv/content" "**/node_modules" ".contentignore" 7 = Ok r
    /\ IgnorePattern.match_ (example_os []) r "/srv/content/a/b/node_modules" None = Ok true.
Proof.
  destruct (leading_double_star_name_is_name_rule "/srv/content" "node_modules"
              ".contentignore" 7) as (r & r' & H & _ & _ & _ & M).
  - discriminate.
  - reflexivity.
  - reflexivity.
  - exists r. split; [exact H|].
    exact (proj1 (M (example_os []) "/srv/content/a/b/node_modules" None)).
Defined.

Lemma has_glob_app_slash (s : string) :
  IgnorePattern._has_glob (s ++ "/") = IgnorePattern._has_glob s.
Proof.
  unfold IgnorePattern._has_glob. rewrite !contains_char_app. cbn. now rewrite !orb_false_r.
Qed.

(** The constructor on a leading double star before a part with a
    wildcard: the rule is marked too complex. *)
Lemma init_leading_with_wildcard (root rest basename : string) (line_number : nat) :
  IgnorePattern._has_glob rest = true ->
  exists pat,
    IgnorePattern.init root ("**/" ++ rest) basename line_number = Ok pat
    /\ IgnorePattern.invalid pat = Some "Too complex"
    /\ IgnorePattern.pattern pat = "**/" ++ rest.
Proof.
  intros G. unfold IgnorePattern.init.
  destruct (endswith ("**/" ++ rest) "/" && negb (endswith ("**/" ++ rest) "*/")) eqn:T.
  - apply andb_true_iff in T. destruct T as [T _].
    assert (N : rest <> "") by (intros ->; discriminate G).
    rewrite (endswith_char_app "**/" rest "/" N) in T.
    destruct (endswith_inv _ _ T) as [a ->].
    rewrite <- app_assoc_s. change 1 with (String.length "/"). rewrite drop_last_app.
    rewrite (startswith_app "**/" a). unfold IgnorePattern.init_leading.
    change (drop 3 ("**/" ++ a)) with a. cbv zeta.
    rewrite has_glob_app_slash in G. rewrite G.
    eexists. split; [reflexivity|]. now split.
  - rewrite (startswith_app "**/" rest). unfold IgnorePattern.init_leading.
    change (drop 3 ("**/" ++ rest)) with rest. cbv zeta. rewrite G.
    eexists. split; [reflexivity|]. now split.
Qed.

(** X6. A line with a leading double star before anything with [*] or [?],
    such as [**/*.pyc], gives no rule: [add] writes the pattern, marked too
    complex, to the diagnostics and leaves the active rules as they were, so
    [match] answers as before. *)
Theorem leading_double_star_with_wildcard_gives_no_rule
    (self : IgnoredFiles.t) (rest : string) (line_number : nat) :
  IgnorePattern._has_glob rest = true ->
  exists self' pat,
    IgnoredFiles.add self ("**/" ++ rest) line_number = Ok self'
    /\ IgnoredFiles.invalid self'
       = (IgnoredFiles.invalid self ++ [IgnoredFiles.DiagPattern pat])%list
    /\ IgnorePattern.invalid pat = Some "Too complex"
    /\ IgnorePattern.pattern pat = "**/" ++ rest
    /\ IgnoredFiles._regexes self' = IgnoredFiles._regexes self
    /\ forall os path is_dir,
         IgnoredFiles.match_ os self' path is_dir = IgnoredFiles.match_ os self path is_dir.
Proof.
  intros G. unfold IgnoredFiles.add.
  destruct (init_leading_with_wildcard (IgnoredFiles.root self) rest
              (IgnoredFiles.basename self) line_number G) as (pat & -> & I & P).
  cbn [bind]. rewrite I. cbn [truthy String.eqb negb].
  eexists _, pat. split; [reflexivity|]. now repeat split.
Qed.

Lemma leading_double_star_with_wildcard_gives_no_rule_witness :
  exists self',
    IgnoredFiles.add (IgnoredFiles.Build_t "/srv/content" [] [] ".contentignore")
      "**/*.pyc" 3 = Ok self'
    /\ IgnoredFiles._regexes self' = [].
Proof.
  destruct (leading_double_star_with_wildcard_gives_no_rule
              (IgnoredFiles.Build_t "/srv/content" [] [] ".contentignore") "*.pyc" 3 eq_refl)
    as (self' & pat & H & _ & _ & _ & R & _).
  exists self'. split; [exact H | exact R].
Defined.

End RuleFacts.

(** ** The rule set *)

Section RuleSetFacts.

Variable os : OS.

(** The loop of [match] does not come to its end when a rule matches. *)
Lemma match_rules_with_match (rules : list IgnorePattern.t) (r : IgnorePattern.t)
    (path : string) (is_dir : option bool) :
  In r rules ->
  IgnorePattern.match_ os r path is_dir = Ok true ->
  IgnoredFiles.match_rules os rules path is_dir <> Ok None.
Proof.
  induction rules as [|x rules IH]; intros I M; [destruct I|].
  cbn [IgnoredFiles.match_rules].
  destruct I as [->|I].
  - rewrite M. cbn [bind]. discriminate.
  - destruct (IgnorePattern.match_ os x path is_dir) as [[|]|e]; cbn [bind];
      [discriminate | now apply IH | discriminate].
Qed.

(** The rule that [__init__] adds for [.git/]. *)
Lemma add_default_rule (self : IgnoredFiles.t) :
  exists r,
    IgnoredFiles.add self ".git/" 0 = Ok (IgnoredFiles.regexes_add r self)
    /\ forall full_path is_dir,
         OsPath.basename full_path = ".git" ->
         is_directory os full_path is_dir = true ->
         IgnorePattern.match_ os r full_path is_dir = Ok true.
Proof.
  unfold IgnoredFiles.add.
  change (IgnorePattern.init (IgnoredFiles.root self) ".git/" (IgnoredFiles.basename self) 0)
    with (Ok {| IgnorePattern.root := IgnoredFiles.root self;
                IgnorePattern.pattern := ".git/";
                IgnorePattern.description :=
                  (IgnoredFiles.basename self ++ ":" ++ pad2 (str_of_nat 0) ++ ":"
                   ++ ".git/")%string;
                IgnorePattern.invalid := None;
                IgnorePattern.applies_to_directories := true;
                IgnorePattern.match_basename := true;
                IgnorePattern.exact_match := Some ".git";
                IgnorePattern.regex := None |}).
  cbn [bind IgnorePattern.invalid truthy]. eexists. split; [reflexivity|].
  intros full_path is_dir B D.
  unfold IgnorePattern.match_. unfold is_directory in D. cbn. rewrite D, B. reflexivity.
Qed.

(** X7. With the default ignores the constructor always returns, whatever the
    ignore file holds or fails to hold, and the object it returns never
    lets a directory named [.git] pass: [match] on it returns a rule, or
    fails on an unusable rule, and never [None]. *)
Theorem default_rule_ignores_git_directories (path basename : string) :
  exists self,
    IgnoredFiles.init os path basename true = Ok self
    /\ forall full_path is_dir,
         OsPath.basename full_path = ".git" ->
         is_directory os full_path is_dir = true ->
         IgnoredFiles.match_ os self full_path is_dir <> Ok None.
Proof.
  unfold IgnoredFiles.init.
  match goal with
  | |- context [IgnoredFiles.parse_gitignore os ?s0 ?p] =>
      destruct (add_default_rule (IgnoredFiles.parse_gitignore os s0 p)) as (r & -> & M)
  end.
  eexists. split; [reflexivity|].
  intros full_path is_dir B D. unfold IgnoredFiles.match_.
  cbn [IgnoredFiles._regexes IgnoredFiles.regexes_add].
  eapply match_rules_with_match.
  - apply in_or_app. right. left. reflexivity.
  - now apply M.
Qed.

Lemma ignored_existsb (self : IgnoredFiles.t) (path : string) (is_dir : bool) :
  forallb usable (IgnoredFiles._regexes self) = true ->
  ignored os self path is_dir
  = existsb (rule_matches os path is_dir) (IgnoredFiles._regexes self).
Proof.
  unfold ignored, IgnoredFiles.match_. induction (IgnoredFiles._regexes self) as [|r rules IH];
    cbn [forallb IgnoredFiles.match_rules existsb]; intros U; [reflexivity|].
  apply andb_true_iff in U. destruct U as [U1 U2]. unfold rule_matches at 1.
  destruct (usable_match os r path (Some is_dir) U1) as [b ->]. cbn [bind].
  destruct b; [reflexivity|]. now apply IH.
Qed.

Lemma existsb_Permutation {A : Type} (f : A -> bool) (l l' : list A) :
  Permutation l l' -> existsb f l = existsb f l'.
Proof.
  intros P. induction P; cbn [existsb].
  - reflexivity.
  - now rewrite IHP.
  - now rewrite !orb_assoc, (orb_comm (f y)).
  - now rewrite IHP1.
Qed.

Lemma forallb_Permutation {A : Type} (f : A -> bool) (l l' : list A) :
  Permutation l l' -> forallb f l = forallb f l'.
Proof.
  intros P. induction P; cbn [forallb].
  - reflexivity.
  - now rewrite IHP.
  - now rewrite !andb_assoc, (andb_comm (f y)).
  - now rewrite IHP1.
Qed.

Lemma filter_ext_map {A B : Type} (f g : A -> bool) (h : A -> B) (l : list A) :
  (forall x, f x = g x) -> map h (filter f l) = map h (filter g l).
Proof. intros E. now rewrite (filter_ext f g E). Qed.

(** X8. [_regexes] is a set, and a set has no order of its own: with usable
    rules the files that [list_files] reports do not depend on the order in
    which the rules are visited. *)
Theorem listing_is_independent_of_rule_order
    (self self' : IgnoredFiles.t) (mypath : string) (t : tree) :
  Permutation (IgnoredFiles._regexes self) (IgnoredFiles._regexes self') ->
  forallb usable (IgnoredFiles._regexes self) = true ->
  list_files_walk os self mypath t = list_files_walk os self' mypath t
  /\ forall path is_dir, ignored os self path is_dir = ignored os self' path is_dir.
Proof.
  intros P U.
  assert (U' : forallb usable (IgnoredFiles._regexes self') = true)
    by now rewrite <- (forallb_Permutation usable _ _ P).
  assert (I : forall path is_dir, ignored os self path is_dir = ignored os self' path is_dir).
  { intros path is_dir. rewrite !ignored_existsb by assumption.
    now apply existsb_Permutation. }
  split; [|exact I].
  unfold list_files_walk.
  rewrite (list_files_walk_from os self mypath U), (list_files_walk_from os self' mypath U').
  cbn [app]. do 2 f_equal. apply filter_ext. intros e. unfold kept. rewrite I. f_equal.
  induction (fst e) as [|d ds IH]; [reflexivity|].
  cbn [forallb]. now rewrite I, IH.
Qed.

Lemma filter_Subseq {A : Type} (f g : A -> bool) (l : list A) :
  (forall x, f x = true -> g x = true) -> Subseq (filter f l) (filter g l).
Proof.
  intros H. induction l as [|x l IH]; cbn [filter]; [constructor|].
  destruct (f x) eqn:F.
  - rewrite (H x F). now constructor.
  - destruct (g x); [now constructor | exact IH].
Qed.

Lemma map_Subseq {A B : Type} (h : A -> B) (l l' : list A) :
  Subseq l l' -> Subseq (map h l) (map h l').
Proof. intros S. induction S; cbn [map]; now constructor. Qed.

(** X9. With usable rules, more rules never give more files: what [list_files]
    reports under a larger rule set is what it reports under the smaller
    one with some files left out. *)
Theorem more_rules_list_fewer_files
    (self self' : IgnoredFiles.t) (mypath : string) (t : tree) :
  incl (IgnoredFiles._regexes self) (IgnoredFiles._regexes self') ->
  forallb usable (IgnoredFiles._regexes self) = true ->
  forallb usable (IgnoredFiles._regexes self') = true ->
  exists files files',
    list_files_walk os self mypath t = Ok files
    /\ list_files_walk os self' mypath t = Ok files'
    /\ Subseq files' files.
Proof.
  intros I U U'. unfold list_files_walk.
  rewrite (list_files_walk_from os self mypath U), (list_files_walk_from os self' mypath U').
  eexists _, _. split; [reflexivity|]. split; [reflexivity|]. cbn [app].
  apply map_Subseq, filter_Subseq.
  assert (M : forall path is_dir,
             ignored os self' path is_dir = false -> ignored os self path is_dir = false).
  { intros path is_dir. rewrite !ignored_existsb by assumption.
    intros H. destruct (existsb _ (IgnoredFiles._regexes self)) eqn:E; [|reflexivity].
    apply existsb_exists in E. destruct E as (r & In_r & E).
    rewrite <- H. symmetry. apply existsb_exists. exists r. split; [now apply I | exact E]. }
  intros e. unfold kept. rewrite !andb_true_iff, !negb_true_iff, !forallb_forall.
  intros [A B]. split; [|now apply M].
  intros d In_d. apply negb_true_iff, M, negb_true_iff. now apply A.
Qed.

(** X10. With the default ignores and usable rules, [list_files] lists nothing
    that lies below a directory named [.git], at any depth: what it returns
    are the reported paths of entries of the listing none of which has such
    a directory above it. *)
Theorem list_files_lists_nothing_below_git (mypath : string) (t : tree)
    (self : IgnoredFiles.t) :
  IgnoredFiles.init os mypath ".contentignore" true = Ok self ->
  forallb usable (IgnoredFiles._regexes self) = true ->
  exists entries,
    list_files os mypath t = Ok (map (fun e => reported mypath (snd e)) entries)
    /\ forall e, In e entries ->
                 In e (listing mypath t)
                 /\ forall d, In d (fst e) -> OsPath.basename d <> ".git".
Proof.
  intros H U. unfold list_files. rewrite H. cbn [bind]. unfold list_files_walk.
  rewrite (list_files_walk_from os self mypath U). cbn [app].
  eexists. split; [reflexivity|].
  intros e I. apply filter_In in I. destruct I as [I K]. split; [exact I|].
  intros d In_d B.
  unfold kept in K. apply andb_true_iff in K. destruct K as [K _].
  rewrite forallb_forall in K. specialize (K d In_d). apply negb_true_iff in K.
  rewrite (ignored_existsb self d true U) in K.
  unfold IgnoredFiles.init in H.
  match type of H with
  | context [IgnoredFiles.parse_gitignore os ?s0 ?p] =>
      destruct (add_default_rule (IgnoredFiles.parse_gitignore os s0 p)) as (r & E & M)
  end.
  rewrite E in H. injection H as <-.
  assert (X : existsb (rule_matches os d true)
                (IgnoredFiles._regexes
                   (IgnoredFiles.regexes_add r
                      (IgnoredFiles.parse_gitignore os
                         {| IgnoredFiles.root := os_path_abspath os mypath;
                            IgnoredFiles.invalid := [];
                            IgnoredFiles._regexes := [];
                            IgnoredFiles.basename := ".contentignore" |}
                         (OsPath.join (OsPath.dirname (os_path_abspath os mypath))
                            ".contentignore")))) = true).
  { apply existsb_exists. exists r. split.
    - cbn. apply in_or_app. right. now left.
    - unfold rule_matches. now rewrite (M d (Some true) B eq_refl). }
  cbn [IgnoredFiles.root] in K. rewrite X in K. discriminate K.
Qed.

End RuleSetFacts.

Lemma listing_is_independent_of_rule_order_witness :
  list_files_walk (example_os [])
    (example_rule_set [example_rule "build" 1; example_rule "a.txt" 2])
    "/srv/content" example_tree
  = list_files_walk (example_os [])
      (example_rule_set [example_rule "a.txt" 2; example_rule "build" 1])
      "/srv/content" example_tree.
Proof.
  apply (listing_is_independent_of_rule_order (example_os [])
           (example_rule_set [example_rule "build" 1; example_rule "a.txt" 2])
           (example_rule_set [example_rule "a.txt" 2; example_rule "build" 1])
           "/srv/content" example_tree (perm_swap _ _ []) eq_refl).
Defined.

Lemma more_rules_list_fewer_files_witness :
  exists files files',
    list_files_walk (example_os []) (example_rule_set [example_rule "build" 1])
      "/srv/content" example_tree = Ok files
    /\ list_files_walk (example_os [])
         (example_rule_set [example_rule "a.txt" 2; example_rule "build" 1])
         "/srv/content" example_tree = Ok files'
    /\ Subseq files' files.
Proof.
  apply (more_rules_list_fewer_files (example_os [])
           (example_rule_set [example_rule "build" 1])
           (example_rule_set [example_rule "a.txt" 2; example_rule "build" 1])
           "/srv/content" example_tree (incl_tl _ (incl_refl _)) eq_refl eq_refl).
Defined.

Lemma list_files_lists_nothing_below_git_witness :
  exists entries,
    list_files (example_os ["build/"]) "/srv/content"
      (Dir [("src", Dir [(".git", Dir [] ["HEAD"])] ["a.py"])] ["a.txt"])
    = Ok (map (fun e => reported "/srv/content" (snd e)) entries)
    /\ forall e, In e entries ->
                 In e (listing "/srv/content"
                         (Dir [("src", Dir [(".git", Dir [] ["HEAD"])] ["a.py"])] ["a.txt"]))
                 /\ forall d, In d (fst e) -> OsPath.basename d <> ".git".
Proof.
  apply (list_files_lists_nothing_below_git (example_os ["build/"]) "/srv/content"
           (Dir [("src", Dir [(".git", Dir [] ["HEAD"])] ["a.py"])] ["a.txt"])
           example_ignores eq_refl eq_refl).
Defined.

Section LoadingMore.




End LoadingMore.

Section OriginFacts.

(** Case analysis on a stage of [__init__] that has returned a rule. *)
Ltac returned H :=
  repeat match type of H with
    | context [if ?b then _ else _] => destruct b
    | context [let (_, _) := ?x in _] => destruct x
    | bind ?m _ = Ok _ => destruct m; cbn [bind] in H
    | Raise _ = Ok _ => discriminate H
    end.

Lemma init_rest_origin (self r : IgnorePattern.t) (pattern : string) :
  IgnorePattern.init_rest self pattern = Ok r ->
  IgnorePattern.root r = IgnorePattern.root self
  /\ IgnorePattern.pattern r = IgnorePattern.pattern self
  /\ IgnorePattern.description r = IgnorePattern.description self.
Proof.
  unfold IgnorePattern.init_rest. intros H.
  returned H; injection H as <-; now repeat split.
Qed.

Lemma init_leading_origin (self r : IgnorePattern.t) (pattern : string) :
  IgnorePattern.init_leading self pattern = Ok r ->
  IgnorePattern.root r = IgnorePattern.root self
  /\ IgnorePattern.pattern r = IgnorePattern.pattern self
  /\ IgnorePattern.description r = IgnorePattern.description self.
Proof.
  unfold IgnorePattern.init_leading. intros H.
  returned H; injection H as <-; now repeat split.
Qed.

Lemma init_trailing_origin (self r : IgnorePattern.t) (pattern : string) :
  IgnorePattern.init_trailing self pattern = Ok r ->
  IgnorePattern.root r = IgnorePattern.root self
  /\ IgnorePattern.pattern r = IgnorePattern.pattern self
  /\ IgnorePattern.description r = IgnorePattern.description self.
Proof.
  unfold IgnorePattern.init_trailing. intros H.
  destruct (IgnorePattern._has_glob _); [injection H as <-; now repeat split|].
  destruct (String.eqb _ "").
  - returned H. injection H as <-. now repeat split.
  - apply init_rest_origin in H. exact H.
Qed.

(** Whatever the constructor makes of a pattern, the rule keeps the root,
    the text of the pattern and the line it was read from. *)
Lemma init_origin (root pattern basename : string) (line_number : nat) (r : IgnorePattern.t) :
  IgnorePattern.init root pattern basename line_number = Ok r ->
  from_line root basename line_number pattern r.
Proof.
  unfold IgnorePattern.init, from_line. intros H.
  destruct (endswith pattern "/" && negb (endswith pattern "*/"));
    (destruct (startswith _ "**/");
     [apply init_leading_origin in H; exact H|];
     destruct (endswith _ "/**");
     [apply init_trailing_origin in H; exact H|];
     apply init_rest_origin in H; exact H).
Qed.

Lemma add_origin (self self' : IgnoredFiles.t) (pattern : string) (line_number : nat) :
  IgnoredFiles.add self pattern line_number = Ok self' ->
  IgnoredFiles.root self' = IgnoredFiles.root self
  /\ IgnoredFiles.basename self' = IgnoredFiles.basename self
  /\ forall r, In r (IgnoredFiles._regexes self') ->
               In r (IgnoredFiles._regexes self)
               \/ from_line (IgnoredFiles.root self) (IgnoredFiles.basename self)
                    line_number pattern r.
Proof.
  unfold IgnoredFiles.add. intros H.
  destruct (IgnorePattern.init _ _ _ _) as [pat|e] eqn:E; [|discriminate H].
  cbn [bind] in H. apply init_origin in E.
  destruct (truthy _); injection H as <-; cbn; repeat split; auto.
  intros r I. apply in_app_or in I. destruct I as [I|[<-|[]]]; auto.
Qed.

Lemma parse_line_origin (self self' : IgnoredFiles.t) (line_number : nat) (line : string) :
  IgnoredFiles.parse_line self line_number line = Ok self' ->
  IgnoredFiles.root self' = IgnoredFiles.root self
  /\ IgnoredFiles.basename self' = IgnoredFiles.basename self
  /\ forall r, In r (IgnoredFiles._regexes self') ->
               In r (IgnoredFiles._regexes self)
               \/ (effective line = true
                   /\ from_line (IgnoredFiles.root self) (IgnoredFiles.basename self)
                        line_number (strip line) r).
Proof.
  unfold IgnoredFiles.parse_line, effective. intros H.
  destruct (_ || _); [injection H as <-; auto|].
  destruct (startswith _ "!"); [injection H as <-; cbn; auto|].
  destruct (add_origin _ _ _ _ H) as (R & B & O). repeat split; auto.
  intros r I. destruct (O r I); auto.
Qed.

Lemma parse_lines_origin (lines : list string) :
  forall (self : IgnoredFiles.t) (n : nat),
    let self' := fst (IgnoredFiles.parse_lines self n lines) in
    IgnoredFiles.root self' = IgnoredFiles.root self
    /\ IgnoredFiles.basename self' = IgnoredFiles.basename self
    /\ forall r, In r (IgnoredFiles._regexes self') ->
                 In r (IgnoredFiles._regexes self)
                 \/ exists k line,
                      nth_error lines k = Some line
                      /\ effective line = true
                      /\ from_line (IgnoredFiles.root self) (IgnoredFiles.basename self)
                           (n + k + 1) (strip line) r.
Proof.
  induction lines as [|line lines IH]; intros self n; cbn zeta.
  - cbn. auto.
  - cbn [IgnoredFiles.parse_lines].
    destruct (IgnoredFiles.parse_line self (n + 1) line) as [self1|e] eqn:E; [|cbn; auto].
    destruct (parse_line_origin _ _ _ _ E) as (R1 & B1 & O1).
    destruct (IH self1 (n + 1)) as (R & B & O). cbn zeta in *.
    rewrite R, B, R1, B1. repeat split; auto.
    intros r I. destruct (O r I) as [I1|(k & l & N & F & L)].
    + destruct (O1 r I1) as [I0|[F L]]; [now left|].
      right. exists 0, line. rewrite Nat.add_0_r.
      split; [reflexivity|]. split; [exact F | exact L].
    + right. exists (S k), l. rewrite R1, B1 in L.
      replace (n + S k + 1) with (n + 1 + k + 1) by lia.
      split; [exact N|]. split; [exact F | exact L].
Qed.

(** X12. Every active rule of a constructed [IgnoredFiles] says where it comes
    from: it holds the root of the object, and it is either the default
    rule [.git/] at line 0 or the rule of a line of the ignore file that is
    neither blank nor a comment; its pattern is the stripped line and its
    description names the basename of the file and the line, counted from
    one. *)
Theorem rules_come_from_lines
    (os : OS) (path basename : string) (use_default_ignores : bool)
    (self : IgnoredFiles.t) (r : IgnorePattern.t) :
  IgnoredFiles.init os path basename use_default_ignores = Ok self ->
  In r (IgnoredFiles._regexes self) ->
  (use_default_ignores = true
   /\ from_line (os_path_abspath os path) basename 0 ".git/" r)
  \/ exists lines k line,
       read_lines os (OsPath.join (OsPath.dirname (os_path_abspath os path)) basename)
       = Some lines
       /\ nth_error lines k = Some line
       /\ effective line = true
       /\ from_line (os_path_abspath os path) basename (k + 1) (strip line) r.
Proof.
  unfold IgnoredFiles.init. cbn [IgnoredFiles.root].
  set (self0 := {| IgnoredFiles.root := os_path_abspath os path; IgnoredFiles.invalid := [];
                   IgnoredFiles._regexes := []; IgnoredFiles.basename := basename |}).
  set (file := OsPath.join (OsPath.dirname (os_path_abspath os path)) basename).
  assert (P : IgnoredFiles.root (IgnoredFiles.parse_gitignore os self0 file)
              = os_path_abspath os path
              /\ IgnoredFiles.basename (IgnoredFiles.parse_gitignore os self0 file) = basename
              /\ forall r,
                   In r (IgnoredFiles._regexes (IgnoredFiles.parse_gitignore os self0 file)) ->
                   exists lines k line,
                     read_lines os file = Some lines
                     /\ nth_error lines k = Some line
                     /\ effective line = true
                     /\ from_line (os_path_abspath os path) basename (k + 1) (strip line) r).
  { unfold IgnoredFiles.parse_gitignore.
    destruct (read_lines os file) as [lines|]; [|cbn; repeat split; intros ? []].
    destruct (parse_lines_origin lines self0 0) as (R & B & O). cbn zeta in *.
    destruct (IgnoredFiles.parse_lines self0 0 lines) as [self1 [e|]];
      cbn [fst IgnoredFiles.root IgnoredFiles.basename IgnoredFiles._regexes
           IgnoredFiles.invalid_append] in *;
      (repeat split; [exact R | exact B |]);
      intros r0 I; (destruct (O r0 I) as [[]|(k & l & N & F & L)]);
      exists lines, k, l; (split; [reflexivity|]); (split; [exact N|]);
      (split; [exact F|]); exact L. }
  destruct P as (R & B & O). intros H I.
  destruct use_default_ignores.
  - destruct (add_origin _ _ _ _ H) as (_ & _ & A).
    destruct (A r I) as [I0|L].
    + right. now apply O.
    + left. rewrite R, B in L. now split.
  - injection H as <-. right. now apply O.
Qed.

End OriginFacts.

Lemma rules_come_from_lines_witness :
  exists lines k line,
    read_lines (example_os ["# build output"; "build/"]) "/srv/.contentignore" = Some lines
    /\ nth_error lines k = Some line
    /\ effective line = true
    /\ from_line "/srv/content" ".contentignore" (k + 1) (strip line)
         (IgnorePattern.Build_t "/srv/content" "build/" ".contentignore: 2:build/" None
            true true (Some "build") None).
Proof.
  destruct (rules_come_from_lines (example_os ["# build output"; "build/"])
              "/srv/content" ".contentignore" true
              (IgnoredFiles.Build_t "/srv/content" []
                 [IgnorePattern.Build_t "/srv/content" "build/" ".contentignore: 2:build/"
                    None true true (Some "build") None;
                  IgnorePattern.Build_t "/srv/content" ".git/" ".contentignore: 0:.git/"
                    None true true (Some ".git") None] ".contentignore")
              (IgnorePattern.Build_t "/srv/content" "build/" ".contentignore: 2:build/" None
                 true true (Some "build") None)
              eq_refl (or_introl eq_refl)) as [[_ (_ & E & _)]|H].
  - discriminate E.
  - exact H.
Defined.

Section CountingFacts.

Lemma lstrip_suffix (s : string) : exists a, s = (a ++ lstrip s)%string.
Proof.
  induction s as [|c s IH]; [now exists ""|].
  cbn [lstrip]. destruct (isspace c); [|now exists ""].
  destruct IH as [a E]. exists (String c a). cbn [append]. now rewrite <- E.
Qed.

Lemma rstrip_prefix (s : string) : exists b, s = (rstrip s ++ b)%string.
Proof.
  induction s as [|c s IH]; [now exists ""|].
  cbn [rstrip]. destruct IH as [b E]. destruct (rstrip s) as [|d r].
  - destruct (isspace c); [now exists (String c s) | now exists s].
  - exists b. cbn [append] in *. now rewrite <- E.
Qed.

Lemma strip_without_char (c : ascii) (s : string) :
  contains (String c "") s = false -> contains (String c "") (strip s) = false.
Proof.
  intros H. unfold strip.
  destruct (lstrip_suffix s) as [a E]. rewrite E, contains_char_app in H.
  apply orb_false_iff in H. destruct H as [_ H].
  destruct (rstrip_prefix (lstrip s)) as [b F]. rewrite F, contains_char_app in H.
  now apply orb_false_iff in H.
Qed.

Lemma parse_line_count (self : IgnoredFiles.t) (line_number : nat) (line : string) :
  contains "[" line = false ->
  exists self',
    IgnoredFiles.parse_line self line_number line = Ok self'
    /\ IgnoredFiles.__len__ self' + List.length (IgnoredFiles.invalid self')
       = IgnoredFiles.__len__ self + List.length (IgnoredFiles.invalid self)
         + if effective line then 1 else 0.
Proof.
  intros B. unfold IgnoredFiles.parse_line, effective, IgnoredFiles.__len__.
  destruct (_ || _); cbn [negb].
  - exists self. split; [reflexivity | lia].
  - destruct (startswith _ "!").
    + eexists. split; [reflexivity|]. cbn. rewrite length_app. cbn. lia.
    + unfold IgnoredFiles.add.
      destruct (init_returns_without_character_set (IgnoredFiles.root self) (strip line)
                  (IgnoredFiles.basename self) line_number (strip_without_char "[" line B))
        as [pat ->].
      cbn [bind]. destruct (truthy _); eexists; (split; [reflexivity|]);
        cbn; rewrite length_app; cbn; lia.
Qed.

Lemma parse_lines_count (lines : list string) :
  forall (self : IgnoredFiles.t) (n : nat),
    (forall line, In line lines -> contains "[" line = false) ->
    exists self',
      IgnoredFiles.parse_lines self n lines = (self', None)
      /\ IgnoredFiles.__len__ self' + List.length (IgnoredFiles.invalid self')
         = IgnoredFiles.__len__ self + List.length (IgnoredFiles.invalid self)
           + List.length (filter effective lines).
Proof.
  induction lines as [|line lines IH]; intros self n B.
  - exists self. split; [reflexivity | cbn; lia].
  - cbn [IgnoredFiles.parse_lines filter].
    destruct (parse_line_count self (n + 1) line (B line (or_introl eq_refl)))
      as (self1 & -> & C1).
    destruct (IH self1 (n + 1) (fun l I => B l (or_intror I))) as (self' & -> & C).
    exists self'. split; [reflexivity|]. rewrite C, C1.
    destruct (effective line); cbn [List.length]; lia.
Qed.

(** X13. An ignore file without character sets is read to its end, and every
    line that is neither blank nor a comment is accounted for: it adds one
    active rule or one diagnostic, so that the two numbers that [repr]
    shows grow together by the number of such lines. *)
Theorem every_effective_line_is_counted
    (os : OS) (self : IgnoredFiles.t) (path : string) (lines : list string) :
  read_lines os path = Some lines ->
  (forall line, In line lines -> contains "[" line = false) ->
  exists rules diagnostics,
    IgnoredFiles.__len__ (IgnoredFiles.parse_gitignore os self path) = rules
    /\ IgnoredFiles.__repr__ (IgnoredFiles.parse_gitignore os self path)
       = (str_of_nat rules ++ " ignores, " ++ str_of_nat diagnostics ++ " invalid")%string
    /\ rules + diagnostics
       = IgnoredFiles.__len__ self + List.length (IgnoredFiles.invalid self)
         + List.length (filter effective lines).
Proof.
  intros R B. unfold IgnoredFiles.parse_gitignore. rewrite R.
  destruct (parse_lines_count lines self 0 B) as (self' & -> & C).
  eexists _, _. split; [reflexivity|]. split; [reflexivity | exact C].
Qed.

End CountingFacts.

Lemma every_effective_line_is_counted_witness :
  exists rules diagnostics,
    IgnoredFiles.__repr__
      (IgnoredFiles.parse_gitignore (example_os ["# output"; "build/"; ""; "!keep"; "**/*.pyc"])
         (example_rule_set []) "/srv/.contentignore")
    = (str_of_nat rules ++ " ignores, " ++ str_of_nat diagnostics ++ " invalid")%string
    /\ rules + diagnostics = 3.
Proof.
  destruct (every_effective_line_is_counted
              (example_os ["# output"; "build/"; ""; "!keep"; "**/*.pyc"])
              (example_rule_set []) "/srv/.contentignore"
              ["# output"; "build/"; ""; "!keep"; "**/*.pyc"] eq_refl)
    as (rules & diagnostics & _ & R & C).
  - intros line I. repeat (destruct I as [<-|I]; [reflexivity|]). destruct I.
  - exists rules, diagnostics. split; [exact R | exact C].
Defined.

(** ** The paths that [list_files] reports *)

Section ReplaceFacts.

Local Open Scope string_scope.

Lemma replace_from_skip (a old new rest : string) :
  replace_from (String.length a) old new (a ++ rest) = replace_from 0 old new rest.
Proof.
  induction a as [|c a IH]; [reflexivity|]. exact IH.
Qed.

Lemma replace_from_absent (old new s : string) :
  contains old s = false -> replace_from 0 old new s = s.
Proof.
  induction s as [|c s IH]; [reflexivity|].
  cbn [contains replace_from]. intros H. apply orb_false_iff in H. destruct H as [-> H].
  now rewrite IH.
Qed.

Lemma replace_from_length (old s : string) :
  forall k, String.length (replace_from k old "" s) <= String.length s.
Proof.
  induction s as [|c s IH]; intros k; [reflexivity|].
  cbn [replace_from String.length]. destruct k as [|k].
  - destruct (String.prefix old (String c s)).
    + cbn [append]. specialize (IH (String.length old - 1)). lia.
    + cbn [String.length]. specialize (IH 0). lia.
  - specialize (IH k). lia.
Qed.

Lemma replace_from_shorter (old s : string) :
  contains old s = true -> old <> "" ->
  String.length (replace_from 0 old "" s) < String.length s.
Proof.
  intros H N. induction s as [|c s IH].
  - cbn [contains] in H. destruct old; [contradiction | discriminate H].
  - cbn [replace_from String.length]. destruct (String.prefix old (String c s)) eqn:P.
    + cbn [append]. assert (L := replace_from_length old s (String.length old - 1)). lia.
    + cbn [contains] in H. rewrite P in H. cbn [orb] in H. specialize (IH H).
      cbn [String.length]. lia.
Qed.

(** X14. [list_files] reports a file of the tree at [mypath] by its path below
    [mypath] exactly when that path does not hold [mypath] and a slash
    again: [str.replace] takes out every occurrence, not only the leading
    one. *)
Theorem reported_is_the_relative_path (mypath rel : string) :
  reported mypath (mypath ++ "/" ++ rel) = rel <-> contains (mypath ++ "/") rel = false.
Proof.
  unfold reported, replace.
  assert (E : replace_from 0 (mypath ++ "/") "" (mypath ++ "/" ++ rel)
              = replace_from 0 (mypath ++ "/") "" rel).
  { rewrite <- app_assoc_s.
    destruct (mypath ++ "/") as [|c old] eqn:O.
    - destruct mypath; discriminate O.
    - cbn [append replace_from].
      rewrite (prefix_app (String c old) rel
               : String.prefix (String c old) (String c (old ++ rel)) = true).
      replace (String.length (String c old) - 1) with (String.length old)
        by (cbn [String.length]; lia).
      apply replace_from_skip. }
  rewrite E. split.
  - intros H. destruct (contains (mypath ++ "/") rel) eqn:C; [|reflexivity].
    apply replace_from_shorter in C; [|destruct mypath; discriminate].
    rewrite H in C. lia.
  - apply replace_from_absent.
Qed.

End ReplaceFacts.

(** ** Rules that [match] can use *)

Section UsableFacts.

Local Open Scope string_scope.

Lemma usable_has_test (r : IgnorePattern.t) :
  usable r = negb (truthy (IgnorePattern.invalid r)) && has_test r.
Proof. reflexivity. Qed.

Lemma drop_one_empty (pattern : string) :
  startswith pattern "/" = true -> drop 1 pattern = "" -> pattern = "/".
Proof.
  intros P D. destruct (prefix_inv _ _ P) as [b ->]. cbn in D. now subst b.
Qed.

Lemma Ok_inv {A : Type} (a b : A) : Ok a = Ok b -> a = b.
Proof. now intros [= ->]. Qed.

Ltac test_fields :=
  cbn [IgnorePattern.invalid IgnorePattern.exact_match IgnorePattern.regex
       IgnorePattern.set_invalid IgnorePattern.set_applies_to_directories
       IgnorePattern.set_match_basename IgnorePattern.set_exact_match
       IgnorePattern.set_regex truthy].

Lemma init_rest_has_test (self r : IgnorePattern.t) (pattern : string) :
  IgnorePattern.init_rest self pattern = Ok r ->
  truthy (IgnorePattern.invalid r) = false ->
  pattern <> "" -> pattern <> "/" ->
  has_test r = true.
Proof.
  unfold IgnorePattern.init_rest, has_test. intros H V N1 N2.
  destruct (contains "/**/" pattern).
  - destruct (partition "/**/" pattern) as [first second].
    destruct (IgnorePattern._has_glob _); [injection H as <-; discriminate V|].
    destruct (re_compile _); [|discriminate H]. injection H as <-. apply orb_true_r.
  - destruct (contains "**" pattern); [injection H as <-; discriminate V|].
    destruct (startswith pattern "/") eqn:P.
    + destruct (IgnorePattern._has_glob _).
      * destruct (re_compile _); [|discriminate H]. injection H as <-. apply orb_true_r.
      * apply Ok_inv in H. subst r. test_fields.
        destruct (String.eqb_spec (drop 1 pattern) "") as [E|E]; [|reflexivity].
        destruct (N2 (drop_one_empty pattern P E)).
    + destruct (negb (contains "/" pattern));
        (destruct (IgnorePattern._has_glob _);
         [destruct (re_compile _); [|discriminate H]; injection H as <-; apply orb_true_r|]);
        injection H as <-; test_fields;
        (destruct (String.eqb_spec pattern "") as [E|E]; [destruct (N1 E) | reflexivity]).
Qed.

Lemma init_leading_has_test (self r : IgnorePattern.t) (pattern : string) :
  IgnorePattern.init_leading self pattern = Ok r ->
  truthy (IgnorePattern.invalid r) = false ->
  has_test r = true.
Proof.
  unfold IgnorePattern.init_leading, has_test. intros H V.
  destruct (IgnorePattern._has_glob _); [injection H as <-; discriminate V|].
  destruct (String.eqb (drop 3 pattern) "") eqn:E.
  - destruct (re_compile _); [|discriminate H]. injection H as <-. apply orb_true_r.
  - destruct (contains "/" _).
    + destruct (re_compile _); [|discriminate H]. injection H as <-. apply orb_true_r.
    + apply Ok_inv in H. subst r. test_fields. now rewrite E.
Qed.

Lemma drop_last_app_inv (n : nat) (s e : string) :
  String.length e = n -> endswith s e = true -> s = drop_last n s ++ e.
Proof.
  intros L E. destruct (endswith_inv _ _ E) as [a ->]. subst n. now rewrite drop_last_app.
Qed.

Lemma init_trailing_has_test (self r : IgnorePattern.t) (pattern : string) :
  IgnorePattern.init_trailing self pattern = Ok r ->
  truthy (IgnorePattern.invalid r) = false ->
  endswith pattern "/**" = true ->
  pattern <> "//**" ->
  has_test r = true.
Proof.
  unfold IgnorePattern.init_trailing. intros H V E N.
  destruct (IgnorePattern._has_glob _); [injection H as <-; discriminate V|].
  destruct (String.eqb (drop_last 3 pattern) "") eqn:Q.
  - destruct (re_compile _); [|discriminate H]. injection H as <-. apply orb_true_r.
  - apply (init_rest_has_test _ _ _ H V).
    + now apply String.eqb_neq.
    + intros D. apply N. rewrite (drop_last_app_inv 3 pattern "/**" eq_refl E), D. reflexivity.
Qed.

(** What the constructor returns for a pattern outside the four unusable
    ones is marked invalid or has something to match with. *)
Lemma init_has_test (root pattern basename : string) (line_number : nat)
    (r : IgnorePattern.t) :
  IgnorePattern.init root pattern basename line_number = Ok r ->
  unusable_pattern pattern = false ->
  truthy (IgnorePattern.invalid r) = false ->
  has_test r = true.
Proof.
  unfold IgnorePattern.init, unusable_pattern. intros H U V.
  apply orb_false_iff in U. destruct U as [U U4].
  apply orb_false_iff in U. destruct U as [U U3].
  apply orb_false_iff in U. destruct U as [U1 U2].
  apply String.eqb_neq in U1, U2, U3, U4.
  destruct (endswith pattern "/" && negb (endswith pattern "*/")) eqn:T.
  - apply andb_true_iff in T. destruct T as [T S]. apply negb_true_iff in S.
    assert (P := drop_last_app_inv 1 pattern "/" eq_refl T).
    destruct (startswith (drop_last 1 pattern) "**/");
      [exact (init_leading_has_test _ _ _ H V)|].
    destruct (endswith (drop_last 1 pattern) "/**") eqn:E.
    + apply (init_trailing_has_test _ _ _ H V E).
      intros D. rewrite D in P. rewrite P in S. discriminate S.
    + apply (init_rest_has_test _ _ _ H V).
      * intros D. rewrite D in P. now apply U2.
      * intros D. rewrite D in P. now apply U3.
  - destruct (startswith pattern "**/"); [exact (init_leading_has_test _ _ _ H V)|].
    destruct (endswith pattern "/**") eqn:E.
    + exact (init_trailing_has_test _ _ _ H V E U4).
    + apply (init_rest_has_test _ _ _ H V); [exact U1|].
      intros ->. discriminate T.
Qed.

(** X15. The rules that are valid and yet make [match] fail its second
    assertion are exactly the rules of four patterns: the empty one, one
    slash, two slashes, and two slashes before a double star. Every other
    pattern that the constructor accepts gives a rule that is marked
    invalid, and so never becomes active, or one that [match] can use. *)
Theorem unusable_rules_are_of_four_patterns
    (root pattern basename : string) (line_number : nat) (r : IgnorePattern.t) :
  IgnorePattern.init root pattern basename line_number = Ok r ->
  (truthy (IgnorePattern.invalid r) = false /\ usable r = false)
  <-> unusable_pattern pattern = true.
Proof.
  intros H. split.
  - intros [V U]. destruct (unusable_pattern pattern) eqn:B; [reflexivity|].
    rewrite usable_has_test, V, (init_has_test _ _ _ _ _ H B V) in U. discriminate U.
  - unfold unusable_pattern. intros B.
    repeat (apply orb_true_iff in B; destruct B as [B|B]);
      apply String.eqb_eq in B; subst pattern;
      vm_compute in H; injection H as <-; split; reflexivity.
Qed.

Lemma add_usable (self : IgnoredFiles.t) (pattern : string) (line_number : nat) :
  forallb usable (IgnoredFiles._regexes self) = true ->
  contains "[" pattern = false ->
  unusable_pattern pattern = false ->
  exists self',
    IgnoredFiles.add self pattern line_number = Ok self'
    /\ forallb usable (IgnoredFiles._regexes self') = true.
Proof.
  intros U B G. unfold IgnoredFiles.add.
  destruct (init_returns_without_character_set (IgnoredFiles.root self) pattern
              (IgnoredFiles.basename self) line_number B) as [pat E].
  rewrite E. cbn [bind].
  destruct (truthy (IgnorePattern.invalid pat)) eqn:V; eexists; (split; [reflexivity|]).
  - exact U.
  - cbn [IgnoredFiles._regexes IgnoredFiles.regexes_add].
    rewrite forallb_app, U. cbn [forallb andb].
    now rewrite usable_has_test, V, (init_has_test _ _ _ _ _ E G V).
Qed.

Lemma parse_line_usable (self : IgnoredFiles.t) (line_number : nat) (line : string) :
  forallb usable (IgnoredFiles._regexes self) = true ->
  safe_line line = true ->
  exists self',
    IgnoredFiles.parse_line self line_number line = Ok self'
    /\ forallb usable (IgnoredFiles._regexes self') = true.
Proof.
  intros U S. unfold safe_line in S. apply andb_true_iff in S. destruct S as [B G].
  apply negb_true_iff in B, G. unfold IgnoredFiles.parse_line.
  destruct (String.eqb (strip line) "") eqn:E; [now exists self|]. cbn [orb].
  destruct (startswith (strip line) "#"); [now exists self|].
  destruct (startswith _ "!"); [eexists; split; [reflexivity | exact U]|].
  apply add_usable; [exact U | now apply strip_without_char |].
  unfold unusable_pattern. now rewrite E.
Qed.

Lemma parse_lines_usable (lines : list string) :
  forall (self : IgnoredFiles.t) (n : nat),
    forallb usable (IgnoredFiles._regexes self) = true ->
    forallb safe_line lines = true ->
    exists self',
      IgnoredFiles.parse_lines self n lines = (self', None)
      /\ forallb usable (IgnoredFiles._regexes self') = true.
Proof.
  induction lines as [|line lines IH]; intros self n U S.
  - now exists self.
  - cbn [forallb] in S. apply andb_true_iff in S. destruct S as [S1 S2].
    cbn [IgnoredFiles.parse_lines].
    destruct (parse_line_usable self (n + 1) line U S1) as (self1 & -> & U1).
    now apply IH.
Qed.

(** X16. [list_files] returns on every tree when the ignore file is missing, or
    when none of its lines has a character set or is, once stripped, one
    slash, two slashes, or two slashes before a double star: the file is
    read to its end, every active rule is one that [match] can use, and the
    walk comes to its end with the files that are kept. *)
Theorem list_files_returns_on_safe_ignore_file (os : OS) (mypath : string) (t : tree) :
  (forall lines,
      read_lines os
        (OsPath.join (OsPath.dirname (os_path_abspath os mypath)) ".contentignore")
      = Some lines ->
      forallb safe_line lines = true) ->
  exists self,
    IgnoredFiles.init os mypath ".contentignore" true = Ok self
    /\ forallb usable (IgnoredFiles._regexes self) = true
    /\ list_files os mypath t
       = Ok (map (fun e => reported mypath (snd e))
               (filter (kept os self) (listing mypath t))).
Proof.
  intros S. unfold list_files, IgnoredFiles.init. cbn [IgnoredFiles.root].
  set (self0 := {| IgnoredFiles.root := os_path_abspath os mypath;
                   IgnoredFiles.invalid := []; IgnoredFiles._regexes := [];
                   IgnoredFiles.basename := ".contentignore" |}).
  set (file := OsPath.join (OsPath.dirname (os_path_abspath os mypath)) ".contentignore")
    in *.
  assert (U : forallb usable
                (IgnoredFiles._regexes (IgnoredFiles.parse_gitignore os self0 file)) = true).
  { unfold IgnoredFiles.parse_gitignore.
    destruct (read_lines os file) as [lines|] eqn:R; [|reflexivity].
    destruct (parse_lines_usable lines self0 0 eq_refl (S lines eq_refl)) as (self1 & -> & U).
    exact U. }
  destruct (add_usable (IgnoredFiles.parse_gitignore os self0 file) ".git/" 0 U
              eq_refl eq_refl) as (self & E & U').
  rewrite E. cbn [bind]. exists self. split; [reflexivity|]. split; [exact U'|].
  unfold list_files_walk. now rewrite (list_files_walk_from os self mypath U').
Qed.

End UsableFacts.

Lemma unusable_rules_are_of_four_patterns_witness :
  unusable_pattern "//**" = true.
Proof.
  apply (unusable_rules_are_of_four_patterns "/srv/content" "//**" ".contentignore" 1
           (IgnorePattern.Build_t "/srv/content" "//**" ".contentignore: 1://**" None
              true false (Some "") None) eq_refl).
  split; reflexivity.
Defined.

Lemma list_files_returns_on_safe_ignore_file_witness :
  exists self,
    IgnoredFiles.init (example_os ["# output"; ""; "build/"; "  *.log "; "!keep"])
      "/srv/content" ".contentignore" true = Ok self
    /\ forallb usable (IgnoredFiles._regexes self) = true
    /\ list_files (example_os ["# output"; ""; "build/"; "  *.log "; "!keep"])
         "/srv/content" example_tree
       = Ok (map (fun e => reported "/srv/content" (snd e))
               (filter (kept (example_os ["# output"; ""; "build/"; "  *.log "; "!keep"]) self)
                  (listing "/srv/content" example_tree))).
Proof.
  apply (list_files_returns_on_safe_ignore_file
           (example_os ["# output"; ""; "build/"; "  *.log "; "!keep"])
           "/srv/content" example_tree).
  intros lines [= <-]. reflexivity.
Defined.

(** ** [show_ignores] *)

Section ShowFacts.

Import ShowIgnores.

Variable os : OS.
Variable self : IgnoredFiles.t.
Hypothesis rules_usable : forallb usable (IgnoredFiles._regexes self) = true.

(** [entries] on a directory: its own entries, then the entries below. *)
Lemma entries_Dir (top : string) (dirs : list (string * tree)) (files : list string) :
  entries top (Dir dirs files)
  = map (fun d => ([], OsPath.join top d, true)) (map fst dirs)
    ++ map (fun f => ([], OsPath.join top f, false)) files
    ++ entries_names top dirs (map fst dirs).
Proof.
  cbn [entries]. do 2 f_equal.
  generalize (map fst dirs) as names.
  induction names as [|name names IH]; [reflexivity|].
  cbn [entries_names].
  assert (F : forall l,
             (fix find (l : list (string * tree))
                : option (list (list string * string * bool)) :=
                match l with
                | [] => None
                | (n, sub) :: l' =>
                    if String.eqb n name
                    then Some (entries (OsPath.join top name) sub)
                    else find l'
                end) l
             = option_map (entries (OsPath.join top name)) (lookup name l)).
  { induction l as [|[n sub] l IHl]; [reflexivity|].
    cbn [lookup]. destruct (String.eqb n name); [reflexivity | exact IHl]. }
  rewrite F. destruct (lookup name dirs) as [sub|]; cbn [option_map].
  - now rewrite IH.
  - exact IH.
Qed.

Lemma shown_top (p : string) (b : bool) : shown os self ([], p, b) = ignored os self p b.
Proof. reflexivity. Qed.

Lemma line_of_match (anc : list string) (p : string) (b : bool) (m : IgnorePattern.t) :
  IgnoredFiles.match_ os self p (Some b) = Ok (Some m) ->
  line_of os self (anc, p, b)
  = format (IgnorePattern.description m) (drop (String.length (IgnoredFiles.root self) + 1) p).
Proof. unfold line_of. cbn [fst snd]. now intros ->. Qed.

(** The loop over the directories, started on a list whose front has been
    visited and kept. *)
Lemma show_dirs_filter (root : string) (copy front result : list string) :
  (forall y, In y front -> ignored os self (OsPath.join root y) true = false) ->
  show_dirs os self root copy (front ++ copy) result
  = Ok (front ++ filter (fun b => negb (ignored os self (OsPath.join root b) true)) copy,
        result ++ map (line_of os self)
                    (filter (shown os self)
                       (map (fun d => ([], OsPath.join root d, true)) copy))).
Proof.
  revert front result. induction copy as [|x copy IH]; intros front result F.
  - cbn. now rewrite !app_nil_r.
  - cbn [show_dirs filter map]. rewrite shown_top.
    destruct (match_usable os self (OsPath.join root x) true rules_usable) as (m & E & I).
    rewrite E, I. cbn [bind]. destruct m as [r|]; cbn [negb].
    + rewrite list_remove_first.
      * cbn [bind]. rewrite (IH front _ F). cbn [map]. rewrite (line_of_match _ _ _ _ E).
        now rewrite <- app_assoc.
      * intros In_x. apply F in In_x. rewrite I in In_x. discriminate.
    + replace (front ++ x :: copy) with ((front ++ [x]) ++ copy)
        by now rewrite <- app_assoc.
      rewrite IH.
      * now rewrite <- app_assoc.
      * intros y In_y. apply in_app_or in In_y. destruct In_y as [In_y|[<-|[]]].
        -- now apply F.
        -- exact I.
Qed.

(** The loop over the files of one directory. *)
Lemma show_files_filter (root : string) (files result : list string) :
  show_files os self root files result
  = Ok (result ++ map (line_of os self)
                    (filter (shown os self)
                       (map (fun f => ([], OsPath.join root f, false)) files))).
Proof.
  revert result. induction files as [|x files IH]; intros result.
  - cbn. now rewrite app_nil_r.
  - cbn [show_files filter map]. rewrite shown_top.
    destruct (match_usable os self (OsPath.join root x) false rules_usable) as (m & E & I).
    rewrite E, I. cbn [bind]. destruct m as [r|].
    + rewrite IH. cbn [map]. rewrite (line_of_match _ _ _ _ E). now rewrite <- app_assoc.
    + apply IH.
Qed.

(** Below a directory that is ignored nothing is shown; below one that is
    not, what is shown is what is shown of its own entries. *)
Lemma shown_below (d : string) (l : list (list string * string * bool)) :
  map (line_of os self)
    (filter (shown os self) (map (fun e => (d :: fst (fst e), snd (fst e), snd e)) l))
  = if ignored os self d true then []
    else map (line_of os self) (filter (shown os self) l).
Proof.
  induction l as [|e l IH].
  - now destruct (ignored os self d true).
  - cbn [map filter]. unfold shown at 1. cbn [fst snd forallb].
    destruct (ignored os self d true) eqn:I; cbn [negb andb].
    + exact IH.
    + fold (shown os self e). destruct (shown os self e); cbn [map]; now rewrite IH.
Qed.

(** The walk of [show_ignores] adds to [result] the lines of the shown
    entries, in the order of the walk. *)
Lemma show_ignores_walk_from (t : tree) :
  forall (top : string) (result : list string),
    os_walk (show_ignores_body os self) top t result
    = Ok (result ++ map (line_of os self) (filter (shown os self) (entries top t))).
Proof.
  induction t as [dirs files IH] using tree_ind. intros top result.
  rewrite os_walk_Dir, entries_Dir. unfold show_ignores_body at 1.
  assert (D := show_dirs_filter top (map fst dirs) [] result
                 (fun y (I : In y []) => match I with end)).
  cbn [app] in D. rewrite D.
  cbn [bind]. rewrite show_files_filter. cbn [bind fst snd].
  rewrite !filter_app, !map_app, !app_assoc.
  generalize ((result
               ++ map (line_of os self)
                    (filter (shown os self)
                       (map (fun d => ([], OsPath.join top d, true)) (map fst dirs))))
              ++ map (line_of os self)
                   (filter (shown os self)
                      (map (fun f => ([], OsPath.join top f, false)) files))) as acc.
  generalize (map fst dirs) as names.
  induction names as [|name names IHn]; intros acc.
  - cbn. now rewrite app_nil_r.
  - cbn [filter entries_names].
    destruct (ignored os self (OsPath.join top name) true) eqn:I; cbn [negb].
    + rewrite IHn. destruct (lookup name dirs) as [sub|]; [|reflexivity].
      now rewrite filter_app, map_app, shown_below, I.
    + cbn [walk_names]. destruct (lookup name dirs) as [sub|] eqn:L; [|apply IHn].
      destruct (lookup_In _ _ _ L) as [n In_sub].
      rewrite Forall_forall in IH. rewrite (IH _ In_sub). cbn [bind].
      rewrite IHn, filter_app, map_app, shown_below, I. now rewrite <- app_assoc.
Qed.

(** X17. With usable rules [show_ignores] returns, and its text has one line
    for each entry of the tree, file or directory, that [match] reports
    and that lies below no directory that [match] reports, in the order of
    the walk: the description of the rule that [match] returned, padded to
    30 characters, a colon, and the path below the root. What lies below a
    reported directory is not visited and gets no line. *)
Theorem show_ignores_reports_ignored_entries (t : tree) :
  show_ignores os self t
  = Ok (join_lines
          (map (line_of os self)
             (filter (shown os self) (entries (IgnoredFiles.root self) t)))).
Proof.
  unfold show_ignores. now rewrite show_ignores_walk_from.
Qed.

Lemma first_failure {A : Type} (f : A -> bool) (l : list A) :
  forallb f l = false ->
  exists k d, nth_error l k = Some d /\ forallb f (firstn k l) = true /\ f d = false.
Proof.
  induction l as [|x l IH]; [discriminate|].
  cbn [forallb]. destruct (f x) eqn:F; cbn [andb].
  - intros H. destruct (IH H) as (k & d & N & P & Q).
    exists (S k), d. cbn [nth_error firstn forallb]. now rewrite F.
  - intros _. exists 0, x. now repeat split.
Qed.

(** The files of the listing, and the directories above them, are entries
    of the tree. *)
Lemma listing_entries (t : tree) :
  forall (top : string) (anc : list string) (p : string),
    In (anc, p) (listing top t) ->
    In (anc, p, false) (entries top t)
    /\ forall k d, nth_error anc k = Some d -> In (firstn k anc, d, true) (entries top t).
Proof.
  induction t as [dirs files IH] using tree_ind. intros top anc p.
  rewrite listing_Dir, entries_Dir. intros H. apply in_app_or in H. destruct H as [H|H].
  - apply in_map_iff in H. destruct H as (f & [= <- <-] & I). split.
    + apply in_or_app. right. apply in_or_app. left.
      apply in_map_iff. now exists f.
    + intros [|k] d N; discriminate N.
  - assert (G : forall names,
               incl names (map fst dirs) ->
               In (anc, p) (listing_names top dirs names) ->
               In (anc, p, false) (entries_names top dirs names)
               /\ forall k d, nth_error anc k = Some d ->
                    In (firstn k anc, d, true)
                       (map (fun d => ([], OsPath.join top d, true)) (map fst dirs)
                        ++ entries_names top dirs names)).
    { induction names as [|name names IHn]; intros Inc I; [destruct I|].
      cbn [listing_names entries_names] in *.
      assert (Inc' : incl names (map fst dirs)) by (intros n In_n; apply Inc; now right).
      assert (Rest : In (anc, p) (listing_names top dirs names) ->
                     In (anc, p, false) (entries_names top dirs names)
                     /\ forall k d, nth_error anc k = Some d ->
                          In (firstn k anc, d, true)
                             (map (fun d => ([], OsPath.join top d, true)) (map fst dirs)
                              ++ entries_names top dirs names))
        by exact (IHn Inc').
      destruct (lookup name dirs) as [sub|] eqn:L; [|exact (Rest I)].
      apply in_app_or in I. destruct I as [I|I].
      - apply in_map_iff in I. destruct I as ([anc' p'] & [= <- <-] & I).
        destruct (lookup_In _ _ _ L) as [n In_sub].
        rewrite Forall_forall in IH.
        destruct (IH _ In_sub (OsPath.join top name) anc' p' I) as [E1 E2]. split.
        + apply in_or_app. left. apply in_map_iff. now exists (anc', p', false).
        + intros [|k] d N.
          * injection N as <-. cbn [firstn]. apply in_or_app. left.
            apply in_map_iff. exists name. split; [reflexivity|]. apply Inc. now left.
          * cbn [nth_error] in N. cbn [firstn]. apply in_or_app. right.
            apply in_or_app. left. apply in_map_iff.
            exists (firstn k anc', d, true). split; [reflexivity|]. now apply E2.
      - destruct (Rest I) as [E1 E2]. split.
        + apply in_or_app. now right.
        + intros k d N. specialize (E2 k d N). apply in_app_or in E2.
          apply in_or_app. destruct E2 as [E2|E2]; [now left|].
          right. apply in_or_app. now right. }
    destruct (G (map fst dirs) (incl_refl _) H) as [E1 E2]. split.
    + apply in_or_app. right. apply in_or_app. now right.
    + intros k d N. specialize (E2 k d N). apply in_app_or in E2.
      apply in_or_app. destruct E2 as [E2|E2]; [now left|].
      right. apply in_or_app. now right.
Qed.

(** X18. With usable rules, [list_files] and [show_ignores] on the tree at the
    root account for every file of the tree between them: a file that is
    kept is listed by [list_files]; for a file that is not, [show_ignores]
    has the line of the file itself or the line of a directory above it. *)
Theorem every_file_is_listed_or_shown (t : tree) (anc : list string) (p : string) :
  In (anc, p) (listing (IgnoredFiles.root self) t) ->
  exists files lines,
    list_files_walk os self (IgnoredFiles.root self) t = Ok files
    /\ show_ignores os self t = Ok (join_lines lines)
    /\ if kept os self (anc, p)
       then In (reported (IgnoredFiles.root self) p) files
       else exists e,
              In (line_of os self e) lines
              /\ shown os self e = true
              /\ (e = (anc, p, false)
                  \/ exists k d, nth_error anc k = Some d /\ e = (firstn k anc, d, true)).
Proof.
  intros I. unfold list_files_walk, show_ignores.
  rewrite (list_files_walk_from os self (IgnoredFiles.root self) rules_usable).
  rewrite show_ignores_walk_from. cbn [app bind].
  eexists _, _. split; [reflexivity|]. split; [reflexivity|].
  destruct (kept os self (anc, p)) eqn:K.
  - apply in_map_iff. exists (anc, p). split; [reflexivity|]. now apply filter_In.
  - destruct (listing_entries t _ _ _ I) as [E1 E2].
    assert (S : forall e, In e (entries (IgnoredFiles.root self) t) -> shown os self e = true ->
                          In (line_of os self e)
                             (map (line_of os self)
                                (filter (shown os self) (entries (IgnoredFiles.root self) t)))).
    { intros e In_e Sh. apply in_map. now apply filter_In. }
    unfold kept in K. cbn [fst snd] in K.
    destruct (forallb (fun d => negb (ignored os self d true)) anc) eqn:A.
    + cbn [andb] in K. apply negb_false_iff in K.
      assert (Sh : shown os self (anc, p, false) = true).
      { unfold shown. cbn [fst snd]. now rewrite A, K. }
      exists (anc, p, false). split; [now apply S|]. split; [exact Sh | now left].
    + destruct (first_failure _ _ A) as (k & d & N & P & Q).
      apply negb_false_iff in Q.
      assert (Sh : shown os self (firstn k anc, d, true) = true).
      { unfold shown. cbn [fst snd]. now rewrite P, Q. }
      exists (firstn k anc, d, true). split; [apply S; [now apply E2 | exact Sh]|].
      split; [exact Sh|]. right. now exists k, d.
Qed.

End ShowFacts.

Lemma show_ignores_reports_ignored_entries_witness :
  ShowIgnores.show_ignores (example_os ["build/"]) example_ignores
    (Dir [("build", Dir [] ["output.bin"]); ("src", Dir [] ["build"; "a.py"])] ["a.txt"])
  = Ok ".contentignore: 1:build/      : build".
Proof.
  apply (show_ignores_reports_ignored_entries (example_os ["build/"]) example_ignores eq_refl).
Defined.

Lemma every_file_is_listed_or_shown_witness :
  exists files lines,
    list_files_walk (example_os ["build/"]) example_ignores "/srv/content" example_tree
    = Ok files
    /\ ShowIgnores.show_ignores (example_os ["build/"]) example_ignores example_tree
       = Ok (ShowIgnores.join_lines lines)
    /\ exists e,
         In (line_of (example_os ["build/"]) example_ignores e) lines
         /\ shown (example_os ["build/"]) example_ignores e = true
         /\ (e = (["/srv/content/build"], "/srv/content/build/output.bin", false)
             \/ exists k d,
                  nth_error ["/srv/content/build"] k = Some d
                  /\ e = (firstn k ["/srv/content/build"], d, true)).
Proof.
  apply (every_file_is_listed_or_shown (example_os ["build/"]) example_ignores eq_refl
           example_tree ["/srv/content/build"] "/srv/content/build/output.bin").
  right. left. reflexivity.
Defined.

(** ** [determine_version] *)

Section VersionFacts.

Import Version.

(** *** Integers and their text *)

Lemma uint_value_of_uint (d : Decimal.uint) :
  forall acc : nat, uint_value d (Z.of_nat acc) = Z.of_nat (Nat.of_uint_acc d acc).
Proof.
  induction d; intros acc; cbn [uint_value Nat.of_uint_acc]; try reflexivity;
    rewrite <- IHd, Nat.tail_mul_spec; f_equal; lia.
Qed.

Lemma digits_value_uint (d : Decimal.uint) :
  forall (acc : Z) (seen : bool),
    d <> Decimal.Nil \/ seen = true ->
    digits_value (NilEmpty.string_of_uint d) acc seen = Some (uint_value d acc).
Proof.
  induction d; intros acc seen H;
    try (cbn [NilEmpty.string_of_uint digits_value uint_value];
         change (is_digit _) with true; cbv iota;
         rewrite IHd by (now right); f_equal; f_equal; cbn; lia).
  cbn. destruct H as [H | ->]; [contradiction | reflexivity].
Qed.

Lemma all_digits_uint (d : Decimal.uint) : all_digits (NilEmpty.string_of_uint d) = true.
Proof. induction d; cbn; auto. Qed.

Lemma all_digits_str_of_nat (n : nat) :
  all_digits (str_of_nat n) = true /\ str_of_nat n <> "".
Proof.
  unfold str_of_nat, NilZero.string_of_uint.
  destruct (Nat.to_uint n) eqn:E; try (split; [apply (all_digits_uint (_ u)) | discriminate]).
  split; [reflexivity | discriminate].
Qed.

Lemma digit_not_space (c : ascii) : is_digit c = true -> int_space c = false.
Proof. destruct c as [[] [] [] [] [] [] [] []]; vm_compute; congruence. Qed.

Lemma rstrip_digits (s : string) : all_digits s = true -> int_rstrip s = s.
Proof.
  induction s as [|c s IH]; [reflexivity|].
  cbn [all_digits int_rstrip]. intros H. apply andb_true_iff in H. destruct H as [D H].
  rewrite (IH H). destruct s; [now rewrite (digit_not_space c D) | reflexivity].
Qed.

Lemma strip_digits (s : string) : all_digits s = true -> int_rstrip (int_lstrip s) = s.
Proof.
  intros H.
  replace (int_lstrip s) with s; [now apply rstrip_digits|].
  destruct s as [|c s]; [reflexivity|]. cbn [all_digits int_lstrip] in *.
  apply andb_true_iff in H. destruct H as [D _]. now rewrite (digit_not_space c D).
Qed.

(** [int(str(n)) == n] for a natural number. *)
Lemma int_str_of_nat (n : nat) : int (str_of_nat n) = Ok (Z.of_nat n).
Proof.
  destruct (all_digits_str_of_nat n) as [D N].
  unfold int. rewrite (strip_digits _ D).
  assert (V : digits_value (str_of_nat n) 0 false = Some (Z.of_nat n)).
  { unfold str_of_nat, NilZero.string_of_uint.
    rewrite <- (Unsigned.of_to n) at 2. unfold Nat.of_uint.
    rewrite <- (uint_value_of_uint (Nat.to_uint n) 0).
    destruct (Nat.to_uint n) eqn:E; try (apply digits_value_uint; left; discriminate).
    reflexivity. }
  destruct (str_of_nat n) as [|c s] eqn:E; [contradiction|].
  cbn [all_digits] in D. apply andb_true_iff in D. destruct D as [D _].
  assert (c <> "-"%char /\ c <> "+"%char)
    by (split; intros ->; discriminate D).
  destruct H as [H1 H2].
  destruct c as [[] [] [] [] [] [] [] []]; try discriminate D; rewrite V; reflexivity.
Qed.

(** [int(str(z)) == z] for an integer. *)
Lemma int_str_of_int (z : Z) : int (str_of_int z) = Ok z.
Proof.
  unfold str_of_int. destruct (Z.ltb_spec z 0) as [L|L].
  - assert (I := int_str_of_nat (Z.to_nat (- z))).
    destruct (all_digits_str_of_nat (Z.to_nat (- z))) as [D N].
    unfold int in *. rewrite (strip_digits _ D) in I.
    assert (S : int_rstrip (int_lstrip ("-" ++ str_of_nat (Z.to_nat (- z))))
                = String "-" (str_of_nat (Z.to_nat (- z)))).
    { cbn [append int_lstrip]. change (int_space "-") with false. cbv iota.
      cbn [int_rstrip]. rewrite (rstrip_digits _ D).
      destruct (str_of_nat (Z.to_nat (- z))); [contradiction | reflexivity]. }
    rewrite S.
    destruct (str_of_nat (Z.to_nat (- z))) as [|c s] eqn:E; [contradiction|].
    cbn [all_digits] in D. apply andb_true_iff in D. destruct D as [D _].
    destruct c as [[] [] [] [] [] [] [] []]; try discriminate D;
      (destruct (digits_value _ 0 false); [|discriminate I];
       injection I as ->; f_equal; lia).
  - rewrite int_str_of_nat. f_equal. lia.
Qed.


(** *** Splitting at a character *)

Lemma split_not_nil (sep : ascii) (s : string) : split sep s <> [].
Proof.
  destruct s as [|c s]; cbn [split]; [discriminate|].
  destruct (Ascii.eqb c sep); [discriminate|]. destruct (split sep s); discriminate.
Qed.

Lemma split_parts_without_sep (sep : ascii) (s : string) :
  forall p, In p (split sep s) -> contains (String sep "") p = false.
Proof.
  induction s as [|c s IH]; cbn [split]; intros p H.
  - destruct H as [<-|[]]. reflexivity.
  - destruct (Ascii.eqb_spec c sep) as [->|N].
    + destruct H as [<-|H]; [reflexivity | now apply IH].
    + destruct (split sep s) as [|q qs]; cbn [In] in H.
      * destruct H as [<-|[]]. cbn [contains]. rewrite prefix_cons, prefix_nil.
        apply Ascii.eqb_neq in N. rewrite Ascii.eqb_sym, N. reflexivity.
      * destruct H as [<-|H]; [|apply IH; now right].
        cbn [contains]. rewrite prefix_cons, prefix_nil.
        apply Ascii.eqb_neq in N. rewrite Ascii.eqb_sym, N. cbn [andb orb].
        apply IH. now left.
Qed.

Lemma split_without_sep (sep : ascii) (a : string) :
  contains (String sep "") a = false -> split sep a = [a].
Proof.
  induction a as [|c a IH]; [reflexivity|]. intros H.
  cbn [contains] in H. rewrite prefix_cons, prefix_nil, andb_true_r in H.
  apply orb_false_iff in H. destruct H as [H1 H2].
  cbn [split]. rewrite Ascii.eqb_sym, H1, (IH H2). reflexivity.
Qed.

Lemma split_app (sep : ascii) (a b : string) :
  contains (String sep "") a = false ->
  split sep (a ++ String sep b) = a :: split sep b.
Proof.
  induction a as [|c a IH]; intros H.
  - cbn [append split]. now rewrite Ascii.eqb_refl.
  - cbn [contains] in H. rewrite prefix_cons, prefix_nil, andb_true_r in H.
    apply orb_false_iff in H. destruct H as [H1 H2].
    cbn [append split]. rewrite Ascii.eqb_sym, H1, (IH H2). reflexivity.
Qed.

Lemma split_three (a b c : string) :
  contains "." a = false -> contains "." b = false -> contains "." c = false ->
  split "." (a ++ "." ++ b ++ "." ++ c) = [a; b; c].
Proof.
  intros A B C.
  change (a ++ "." ++ b ++ "." ++ c)%string with (a ++ String "." (b ++ String "." c))%string.
  now rewrite (split_app _ _ _ A), (split_app _ _ _ B), (split_without_sep _ _ C).
Qed.

Lemma digits_without_dot (s : string) : all_digits s = true -> contains "." s = false.
Proof.
  induction s as [|c s IH]; [reflexivity|].
  cbn [all_digits contains]. intros H. apply andb_true_iff in H. destruct H as [D H].
  rewrite prefix_cons, prefix_nil, (IH H), andb_true_r, orb_false_r.
  destruct c as [[] [] [] [] [] [] [] []]; try discriminate D; reflexivity.
Qed.

Lemma all_digits_drop (n : nat) (s : string) :
  all_digits s = true -> all_digits (drop n s) = true.
Proof.
  revert n. induction s as [|c s IH]; intros n H; [now destruct n|].
  destruct n as [|n]; [exact H|]. cbn [drop]. apply IH.
  cbn [all_digits] in H. now apply andb_true_iff in H.
Qed.

Lemma this_year_without_dot (y : nat) : contains "." (this_year y) = false.
Proof.
  apply digits_without_dot, all_digits_drop. apply all_digits_str_of_nat.
Qed.

Lemma str_of_nat_without_dot (n : nat) : contains "." (str_of_nat n) = false.
Proof. apply digits_without_dot. apply all_digits_str_of_nat. Qed.

Lemma str_of_int_without_dot (z : Z) : contains "." (str_of_int z) = false.
Proof.
  unfold str_of_int. destruct (z <? 0)%Z; [|apply str_of_nat_without_dot].
  change ("-" ++ str_of_nat (Z.to_nat (- z)))%string
    with (String "-" (str_of_nat (Z.to_nat (- z)))).
  cbn [contains]. rewrite prefix_cons. cbn [Ascii.eqb Bool.eqb andb orb].
  apply str_of_nat_without_dot.
Qed.

(** *** The order of the keys *)

Lemma key_lt_irrefl (a : list Z) : key_lt a a = false.
Proof.
  induction a as [|x a IH]; [reflexivity|].
  cbn [key_lt]. now rewrite Z.ltb_irrefl, Z.eqb_refl, IH.
Qed.

Lemma key_lt_trans (a : list Z) :
  forall b c, key_lt a b = true -> key_lt b c = true -> key_lt a c = true.
Proof.
  induction a as [|x a IH]; intros [|y b] [|z c] H1 H2; try discriminate; [reflexivity|].
  cbn [key_lt] in *.
  apply orb_true_iff in H1. apply orb_true_iff in H2. apply orb_true_iff.
  destruct H1 as [H1|H1]; destruct H2 as [H2|H2];
    rewrite ?andb_true_iff, ?Z.ltb_lt, ?Z.eqb_eq in *.
  - left. lia.
  - left. lia.
  - left. lia.
  - right. split; [lia|]. apply (IH b c); tauto.
Qed.

(** *** Keys and the sort *)

Lemma map_result_ok {A B : Type} (f : A -> result B) (l : list A) (ys : list B) :
  map_result f l = Ok ys ->
  (forall x y, In (y, x) (combine ys l) -> f x = Ok y)
  /\ (forall x, In x l -> exists y, In (y, x) (combine ys l)).
Proof.
  revert ys. induction l as [|x l IH]; intros ys H.
  - split; [intros x y I; now destruct ys | intros x []].
  - cbn [map_result] in H. destruct (f x) as [y|e] eqn:E; [|discriminate].
    cbn [bind] in H. destruct (map_result f l) as [ys'|e]; [|discriminate].
    injection H as <-. destruct (IH ys' eq_refl) as [I1 I2]. split.
    + intros x' y' [[= <- <-]|I]; [exact E | now apply I1].
    + intros x' [<-|I]; [exists y; now left|].
      destruct (I2 x' I) as [y' I']. exists y'. now right.
Qed.


Lemma map_result_raise {A B : Type} (f : A -> result B) (l : list A) (e : exn) :
  (forall x e', f x = Raise e' -> e' = e) ->
  (exists x, In x l /\ f x = Raise e) ->
  map_result f l = Raise e.
Proof.
  intros U (x & I & R). induction l as [|x' l IH]; [destruct I|].
  cbn [map_result]. destruct (f x') as [y|e'] eqn:E.
  - cbn [bind]. destruct I as [->|I]; [congruence|]. now rewrite (IH I).
  - cbn [bind]. now rewrite (U x' e' E).
Qed.

Lemma int_raises (s : string) (e : exn) : int s = Raise e -> e = ValueError.
Proof.
  unfold int.
  destruct (match int_rstrip (int_lstrip s) with
            | String "-" r => (true, r)
            | String "+" r => (false, r)
            | _ => (false, int_rstrip (int_lstrip s))
            end) as [negative body].
  destruct (digits_value body 0 false); [discriminate | now intros [= <-]].
Qed.

Lemma tag_key_raises (s : string) (e : exn) : tag_key s = Raise e -> e = ValueError.
Proof.
  unfold tag_key. induction (split "." s) as [|u us IH]; [discriminate|].
  cbn [map_result]. destruct (int u) eqn:E.
  - cbn [bind]. destruct (map_result int us); [discriminate|].
    intros [= <-]. now apply IH.
  - cbn [bind]. intros [= <-]. now apply int_raises in E.
Qed.

(** Where [insert_tag] puts an element: behind elements that it is not below. *)
Lemma insert_tag_spec (x : list Z * string) (l : list (list Z * string)) :
  exists front back,
    l = front ++ back /\ insert_tag x l = front ++ x :: back
    /\ (forall y, In y front -> key_lt (fst x) (fst y) = false)
    /\ match back with [] => True | y :: _ => key_lt (fst x) (fst y) = true end.
Proof.
  induction l as [|y l IH].
  - exists [], []. repeat split. intros y [].
  - cbn [insert_tag]. destruct (key_lt (fst x) (fst y)) eqn:E.
    + exists [], (y :: l). repeat split; [intros z [] | exact E].
    + destruct IH as (front & back & -> & -> & F & B).
      exists (y :: front), back. repeat split; [|exact B].
      intros z [<-|I]; [exact E | now apply F].
Qed.

(** After the sort the last element has a key that nothing is above, and
    the elements are those there were. *)
Lemma sort_tags_last (l : list (list Z * string)) :
  (forall x, In x (sort_tags l) <-> In x l)
  /\ (l = [] /\ sort_tags l = []
      \/ exists init z,
           sort_tags l = init ++ [z]
           /\ forall x, In x l -> key_lt (fst z) (fst x) = false).
Proof.
  unfold sort_tags.
  assert (G : forall l acc,
             (acc = [] \/ exists init z,
                 acc = init ++ [z] /\ forall x, In x acc -> key_lt (fst z) (fst x) = false) ->
             (forall x, In x (fold_left (fun s x => insert_tag x s) l acc)
                        <-> In x acc \/ In x l)
             /\ (acc = [] /\ l = [] /\ fold_left (fun s x => insert_tag x s) l acc = []
                 \/ exists init z,
                      fold_left (fun s x => insert_tag x s) l acc = init ++ [z]
                      /\ forall x, In x acc \/ In x l -> key_lt (fst z) (fst x) = false)).
  { clear l. induction l as [|y l IH]; intros acc M.
    - cbn [fold_left]. split; [intros x; cbn; tauto|].
      destruct M as [->|(init & z & -> & M)]; [now left|].
      right. exists init, z. split; [reflexivity|]. intros x [I|[]]. now apply M.
    - cbn [fold_left].
      destruct (insert_tag_spec y acc) as (front & back & -> & E & F & B).
      rewrite E.
      assert (M' : front ++ y :: back = [] \/
                   exists init z,
                     front ++ y :: back = init ++ [z]
                     /\ forall x, In x (front ++ y :: back) -> key_lt (fst z) (fst x) = false).
      { right. destruct (exists_last (l := y :: back) ltac:(discriminate)) as (init' & z & Ez).
        exists (front ++ init'), z. split; [now rewrite Ez, app_assoc|].
        destruct back as [|h back].
        - destruct init'; [|now destruct init'].
          cbn in Ez. injection Ez as <-.
          intros x I. apply in_app_or in I. destruct I as [I|[<-|[]]];
            [now apply F | apply key_lt_irrefl].
        - destruct M as [M|(init & z' & Ea & M)]; [now destruct front|].
          assert (z' = z).
          { assert (Eb : front ++ h :: back
                         = (front ++ removelast (h :: back)) ++ [last (h :: back) h]).
            { rewrite <- app_assoc. f_equal. apply app_removelast_last. discriminate. }
            rewrite Eb in Ea. apply app_inj_tail in Ea. destruct Ea as [_ <-].
            assert (Ec : y :: h :: back
                         = (y :: removelast (h :: back)) ++ [last (h :: back) h]).
            { cbn [app]. f_equal. apply app_removelast_last. discriminate. }
            rewrite Ec in Ez. apply app_inj_tail in Ez. now destruct Ez. }
          subst z'.
          intros x I. apply in_app_or in I. destruct I as [I|[<-|I]].
          + apply M. apply in_or_app. now left.
          + destruct (key_lt (fst z) (fst y)) eqn:K; [|reflexivity].
            rewrite <- (M h) by (apply in_or_app; right; now left).
            symmetry. now apply (key_lt_trans _ (fst y)).
          + apply M. apply in_or_app. now right. }
      destruct (IH (front ++ y :: back) M') as [I1 I2]. split.
      + intros x. rewrite I1. rewrite !in_app_iff. cbn [In]. tauto.
      + right. destruct I2 as [(N & _)|(init & z & Es & Mz)]; [now destruct front|].
        exists init, z. split; [exact Es|].
        intros x I. apply Mz. rewrite !in_app_iff in *. cbn [In] in *. tauto. }
  destruct (G l [] (or_introl eq_refl)) as [G1 G2]. split.
  - intros x. rewrite G1. cbn. tauto.
  - destruct G2 as [(_ & -> & E)|(init & z & E & M)]; [now left|].
    right. exists init, z. split; [exact E|]. intros x I. apply M. now right.
Qed.


Lemma last_tag_snoc (l : list string) (x : string) : last_tag (l ++ [x]) = Some x.
Proof.
  induction l as [|y l IH]; [reflexivity|].
  cbn [app last_tag]. destruct (l ++ [x]) eqn:E; [now destruct l | exact IH].
Qed.

(** What [determine_version] returns, read off the latest tag. *)
Lemma determine_version_latest (tags : list string) (y m : nat) (v : string) :
  determine_version tags y m = Ok v ->
  (tags = [] /\ v = (this_year y ++ "." ++ str_of_nat m ++ ".0")%string)
  \/ exists latest year month index Y M I,
       In latest tags
       /\ split "." latest = [year; month; index]
       /\ Version.int year = Ok Y /\ Version.int month = Ok M /\ Version.int index = Ok I
       /\ (forall t k, In t tags -> tag_key t = Ok k -> key_lt [Y; M; I] k = false)
       /\ v = (this_year y ++ "." ++ str_of_nat m ++ "."
               ++ (if String.eqb year (this_year y) && String.eqb month (str_of_nat m)
                   then str_of_int (I + 1) else index))%string.
Proof.
  unfold determine_version. intros H.
  destruct (map_result tag_key tags) as [keys|e] eqn:K; [|discriminate]. cbn [bind] in H.
  destruct (map_result_ok _ _ _ K) as [K1 K2].
  destruct (sort_tags_last (combine keys tags)) as [S1 [[E1 E2]|(init & z & E & Mz)]].
  - left. rewrite E2 in H. cbn in H. injection H as <-.
    split; [|reflexivity]. destruct tags as [|t tags]; [reflexivity|].
    destruct (K2 t (or_introl eq_refl)) as [k I]. rewrite E1 in I. destruct I.
  - right. rewrite E, map_app in H. cbn [map] in H. rewrite last_tag_snoc in H.
    destruct z as [kz latest]. cbn [snd fst] in *.
    assert (Iz : In (kz, latest) (combine keys tags))
      by (apply S1; rewrite E; apply in_or_app; right; now left).
    assert (Kz := K1 _ _ Iz).
    destruct (split "." latest) as [|year [|month [|index [|]]]] eqn:Sp;
      try discriminate H.
    unfold tag_key in Kz. rewrite Sp in Kz. cbn [map_result] in Kz.
    destruct (Version.int year) as [Y|] eqn:EY; [|discriminate]. cbn [bind] in Kz.
    destruct (Version.int month) as [M|] eqn:EM; [|discriminate]. cbn [bind] in Kz.
    destruct (Version.int index) as [I|] eqn:EI; [|discriminate]. cbn [bind] in Kz.
    injection Kz as <-.
    exists latest, year, month, index, Y, M, I.
    split; [now apply in_combine_r in Iz|].
    split; [exact Sp|]. split; [exact EY|]. split; [exact EM|]. split; [exact EI|]. split.
    + intros t k It Kt. destruct (K2 t It) as [k' I']. rewrite (K1 _ _ I') in Kt.
      injection Kt as ->. exact (Mz (k, t) I').
    + destruct (String.eqb year (this_year y) && String.eqb month (str_of_nat m));
        cbn [bind] in H; now injection H as <-.
Qed.

(** X19. The version that [determine_version] returns is not the name of an
    existing tag, when no tag is later than today. *)
Theorem determine_version_is_fresh (tags : list string) (y m : nat) (v : string) :
  determine_version tags y m = Ok v ->
  (forall t, In t tags -> not_later y m t) ->
  ~ In v tags.
Proof.
  intros H NL Iv.
  destruct (determine_version_latest _ _ _ _ H)
    as [[-> _]|(latest & year & month & index & Y & M & I & Il & Sp & EY & EM & EI & Mx & Ev)];
    [destruct Iv|].
  assert (Pn := split_parts_without_sep "." latest). rewrite Sp in Pn.
  assert (Cy : contains "." year = false) by (apply Pn; now left).
  assert (Cm : contains "." month = false) by (apply Pn; right; now left).
  assert (Ci : contains "." index = false) by (apply Pn; right; right; now left).
  assert (Kv : exists kv, tag_key v = Ok kv /\ key_lt [Y; M; I] kv = true).
  { destruct (String.eqb year (this_year y) && String.eqb month (str_of_nat m)) eqn:Q.
    - apply andb_true_iff in Q. destruct Q as [Q1 Q2].
      apply String.eqb_eq in Q1. apply String.eqb_eq in Q2. subst year month.
      exists [Y; M; (I + 1)%Z]. split.
      + subst v. unfold tag_key.
        rewrite (split_three _ _ _ Cy Cm (str_of_int_without_dot _)).
        cbn [map_result]. rewrite EY, EM, int_str_of_int. reflexivity.
      + cbn [key_lt]. rewrite !Z.eqb_refl, !Z.ltb_irrefl. cbn [orb andb].
        replace (I <? I + 1)%Z with true by (symmetry; apply Z.ltb_lt; lia). reflexivity.
    - destruct (NL latest Il year month index Sp)
        as [[-> ->]|(Y' & M' & Yt & E1 & E2 & E3 & L)].
      + rewrite !String.eqb_refl in Q. discriminate Q.
      + rewrite EY in E1. rewrite EM in E2. injection E1 as <-. injection E2 as <-.
        exists [Yt; Z.of_nat m; I]. split.
        * subst v. unfold tag_key.
          rewrite (split_three _ _ _ (this_year_without_dot y) (str_of_nat_without_dot m) Ci).
          cbn [map_result]. rewrite E3, int_str_of_nat, EI. reflexivity.
        * cbn [key_lt] in *.
          destruct (Y <? Yt)%Z, (Y =? Yt)%Z, (M <? Z.of_nat m)%Z, (M =? Z.of_nat m)%Z;
            cbn in *; try discriminate L; reflexivity. }
  destruct Kv as (kv & Kv & L). rewrite (Mx v kv Iv Kv) in L. discriminate L.
Qed.

(** X20. One tag that is not made of integers separated by dots makes
    [determine_version] raise [ValueError], whatever the date. *)
Theorem determine_version_rejects_other_tags (tags : list string) (y m : nat) (t : string) :
  In t tags ->
  (forall k, tag_key t <> Ok k) ->
  determine_version tags y m = Raise ValueError.
Proof.
  intros I N. unfold determine_version.
  rewrite (map_result_raise tag_key tags ValueError); [reflexivity | apply tag_key_raises |].
  exists t. split; [exact I|].
  destruct (tag_key t) as [k|e] eqn:E; [now destruct (N k)|].
  now rewrite (tag_key_raises _ _ E).
Qed.



End VersionFacts.

Lemma determine_version_is_fresh_witness :
  ~ In "19.3.11" ["19.3.5"; "19.3.10"; "18.12.30"].
Proof.
  apply (determine_version_is_fresh ["19.3.5"; "19.3.10"; "18.12.30"] 2019 3 "19.3.11").
  - reflexivity.
  - intros t [<-|[<-|[<-|[]]]] year month index E; vm_compute in E;
      injection E as <- <- <-.
    + left. split; reflexivity.
    + left. split; reflexivity.
    + right. exists 18%Z, 12%Z, 19%Z. repeat split.
Defined.

Lemma determine_version_rejects_other_tags_witness :
  Version.determine_version ["19.3.5"; "v1.0"] 2019 3 = Raise ValueError.
Proof.
  apply (determine_version_rejects_other_tags ["19.3.5"; "v1.0"] 2019 3 "v1.0").
  - right. left. reflexivity.
  - intros k. vm_compute. discriminate.
Defined.


(** ** The staging loop of [sync] *)

Section SyncFacts.

Import Sync.

Variable env : Env.
Variables content custom : string.
Variable custom_files : list string.

(** What one turn does to the staged files: nothing, or the file at the end,
    and only for a file that is new or modified. *)
Lemma sync_step_staged (force : bool) (st : state) (p : string) :
  staged_files (sync_step env force content custom custom_files st p) = staged_files st
  \/ (staged_files (sync_step env force content custom custom_files st p)
      = staged_files st ++ [p]
      /\ changed env content custom custom_files p = true).
Proof.
  unfold sync_step, changed, is_modified, is_new, confirm.
  destruct (negb (existsb (String.eqb p) custom_files)) eqn:N; cbn [negb andb orb].
  - destruct (add_all st); [right; now split|].
    destruct force; cbn.
    + right. now split.
    + destruct (click_confirm env (questions st) _); [|now left].
      right. split; [|reflexivity]. now destruct (click_confirm env _ _).
  - destruct (calculate_diff env _ _); [now left|].
    destruct (modify_all st); [right; now split|].
    destruct force; cbn.
    + right. now split.
    + destruct (click_confirm env (_ ++ _) _); [|now left].
      right. split; [|reflexivity]. now destruct (click_confirm env _ _).
Qed.

Lemma Subseq_app_r {A : Type} (a b : list A) (x : A) :
  Subseq a b -> Subseq a (b ++ [x]).
Proof.
  intros H. induction H; cbn.
  - apply Subseq_skip, Subseq_nil.
  - now apply Subseq_skip.
  - now apply Subseq_keep.
Qed.

Lemma Subseq_snoc {A : Type} (a b : list A) (x : A) :
  Subseq a b -> Subseq (a ++ [x]) (b ++ [x]).
Proof.
  intros H. induction H; cbn.
  - apply Subseq_keep, Subseq_nil.
  - now apply Subseq_skip.
  - now apply Subseq_keep.
Qed.

Lemma fold_staged (force : bool) (files : list string) :
  forall (st : state) (seen : list string),
    Subseq (staged_files st) (filter (changed env content custom custom_files) seen) ->
    Subseq
      (staged_files (fold_left (sync_step env force content custom custom_files) files st))
      (filter (changed env content custom custom_files) (seen ++ files)).
Proof.
  induction files as [|p files IH]; intros st seen H.
  - now rewrite app_nil_r.
  - cbn [fold_left].
    replace (seen ++ p :: files) with ((seen ++ [p]) ++ files) by now rewrite <- app_assoc.
    apply IH. rewrite filter_app. cbn [filter].
    destruct (sync_step_staged force st p) as [->|[-> ->]].
    + destruct (changed env content custom custom_files p);
        [now apply Subseq_app_r | now rewrite app_nil_r].
    + now apply Subseq_snoc.
Qed.

(** X22. Whatever the answers, the files staged are new or modified files of the
    content listing, in the order of the listing, and none more often than
    the listing has it. *)
Theorem sync_stages_only_changed_files (force : bool) (content_files : list string) :
  Subseq
    (staged_files (sync_stage env force content custom content_files custom_files))
    (filter (changed env content custom custom_files) content_files).
Proof.
  unfold sync_stage. apply (fold_staged force content_files initial []). constructor.
Qed.

Lemma fold_forced (files : list string) :
  forall st : state,
    modify_all st = false ->
    fold_left (sync_step env true content custom custom_files) files st
    = {| add_all :=
           add_all (fold_left (sync_step env true content custom custom_files) files st);
         modify_all := false;
         staged_files :=
           staged_files st ++ filter (changed env content custom custom_files) files;
         questions := questions st |}.
Proof.
  induction files as [|p files IH]; intros st M.
  - destruct st as [a m s q]. cbn in *. rewrite app_nil_r. now subst.
  - cbn [fold_left filter].
    assert (E : sync_step env true content custom custom_files st p
                = if changed env content custom custom_files p
                  then {| add_all :=
                            add_all (sync_step env true content custom custom_files st p);
                          modify_all := false;
                          staged_files := staged_files st ++ [p];
                          questions := questions st |}
                  else st).
    { unfold sync_step, changed, is_modified, is_new, confirm, stage, set_add_all.
      destruct st as [a m s q]. cbn in M. subst m. cbn.
      destruct (negb (existsb (String.eqb p) custom_files)); cbn [negb andb orb].
      - now destruct a.
      - now destruct (calculate_diff env _ _). }
    destruct (changed env content custom custom_files p).
    + rewrite IH by (rewrite E; reflexivity). rewrite E at 2 3. cbn.
      now rewrite <- app_assoc.
    + rewrite E. now apply IH.
Qed.

(** X23. With [force], [sync] stages every new and every modified file of the
    content listing, in order, leaves the unchanged ones, and asks nothing. *)
Theorem forced_sync_stages_every_changed_file (content_files : list string) :
  staged_files (sync_stage env true content custom content_files custom_files)
  = filter (changed env content custom custom_files) content_files
  /\ questions (sync_stage env true content custom content_files custom_files) = [].
Proof.
  unfold sync_stage. rewrite (fold_forced content_files initial eq_refl). now split.
Qed.

Lemma fold_accept (files : list string) :
  forall st : state,
    modify_all st = false ->
    modify_all (fold_left (sync_step env false content custom custom_files) files st) = false
    /\ asked "Do you want to accept these changes?"
         (fold_left (sync_step env false content custom custom_files) files st)
       = asked "Do you want to accept these changes?" st
         + length (filter (is_modified env content custom custom_files) files).
Proof.
  induction files as [|p files IH]; intros st M.
  - cbn. split; [exact M | lia].
  - cbn [fold_left filter].
    assert (E : modify_all (sync_step env false content custom custom_files st p) = false
                /\ asked "Do you want to accept these changes?"
                     (sync_step env false content custom custom_files st p)
                   = asked "Do you want to accept these changes?" st
                     + if is_modified env content custom custom_files p then 1 else 0).
    { unfold sync_step, is_modified, is_new, confirm, asked. rewrite M.
      destruct (negb (existsb (String.eqb p) custom_files)); cbn [negb andb].
      - destruct (add_all st); cbn; [split; [exact M | lia]|].
        destruct (click_confirm env (questions st) _); cbn.
        + destruct (click_confirm env _ _); cbn;
            rewrite !count_occ_app; cbn; split; try exact M; lia.
        + rewrite !count_occ_app; cbn; split; try exact M; lia.
      - destruct (calculate_diff env _ _); [cbn; split; [exact M | lia]|]. cbn.
        destruct (click_confirm env (_ ++ _) _); cbn.
        + destruct (click_confirm env _ _); cbn;
            rewrite !count_occ_app; cbn; split; try exact M; lia.
        + rewrite !count_occ_app; cbn; split; try exact M; lia. }
    destruct E as [E1 E2]. destruct (IH _ E1) as [I1 I2]. split; [exact I1|].
    rewrite I2, E2.
    destruct (is_modified env content custom custom_files p); cbn [length]; lia.
Qed.

(** X24. Without [force], [modify_all] is never set: the question whether to
    accept the changes is asked once for every modified file, whatever was
    answered before, also after a yes to adding all modified files. *)
Theorem sync_asks_for_every_modified_file (content_files : list string) :
  modify_all (sync_stage env false content custom content_files custom_files) = false
  /\ asked "Do you want to accept these changes?"
       (sync_stage env false content custom content_files custom_files)
     = length (filter (is_modified env content custom custom_files) content_files).
Proof.
  unfold sync_stage. destruct (fold_accept content_files initial eq_refl) as [H1 H2].
  split; [exact H1 | exact H2].
Qed.

Lemma sync_step_add_all (force : bool) (st : state) (p : string) :
  add_all st = true ->
  add_all (sync_step env force content custom custom_files st p) = true
  /\ asked "Do you want to add this file?"
       (sync_step env force content custom custom_files st p)
     = asked "Do you want to add this file?" st
  /\ (forall q, In q (staged_files st) ->
                In q (staged_files (sync_step env force content custom custom_files st p)))
  /\ (is_new custom_files p = true ->
      In p (staged_files (sync_step env force content custom custom_files st p))).
Proof.
  intros A. unfold sync_step, is_new, confirm, stage, set_add_all, asked.
  destruct st as [a m s q]. cbn in A. subst a. cbn.
  destruct (negb (existsb (String.eqb p) custom_files)); cbn.
  - repeat split; auto with datatypes.
  - destruct (calculate_diff env _ _); [repeat split; auto; discriminate|].
    destruct m; cbn; [repeat split; auto with datatypes; discriminate|].
    destruct force; cbn; [repeat split; auto with datatypes; discriminate|].
    destruct (click_confirm env (_ ++ _) _); cbn.
    + destruct (click_confirm env _ _); cbn; rewrite !count_occ_app; cbn;
        repeat split; auto with datatypes; try lia; discriminate.
    + rewrite !count_occ_app; cbn. repeat split; auto; try lia; discriminate.
Qed.

Lemma fold_add_all (force : bool) (files : list string) :
  forall st : state,
    add_all st = true ->
    asked "Do you want to add this file?"
      (fold_left (sync_step env force content custom custom_files) files st)
    = asked "Do you want to add this file?" st
    /\ (forall q,
          In q (staged_files st) ->
          In q (staged_files
                  (fold_left (sync_step env force content custom custom_files) files st)))
    /\ (forall p,
          In p files -> is_new custom_files p = true ->
          In p (staged_files
                  (fold_left (sync_step env force content custom custom_files) files st))).
Proof.
  induction files as [|x files IH]; intros st A.
  - cbn. repeat split; auto. intros p [].
  - cbn [fold_left]. destruct (sync_step_add_all force st x A) as (A1 & Q1 & K1 & N1).
    destruct (IH _ A1) as (Q & K & N). split; [now rewrite Q|]. split.
    + intros q I. apply K, K1, I.
    + intros p [<-|I] Np; [apply K, N1, Np | now apply N].
Qed.

(** X25. Once [add_all] is set, by a yes to adding all new files or by a yes to
    adding all modified files, every new file that follows in the listing
    is staged, and whether to add a file is not asked again. *)
Theorem add_all_stages_new_files_unasked (force : bool) (before after : list string) :
  add_all (sync_stage env force content custom before custom_files) = true ->
  asked "Do you want to add this file?"
    (sync_stage env force content custom (before ++ after) custom_files)
  = asked "Do you want to add this file?"
      (sync_stage env force content custom before custom_files)
  /\ forall p, In p after -> is_new custom_files p = true ->
               In p (staged_files
                       (sync_stage env force content custom (before ++ after) custom_files)).
Proof.
  unfold sync_stage. rewrite fold_left_app. intros A.
  destruct (fold_add_all force after _ A) as (Q & _ & N). split; [exact Q | exact N].
Qed.




Lemma sync_step_unchanged (force : bool) (st : state) (p : string) :
  changed env content custom custom_files p = false ->
  sync_step env force content custom custom_files st p = st.
Proof.
  unfold sync_step, changed, is_modified, is_new.
  destruct (negb (existsb (String.eqb p) custom_files)); cbn [negb andb orb];
    [discriminate|].
  now destruct (calculate_diff env _ _).
Qed.

(** X27. When the listing has no new and no modified file, [sync] stages
    nothing, asks nothing and creates no release. *)
Theorem sync_on_unchanged_content_does_nothing (force : bool) (content_files : list string) :
  (forall p, In p content_files ->
             changed env content custom custom_files p = false) ->
  sync env force content custom content_files custom_files = (false, initial).
Proof.
  intros H.
  assert (E : sync_stage env force content custom content_files custom_files = initial).
  { unfold sync_stage. generalize initial as st.
    induction content_files as [|p files IH]; intros st; [reflexivity|].
    cbn [fold_left]. rewrite (sync_step_unchanged force st p (H p (or_introl eq_refl))).
    apply IH. intros q I. apply H. now right. }
  unfold sync. now rewrite E.
Qed.

End SyncFacts.

Lemma add_all_stages_new_files_unasked_witness :
  In "b.yml"
    (Sync.staged_files
       (Sync.sync_stage
          {| Sync.click_confirm :=
               fun _ msg => negb (String.eqb msg "Do you want to add all new files?");
             Sync.calculate_diff := fun _ _ => ["-a"; "+b"] |}
          false "/content" "/custom" (["README.md"] ++ ["a.yml"; "b.yml"]) ["README.md"])).
Proof.
  apply (add_all_stages_new_files_unasked
           {| Sync.click_confirm :=
                fun _ msg => negb (String.eqb msg "Do you want to add all new files?");
              Sync.calculate_diff := fun _ _ => ["-a"; "+b"] |}
           "/content" "/custom" ["README.md"] false ["README.md"] ["a.yml"; "b.yml"]
           eq_refl).
  - right. left. reflexivity.
  - reflexivity.
Defined.

Lemma sync_on_unchanged_content_does_nothing_witness :
  Sync.sync
    {| Sync.click_confirm := fun _ _ => true; Sync.calculate_diff := fun _ _ => [] |}
    false "/content" "/custom" ["README.md"; "a.yml"] ["a.yml"; "README.md"; "local.yml"]
  = (false, Sync.initial).
Proof.
  apply (sync_on_unchanged_content_does_nothing
           {| Sync.click_confirm := fun _ _ => true; Sync.calculate_diff := fun _ _ => [] |}
           "/content" "/custom" ["a.yml"; "README.md"; "local.yml"] false
           ["README.md"; "a.yml"]).
  intros p [<-|[<-|[]]]; reflexivity.
Defined.

(** * Examples *)

Example endswith_ex : endswith "build/" "/" = true /\ endswith "a*/" "*/" = true
                     /\ endswith "" "/" = false /\ endswith "ab" "" = true.
Proof. repeat split. Qed.

Example contains_ex : contains "/**/" "a/**/b" = true /\ contains "**" "a*b" = false.
Proof. repeat split. Qed.

Example partition_ex : partition "/**/" "a/**/b/**/c" = ("a", "b/**/c").
Proof. reflexivity. Qed.

Example strip_ex : strip "  a b  " = "a b" /\ strip "   " = "".
Proof. split; reflexivity. Qed.

Example replace_ex : replace "/a/" "" "/a/b/a/c" = "bc" /\ replace "aa" "x" "aaaaa" = "xxa".
Proof. split; reflexivity. Qed.

Example pad2_ex : pad2 (str_of_nat 0) = " 0" /\ pad2 (str_of_nat 12) = "12".
Proof. split; reflexivity. Qed.

(** The pattern [/**], with an empty name before the double star, is the
    rule that matches every directory. *)
Example trailing_double_star_without_name :
  IgnorePattern.init "/srv/content" "/**" ".contentignore" 1
  = Ok (IgnorePattern.Build_t "/srv/content" "/**" ".contentignore: 1:/**" None
          true true None (Some (RStar (RAny false)))).
Proof. reflexivity. Qed.

(** The two end-to-end scenarios of the specification. *)
Example scenario_build_directory :
  list_files (example_os ["build/"]) "/srv/content" example_tree = Ok ["a.txt"].
Proof. reflexivity. Qed.

Example scenario_log_files :
  list_files (example_os ["*.log"]) "/srv/content"
    (Dir [("temp", Dir [] ["x.log"; "notes.txt"])] ["a.txt"; "b.log"])
  = Ok ["a.txt"; "temp/notes.txt"].
Proof. reflexivity. Qed.

(** A line [!foo] alone: one diagnostic, no rule, and [foo] is not ignored. *)
Example negation_line_alone :
  IgnoredFiles.init (example_os ["!foo"]) "/srv/content" ".contentignore" false
  = Ok (IgnoredFiles.Build_t "/srv/content" [negation_diagnostic 1] [] ".contentignore")
  /\ ignored (example_os ["!foo"])
       (IgnoredFiles.Build_t "/srv/content" [negation_diagnostic 1] [] ".contentignore")
       "/srv/content/foo" false = false.
Proof. split; reflexivity. Qed.
